(** * The sync engine of mautrix-python: [mautrix/client/syncer.py]

    A shallow embedding of the [Syncer] class: the handler registry
    ([add_event_handler], [remove_event_handler]), the dispatch functions
    ([dispatch_event], [dispatch_manual_event], [dispatch_internal_event],
    [run_internal_event]), the classifier [handle_sync] and the polling loop
    [_start].

    Python values are modelled as follows.
    - A decoded JSON document is a [JSON] tree, its numbers integers; a
      Python [dict] is an association list in insertion order with at most
      one entry per key.
    - A raised exception is a [Raise e] result; the state reached when the
      exception is raised is kept, as in Python.
    - [loop.create_task], [asyncio.gather], [asyncio.sleep], the calls of
      [self.sync] and of the cursor store are recorded, in program order, in
      the [w_trace] of a [World]. A handler is known by its identity only:
      what it does once its task runs is outside the syncer.
    - The endless loop of [_start] is run on a finite list of outcomes of
      [self.sync], one per request.
    - The event codec of [mautrix.types] ([deserialize]), the reply trimming
      of message contents and the clock are parameters ([Codec]); the event
      types of [mautrix.types] are modelled as the specification describes
      them. [asyncio.CancelledError] is taken not to be an [Exception], as
      in Python 3.8 and later. *)

From Stdlib Require Import ZArith Bool List.
From stdpp Require Import base option list countable gmap strings.
Import ListNotations.
Local Open Scope string_scope.
Local Open Scope list_scope.
Local Open Scope Z_scope.
Set Warnings "-register-all".

(** ** JSON values and the Python operations the syncer applies to them *)

Inductive JSON : Type :=
| JNull : JSON
| JBool (b : bool) : JSON
| JNum (n : Z) : JSON
| JStr (s : string) : JSON
| JList (l : list JSON) : JSON
| JObj (kvs : list (string * JSON)) : JSON.

(** The exceptions that occur in the module. All of them but
    [CancelledError] are instances of Python's [Exception]. *)
Inductive PyExc : Type :=
| AttributeError
| TypeError
| KeyError
| ValueError
| StopIteration
| SerializerError
| CancelledError
| MUnknownToken
| OtherException (name : string).

Definition is_Exception (e : PyExc) : bool :=
  match e with CancelledError => false | _ => true end.

Inductive PyResult (A : Type) : Type :=
| Ok (a : A)
| Raise (e : PyExc).
Arguments Ok {A} a.
Arguments Raise {A} e.

Module Dict.
(** [d.get(k)] on an association list. *)
Fixpoint lookup {V : Type} (k : string) (d : list (string * V)) : option V :=
  match d with
  | [] => None
  | (k', v) :: r => if String.eqb k' k then Some v else lookup k r
  end.

(** [d[k] = v]: an existing key keeps its position, a new key goes last. *)
Fixpoint set {V : Type} (k : string) (v : V) (d : list (string * V))
  : list (string * V) :=
  match d with
  | [] => [(k, v)]
  | (k', v') :: r =>
      if String.eqb k' k then (k', v) :: r else (k', v') :: set k v r
  end.

(** [d.setdefault(k, v)]. *)
Definition setdefault {V : Type} (k : string) (v : V) (d : list (string * V))
  : list (string * V) :=
  match lookup k d with
  | Some _ => d
  | None => d ++ [(k, v)]
  end.

Definition mem {V : Type} (k : string) (d : list (string * V)) : bool :=
  match lookup k d with Some _ => true | None => false end.
End Dict.

(** [x.get(k, dflt)]: only a dict has the method. *)
Definition py_get (x : JSON) (k : string) (dflt : JSON) : PyResult JSON :=
  match x with
  | JObj kvs => Ok (default dflt (Dict.lookup k kvs))
  | _ => Raise AttributeError
  end.

(** [x[k] = v] with a string key: only a dict accepts it. *)
Definition py_setitem (x : JSON) (k : string) (v : JSON) : PyResult JSON :=
  match x with
  | JObj kvs => Ok (JObj (Dict.set k v kvs))
  | _ => Raise TypeError
  end.

(** [x.items()]. *)
Definition py_items (x : JSON) : PyResult (list (string * JSON)) :=
  match x with
  | JObj kvs => Ok kvs
  | _ => Raise AttributeError
  end.

Fixpoint chars (s : string) : list JSON :=
  match s with
  | EmptyString => []
  | String c r => JStr (String c EmptyString) :: chars r
  end.

(** [for v in x]: a list yields its elements, a dict its keys, a string its
    characters; nothing else is iterable. *)
Definition py_iter (x : JSON) : PyResult (list JSON) :=
  match x with
  | JList l => Ok l
  | JObj kvs => Ok (map (fun kv => JStr (fst kv)) kvs)
  | JStr s => Ok (chars s)
  | _ => Raise TypeError
  end.

(** Truth value of a JSON value ([not x] is its negation). *)
Definition py_truthy (x : JSON) : bool :=
  match x with
  | JNull => false
  | JBool b => b
  | JNum n => negb (n =? 0)
  | JStr s => negb (String.eqb s "")
  | JList l => match l with [] => false | _ => true end
  | JObj kvs => match kvs with [] => false | _ => true end
  end.

(** Python's [==] on JSON values: dicts compare without regard to order, and
    [True == 1], [False == 0]. *)
Fixpoint py_eq (a b : JSON) {struct a} : bool :=
  match a, b with
  | JNull, JNull => true
  | JBool x, JBool y => Bool.eqb x y
  | JBool x, JNum n => n =? (if x then 1 else 0)
  | JNum n, JBool x => n =? (if x then 1 else 0)
  | JNum n, JNum m => n =? m
  | JStr s, JStr s' => String.eqb s s'
  | JList l, JList l' =>
      (fix go (l l' : list JSON) {struct l} : bool :=
         match l, l' with
         | [], [] => true
         | x :: xs, y :: ys => py_eq x y && go xs ys
         | _, _ => false
         end) l l'
  | JObj kvs, JObj kvs' =>
      Nat.eqb (length kvs) (length kvs') &&
      (fix go (d : list (string * JSON)) {struct d} : bool :=
         match d with
         | [] => true
         | (k, v) :: r =>
             match Dict.lookup k kvs' with
             | Some v' => py_eq v v'
             | None => false
             end && go r
         end) kvs
  | _, _ => false
  end.

(** [k in x] for a string [k]. A dict tests its keys, a list its elements,
    a string its substrings. *)
Fixpoint is_prefix (p s : string) : bool :=
  match p, s with
  | EmptyString, _ => true
  | String a p', String b s' => Ascii.eqb a b && is_prefix p' s'
  | String _ _, EmptyString => false
  end.

Fixpoint is_substring (p s : string) : bool :=
  is_prefix p s ||
  match s with
  | EmptyString => false
  | String _ s' => is_substring p s'
  end.

Definition py_contains (k : string) (x : JSON) : PyResult bool :=
  match x with
  | JObj kvs => Ok (Dict.mem k kvs)
  | JList l => Ok (existsb (fun v => py_eq v (JStr k)) l)
  | JStr s => Ok (is_substring k s)
  | _ => Raise TypeError
  end.

(** [l.remove(x)]: drops the first element equal to [x]; [None] stands for
    the [ValueError] raised when there is none. *)
Fixpoint list_remove `{EqDecision A} (x : A) (l : list A) : option (list A) :=
  match l with
  | [] => None
  | y :: r => if decide (y = x) then Some r else cons y <$> list_remove x r
  end.

(** ** Stream origins, event types and the registry keys *)

(** [class SyncStream(Flag)]: [auto()] numbers the members 1, 2, 4, ...;
    [|] and [&] are bitwise. *)
Module SyncStream.
Definition t := Z.
Definition INTERNAL : t := 1.
Definition JOINED_ROOM : t := 2.
Definition INVITED_ROOM : t := 4.
Definition LEFT_ROOM : t := 8.
Definition TIMELINE : t := 16.
Definition STATE : t := 32.
Definition EPHEMERAL : t := 64.
Definition ACCOUNT_DATA : t := 128.
Definition TO_DEVICE : t := 256.
(** Truth value of [source & flag]. *)
Definition has (source flag : t) : bool := negb (Z.land source flag =? 0).
End SyncStream.

Inductive InternalEventType : Type :=
| SYNC_STARTED | SYNC_ERRORED | SYNC_SUCCESSFUL | SYNC_STOPPED
| JOIN | PROFILE_CHANGE | INVITE | REJECT_INVITE | DISINVITE | LEAVE | KICK
| BAN | UNBAN
| DEVICE_LISTS | DEVICE_OTK_COUNT.

Module EventType.
(** Modelled from the spec: [EventType.Class] of [mautrix.types], the
    coarse class of an event type (state / message / ephemeral /
    account-data / to-device); [UNKNOWN] is the class of a type that has
    none, such as the wildcard. *)
Inductive Class : Type :=
| UNKNOWN | STATE | MESSAGE | ACCOUNT_DATA | EPHEMERAL | TO_DEVICE.

(** Modelled from the spec: [EventType] of [mautrix.types], an identifier
    with a class; two event types are equal when both agree. *)
Record t : Type := Mk { name : string; t_class : Class }.

(** Modelled from the spec: [EventType.ALL], the wildcard under which the
    global handlers are registered. *)
Definition ALL : t := Mk "__ALL__" UNKNOWN.

(** Modelled from the spec: [with_class], the same identifier with the
    class replaced. *)
Definition with_class (et : t) (c : Class) : t := Mk (name et) c.
End EventType.

#[global] Instance InternalEventType_eq_dec : EqDecision InternalEventType.
Proof. solve_decision. Defined.
#[global] Instance Class_eq_dec : EqDecision EventType.Class.
Proof. solve_decision. Defined.
#[global] Instance EventType_eq_dec : EqDecision EventType.t.
Proof. solve_decision. Defined.

Definition InternalEventType_to_nat (i : InternalEventType) : nat :=
  match i with
  | SYNC_STARTED => 0 | SYNC_ERRORED => 1 | SYNC_SUCCESSFUL => 2
  | SYNC_STOPPED => 3 | JOIN => 4 | PROFILE_CHANGE => 5 | INVITE => 6
  | REJECT_INVITE => 7 | DISINVITE => 8 | LEAVE => 9 | KICK => 10
  | BAN => 11 | UNBAN => 12 | DEVICE_LISTS => 13 | DEVICE_OTK_COUNT => 14
  end%nat.

Definition InternalEventType_of_nat (n : nat) : InternalEventType :=
  match n with
  | 0 => SYNC_STARTED | 1 => SYNC_ERRORED | 2 => SYNC_SUCCESSFUL
  | 3 => SYNC_STOPPED | 4 => JOIN | 5 => PROFILE_CHANGE | 6 => INVITE
  | 7 => REJECT_INVITE | 8 => DISINVITE | 9 => LEAVE | 10 => KICK
  | 11 => BAN | 12 => UNBAN | 13 => DEVICE_LISTS | _ => DEVICE_OTK_COUNT
  end%nat.

#[global] Program Instance InternalEventType_countable
  : Countable InternalEventType :=
  inj_countable' InternalEventType_to_nat InternalEventType_of_nat _.
Next Obligation. by intros []. Qed.

Definition Class_to_nat (c : EventType.Class) : nat :=
  match c with
  | EventType.UNKNOWN => 0 | EventType.STATE => 1 | EventType.MESSAGE => 2
  | EventType.ACCOUNT_DATA => 3 | EventType.EPHEMERAL => 4
  | EventType.TO_DEVICE => 5
  end%nat.

Definition Class_of_nat (n : nat) : EventType.Class :=
  match n with
  | 0 => EventType.UNKNOWN | 1 => EventType.STATE | 2 => EventType.MESSAGE
  | 3 => EventType.ACCOUNT_DATA | 4 => EventType.EPHEMERAL
  | _ => EventType.TO_DEVICE
  end%nat.

#[global] Program Instance Class_countable : Countable EventType.Class :=
  inj_countable' Class_to_nat Class_of_nat _.
Next Obligation. by intros []. Qed.

#[global] Program Instance EventType_countable : Countable EventType.t :=
  inj_countable'
    (fun et => (EventType.name et, EventType.t_class et))
    (fun p => EventType.Mk (fst p) (snd p)) _.
Next Obligation. by intros []. Qed.

(** A key of [event_handlers]: [Union[EventType, InternalEventType]]. *)
Definition EvKey : Type := EventType.t + InternalEventType.

(** An [EventHandler] is a callable; the registry only compares handlers, so
    a handler is represented by its identity. *)
Definition Handler : Type := nat.

(** An entry of a handler list: [(handler, wait_sync)]. *)
Definition HandlerEntry : Type := Handler * bool.

(** The fields of [Syncer] that the modelled methods read or write. *)
Record Syncer : Type := MkSyncer {
  mxid : string;
  global_event_handlers : list HandlerEntry;
  event_handlers : gmap EvKey (list HandlerEntry);
  ignore_initial_sync : bool;
  ignore_first_sync : bool;
}.

(** [Syncer.__init__]. *)
Definition init (user : string) : Syncer :=
  MkSyncer user [] ∅ false false.

Definition set_global (l : list HandlerEntry) (s : Syncer) : Syncer :=
  MkSyncer (mxid s) l (event_handlers s)
           (ignore_initial_sync s) (ignore_first_sync s).

Definition set_handlers (m : gmap EvKey (list HandlerEntry)) (s : Syncer)
  : Syncer :=
  MkSyncer (mxid s) (global_event_handlers s) m
           (ignore_initial_sync s) (ignore_first_sync s).

(** [add_event_handler]. The [ValueError] branch needs an [event_type] that
    is neither an [EventType] nor an [InternalEventType], which [EvKey]
    excludes. *)
Definition add_event_handler (s : Syncer) (event_type : EvKey)
    (handler : Handler) (wait_sync : bool) : Syncer :=
  if decide (event_type = inl EventType.ALL) then
    set_global (global_event_handlers s ++ [(handler, wait_sync)]) s
  else
    set_handlers
      (<[event_type :=
           default [] (event_handlers s !! event_type)
             ++ [(handler, wait_sync)]]> (event_handlers s)) s.

(** [remove_event_handler]. The two [remove] calls and the [del] run inside
    one [try]: the first [ValueError] or [KeyError] ends the block, and what
    was removed from the list before stays removed. *)
Definition remove_event_handler (s : Syncer) (event_type : EvKey)
    (handler : Handler) : Syncer :=
  if decide (event_type = inl EventType.ALL) then
    match list_remove (handler, true) (global_event_handlers s) with
    | None => s
    | Some l1 =>
        match list_remove (handler, false) l1 with
        | None => set_global l1 s
        | Some l2 => set_global l2 s
        end
    end
  else
    match event_handlers s !! event_type with
    | None => s
    | Some handlers =>
        match list_remove (handler, true) handlers with
        | None => s
        | Some l1 =>
            match list_remove (handler, false) l1 with
            | None => set_handlers (<[event_type := l1]> (event_handlers s)) s
            | Some l2 =>
                if Nat.eqb (length l2) 0
                then set_handlers (delete event_type (event_handlers s)) s
                else set_handlers (<[event_type := l2]> (event_handlers s)) s
            end
        end
    end.

(** ** Events, tasks and the effects of the engine *)

(** The [deserialize] class methods that [handle_sync] calls:
    [AccountDataEvent], [EphemeralEvent], [ToDeviceEvent], [StateEvent] and
    the union [Event]. *)
Inductive Decoder : Type :=
| AccountDataEvent | EphemeralEvent | ToDeviceEvent | StateEvent | AnyEvent.

(** A value passed as a keyword argument of an internal event. *)
Inductive KwVal : Type :=
| VJSON (j : JSON)
| VSource (source : SyncStream.t)
| VError (e : option PyExc)
| VInt (n : Z).

(** [event.unsigned] of a state event, as far as the syncer touches it:
    its attribute [invite_room_state], [None] while it is unset. *)
Record Unsigned (Stripped : Type) : Type := MkUnsigned {
  invite_room_state : option (list Stripped);
}.
Arguments MkUnsigned {Stripped}.
Arguments invite_room_state {Stripped}.

(** A typed event, with the attributes that the syncer reads or writes.
    [Content] is the decoded content of an event, [Stripped] a decoded
    [StrippedStateEvent] and [Other] stands for the attributes that the
    syncer never touches (room, sender, event id, timestamp, ...).
    [ev_unsigned] is [None] for an event whose [unsigned] is [None]. *)
Record Event (Content Stripped Other : Type) : Type := MkEvent {
  ev_is_message : bool;            (* isinstance(event, MessageEvent) *)
  ev_type : EventType.t;           (* event.type *)
  ev_state_key : option string;    (* getattr(event, "state_key", None) *)
  ev_content : Content;            (* event.content *)
  ev_unsigned : option (Unsigned Stripped); (* event.unsigned *)
  ev_source : option SyncStream.t; (* event.source, unset after decoding *)
  ev_other : Other;
}.
Arguments MkEvent {Content Stripped Other}.
Arguments ev_is_message {Content Stripped Other}.
Arguments ev_type {Content Stripped Other}.
Arguments ev_state_key {Content Stripped Other}.
Arguments ev_content {Content Stripped Other}.
Arguments ev_unsigned {Content Stripped Other}.
Arguments ev_source {Content Stripped Other}.
Arguments ev_other {Content Stripped Other}.

(** What the syncer takes from [mautrix.types] and from the clock:
    - the three types above;
    - [trim_reply_fallback c] is the content after
      [c.trim_reply_fallback()];
    - [deserialize d raw] is [d.deserialize(raw)] and
      [deserialize_stripped raw] is [StrippedStateEvent.deserialize(raw)],
      [None] when the codec rejects the raw event, which raises
      [SerializerError];
    - [time_ms k] is the value of [int(time() * 1000)] at the [k]-th
      reading of the clock. *)
Class Codec : Type := MkCodec {
  Content : Type;
  Stripped : Type;
  Other : Type;
  trim_reply_fallback : Content -> Content;
  deserialize : Decoder -> JSON -> option (Event Content Stripped Other);
  deserialize_stripped : JSON -> option Stripped;
  time_ms : nat -> Z;
}.

Section Effects.

Context `{C : Codec}.

Local Abbreviation Event := (Event Content Stripped Other).

(** What a handler is called with. *)
Inductive Payload : Type :=
| PEvent (e : Event)
| PDeviceOTKCount (curve25519 signed_curve25519 : JSON)
| PDeviceLists (changed left : JSON)
| PKwargs (kwargs : list (string * KwVal)).

(** [loop.create_task(self._catch_errors(handler, data))]: the invocation
    of one handler on one payload; [task_id] numbers the tasks in the
    order of their creation. *)
Record Task : Type := MkTask {
  task_id : nat;
  task_handler : Handler;
  task_data : Payload;
}.

Inductive Effect : Type :=
| ECreateTask (t : Task)          (* loop.create_task(...) *)
| EGather (ts : list Task)        (* await asyncio.gather(tasks) *)
| ESync (since : JSON)            (* await self.sync(since=...) *)
| EPutNextBatch (token : JSON)    (* await sync_store.put_next_batch(...) *)
| ESleep (seconds : Z)            (* await asyncio.sleep(...) *)
| ELogException (msg : string).   (* self.log.exception(...) *)

Record World : Type := MkWorld {
  w_trace : list Effect;     (* the effects so far, oldest first *)
  w_tasks : nat;             (* how many tasks were created *)
  w_next_batch : JSON;       (* the cursor held by the sync store *)
  w_time_reads : nat;        (* how many times the clock was read *)
}.

(** Computations: a state that survives a raised exception. *)
Definition M (A : Type) : Type := World -> World * PyResult A.

Definition ret {A} (a : A) : M A := fun w => (w, Ok a).

Definition bind {A B} (m : M A) (f : A -> M B) : M B :=
  fun w =>
    match m w with
    | (w', Ok a) => f a w'
    | (w', Raise e) => (w', Raise e)
    end.

Definition raise {A} (e : PyExc) : M A := fun w => (w, Raise e).

Definition lift {A} (r : PyResult A) : M A := fun w => (w, r).

(** A call of the codec. *)
Definition decoded {A} (r : option A) : M A :=
  lift (match r with Some a => Ok a | None => Raise SerializerError end).

(** [try: m except Exception: handler]. *)
Definition try_except {A} (m : M A) (handler : PyExc -> M A) : M A :=
  fun w =>
    match m w with
    | (w', Ok a) => (w', Ok a)
    | (w', Raise e) => if is_Exception e then handler e w' else (w', Raise e)
    end.

End Effects.

Notation "x <- c1 ;; c2" := (bind c1 (fun x => c2))
  (at level 100, c1 at next level, c2 at level 200, right associativity).
Notation "c1 ;; c2" := (bind c1 (fun _ => c2))
  (at level 100, c2 at level 200, right associativity).

Section Engine.

Context `{C : Codec}.

Local Abbreviation Event := (Event Content Stripped Other).

Definition emit (e : Effect) : M unit :=
  fun w =>
    (MkWorld (w_trace w ++ [e]) (w_tasks w) (w_next_batch w)
             (w_time_reads w), Ok tt).

Definition create_task (handler : Handler) (data : Payload) : M Task :=
  fun w =>
    let task := MkTask (w_tasks w) handler data in
    (MkWorld (w_trace w ++ [ECreateTask task]) (S (w_tasks w))
             (w_next_batch w) (w_time_reads w), Ok task).

Definition gather (tasks : list Task) : M unit := emit (EGather tasks).

Definition get_next_batch : M JSON := fun w => (w, Ok (w_next_batch w)).

Definition put_next_batch (token : JSON) : M unit :=
  fun w =>
    (MkWorld (w_trace w ++ [EPutNextBatch token]) (w_tasks w) token
             (w_time_reads w), Ok tt).

(** [int(time() * 1000)]. *)
Definition read_time : M Z :=
  fun w =>
    (MkWorld (w_trace w) (w_tasks w) (w_next_batch w) (S (w_time_reads w)),
     Ok (time_ms (w_time_reads w))).

(** [tasks = []; for x in l: tasks += body(x)]. *)
Fixpoint for_tasks {A} (body : A -> M (list Task)) (l : list A)
  : M (list Task) :=
  match l with
  | [] => ret []
  | x :: r =>
      ts <- body x ;;
      ts' <- for_tasks body r ;;
      ret (ts ++ ts')
  end.

(** [for x in l: body(x)], keeping the updated elements. *)
Fixpoint for_each {A B} (body : A -> M B) (l : list A) : M (list B) :=
  match l with
  | [] => ret []
  | x :: r =>
      y <- body x ;;
      ys <- for_each body r ;;
      ret (y :: ys)
  end.

(** ** Dispatch *)

(** The loop of [dispatch_manual_event]: one task per entry, in order;
    the tasks of the entries to wait for are collected. *)
Fixpoint run_handlers (force_synchronous : bool) (data : Payload)
    (handlers : list HandlerEntry) : M (list Task) :=
  match handlers with
  | [] => ret []
  | (handler, wait_sync) :: r =>
      task <- create_task handler data ;;
      tasks <- run_handlers force_synchronous data r ;;
      ret (if force_synchronous || wait_sync then task :: tasks else tasks)
  end.

Definition dispatch_manual_event (s : Syncer) (event_type : EvKey)
    (data : Payload) (include_global_handlers force_synchronous : bool)
  : M (list Task) :=
  let handlers := default [] (event_handlers s !! event_type) in
  let handlers :=
    if include_global_handlers
    then global_event_handlers s ++ handlers
    else handlers in
  run_handlers force_synchronous data handlers.

(** The class that [dispatch_event] gives to the type of an event. *)
Definition resolved_class (event : Event) (source : SyncStream.t)
  : EventType.Class :=
  match ev_state_key event with
  | Some _ => EventType.STATE
  | None =>
      if SyncStream.has source SyncStream.EPHEMERAL
      then EventType.EPHEMERAL
      else if SyncStream.has source SyncStream.ACCOUNT_DATA
      then EventType.ACCOUNT_DATA
      else if SyncStream.has source SyncStream.TO_DEVICE
      then EventType.TO_DEVICE
      else EventType.MESSAGE
  end.

(** The event as [dispatch_event] hands it to the handlers: content
    trimmed for a [MessageEvent], class resolved, source attached. *)
Definition prepared (event : Event) (source : SyncStream.t) : Event :=
  MkEvent (ev_is_message event)
          (EventType.with_class (ev_type event)
                                (resolved_class event source))
          (ev_state_key event)
          (if ev_is_message event
           then trim_reply_fallback (ev_content event)
           else ev_content event)
          (ev_unsigned event)
          (Some source)
          (ev_other event).

Definition dispatch_event (s : Syncer) (event : Event)
    (source : SyncStream.t) : M (list Task) :=
  let event := prepared event source in
  dispatch_manual_event s (inl (ev_type event)) (PEvent event) true false.

(** [bool(data)] of a payload: an event, a [DeviceOTKCount] and a
    [DeviceLists] are objects without [__bool__] or [__len__], hence true; a
    dict is true unless it is empty. *)
Definition payload_truthy (data : Payload) : bool :=
  match data with
  | PKwargs [] => false
  | _ => true
  end.

(** [custom_type or kwargs], after [kwargs["source"] = INTERNAL]: a
    [custom_type] that is [None] ([None] here) or falsy gives way to the
    keyword arguments. *)
Definition internal_payload (custom_type : option Payload)
    (kwargs : list (string * KwVal)) : Payload :=
  let kwargs := Dict.set "source" (VSource SyncStream.INTERNAL) kwargs in
  match custom_type with
  | Some p => if payload_truthy p then p else PKwargs kwargs
  | None => PKwargs kwargs
  end.

Definition dispatch_internal_event (s : Syncer)
    (event_type : InternalEventType) (custom_type : option Payload)
    (kwargs : list (string * KwVal)) : M (list Task) :=
  dispatch_manual_event s (inr event_type)
    (internal_payload custom_type kwargs) false false.

Definition run_internal_event (s : Syncer)
    (event_type : InternalEventType) (custom_type : option Payload)
    (kwargs : list (string * KwVal)) : M unit :=
  tasks <- dispatch_manual_event s (inr event_type)
             (internal_payload custom_type kwargs) false false ;;
  gather tasks.

(** ** The classifier: [handle_sync] *)

(** The elements iterated by
    [for raw_event in x.get(section, {}).get("events", [])]. *)
Definition section_events (x : JSON) (section : string)
  : PyResult (list JSON) :=
  match py_get x section (JObj []) with
  | Ok sec =>
      match py_get sec "events" (JList []) with
      | Ok events => py_iter events
      | Raise e => Raise e
      end
  | Raise e => Raise e
  end.

(** The pairs iterated by
    [for room_id, room_data in rooms.get(membership, {}).items()]. *)
Definition room_items (rooms : JSON) (membership : string)
  : PyResult (list (string * JSON)) :=
  match py_get rooms membership (JObj []) with
  | Ok rs => py_items rs
  | Raise e => Raise e
  end.

(** One top-level event of the section decoded by [d]. *)
Definition handle_plain_event (s : Syncer) (d : Decoder)
    (source : SyncStream.t) (raw_event : JSON) : M (list Task) :=
  event <- decoded (deserialize d raw_event) ;;
  dispatch_event s event source.

(** One event of a joined room: the room id is written into the raw event
    before it is decoded. *)
Definition handle_room_event (s : Syncer) (d : Decoder)
    (source : SyncStream.t) (room_id : string) (raw_event : JSON)
  : M (list Task) :=
  raw_event <- lift (py_setitem raw_event "room_id" (JStr room_id)) ;;
  event <- decoded (deserialize d raw_event) ;;
  dispatch_event s event source.

Definition handle_joined_room (s : Syncer) (room : string * JSON)
  : M (list Task) :=
  let (room_id, room_data) := room in
  state <- lift (section_events room_data "state") ;;
  t1 <- for_tasks
          (handle_room_event s StateEvent
             (Z.lor SyncStream.JOINED_ROOM SyncStream.STATE) room_id)
          state ;;
  timeline <- lift (section_events room_data "timeline") ;;
  t2 <- for_tasks
          (handle_room_event s AnyEvent
             (Z.lor SyncStream.JOINED_ROOM SyncStream.TIMELINE) room_id)
          timeline ;;
  ret (t1 ++ t2).

(** The condition of the generator handed to [next]. *)
Definition is_invite_of (user : string) (raw_event : JSON) : PyResult bool :=
  match raw_event with
  | JObj kvs =>
      Ok (py_eq (default (JStr "") (Dict.lookup "type" kvs))
                (JStr "m.room.member")
          && py_eq (default (JStr "") (Dict.lookup "state_key" kvs))
                   (JStr user))
  | _ => Raise AttributeError
  end.

(** [next(raw_event for raw_event in events if ...)]: the first event that
    passes the test, with the events before and after it; [StopIteration]
    when there is none. *)
Fixpoint find_invite (user : string) (events : list JSON)
  : PyResult (list JSON * JSON * list JSON) :=
  match events with
  | [] => Raise StopIteration
  | raw_event :: r =>
      match is_invite_of user raw_event with
      | Raise e => Raise e
      | Ok true => Ok ([], raw_event, r)
      | Ok false =>
          match find_invite user r with
          | Ok (pre, inv, post) => Ok (raw_event :: pre, inv, post)
          | Raise e => Raise e
          end
      end
  end.

(** [raw_invite.setdefault(k, v)]. *)
Definition py_setdefault (x : JSON) (k : string) (v : JSON) : PyResult JSON :=
  match x with
  | JObj kvs => Ok (JObj (Dict.setdefault k v kvs))
  | _ => Raise AttributeError
  end.

(** [event.unsigned.invite_room_state = l]: the attribute is written on
    the object [event.unsigned]; when that is [None] the assignment raises
    [AttributeError]. *)
Definition set_invite_room_state (l : list Stripped) (event : Event)
  : PyResult Event :=
  match ev_unsigned event with
  | None => Raise AttributeError
  | Some _ =>
      Ok (MkEvent (ev_is_message event) (ev_type event) (ev_state_key event)
                  (ev_content event) (Some (MkUnsigned (Some l)))
                  (ev_source event) (ev_other event))
  end.

(** The body of the loop over the invited rooms. [raw_invite] is one of the
    dicts of [events]: [setdefault] changes it inside the list, and in the
    comprehension it compares equal to itself, so it is left out whatever its
    value; the other events are compared with it by value. *)
Definition handle_invited_room (s : Syncer) (room : string * JSON)
  : M (list Task) :=
  let (room_id, room_data) := room in
  events <- lift (section_events room_data "invite_state") ;;
  events <- for_each
              (fun raw_event =>
                 lift (py_setitem raw_event "room_id" (JStr room_id)))
              events ;;
  found <- lift (find_invite (mxid s) events) ;;
  let '(pre, raw_invite, post) := found in
  raw_invite <- lift (py_setdefault raw_invite "event_id" JNull) ;;
  now <- read_time ;;
  raw_invite <- lift (py_setdefault raw_invite "origin_server_ts" (JNum now)) ;;
  invite <- decoded (deserialize StateEvent raw_invite) ;;
  state <- for_each
             (fun raw_event => decoded (deserialize_stripped raw_event))
             (filter (fun raw_event => negb (py_eq raw_event raw_invite))
                     (pre ++ post)) ;;
  invite <- lift (set_invite_room_state state invite) ;;
  dispatch_event s invite (Z.lor SyncStream.INVITED_ROOM SyncStream.STATE).

(** One timeline event of a left room. *)
Definition handle_left_event (s : Syncer) (room_id : string)
    (raw_event : JSON) : M (list Task) :=
  has_state_key <- lift (py_contains "state_key" raw_event) ;;
  if (has_state_key : bool) then
    handle_room_event s StateEvent
      (Z.lor SyncStream.LEFT_ROOM SyncStream.TIMELINE) room_id raw_event
  else ret [].

Definition handle_left_room (s : Syncer) (room : string * JSON)
  : M (list Task) :=
  let (room_id, room_data) := room in
  timeline <- lift (section_events room_data "timeline") ;;
  for_tasks (handle_left_event s room_id) timeline.

(** The two internal events that open [handle_sync]. *)
Definition handle_otk_count (s : Syncer) (data : JSON) : M (list Task) :=
  otk_count <- lift (py_get data "device_one_time_keys_count" (JObj [])) ;;
  curve <- lift (py_get otk_count "curve25519" (JNum 0)) ;;
  signed <- lift (py_get otk_count "signed_curve25519" (JNum 0)) ;;
  dispatch_internal_event s DEVICE_OTK_COUNT
    (Some (PDeviceOTKCount curve signed)) [].

Definition handle_device_lists (s : Syncer) (data : JSON) : M (list Task) :=
  device_lists <- lift (py_get data "device_lists" (JObj [])) ;;
  changed <- lift (py_get device_lists "changed" (JList [])) ;;
  left <- lift (py_get device_lists "left" (JList [])) ;;
  dispatch_internal_event s DEVICE_LISTS
    (Some (PDeviceLists changed left)) [].

(** The sections after the internal events, up to the joined rooms. *)
Definition handle_top_level (s : Syncer) (data : JSON) : M (list Task) :=
  account_data <- lift (section_events data "account_data") ;;
  t1 <- for_tasks
          (handle_plain_event s AccountDataEvent SyncStream.ACCOUNT_DATA)
          account_data ;;
  ephemeral <- lift (section_events data "ephemeral") ;;
  t2 <- for_tasks
          (handle_plain_event s EphemeralEvent SyncStream.EPHEMERAL)
          ephemeral ;;
  to_device <- lift (section_events data "to_device") ;;
  t3 <- for_tasks
          (handle_plain_event s ToDeviceEvent SyncStream.TO_DEVICE)
          to_device ;;
  ret (t1 ++ t2 ++ t3).

Definition handle_rooms (s : Syncer) (data : JSON) : M (list Task) :=
  rooms <- lift (py_get data "rooms" (JObj [])) ;;
  join <- lift (room_items rooms "join") ;;
  t1 <- for_tasks (handle_joined_room s) join ;;
  invite <- lift (room_items rooms "invite") ;;
  t2 <- for_tasks (handle_invited_room s) invite ;;
  leave <- lift (room_items rooms "leave") ;;
  t3 <- for_tasks (handle_left_room s) leave ;;
  ret (t1 ++ t2 ++ t3).

Definition handle_sync (s : Syncer) (data : JSON) : M (list Task) :=
  t1 <- handle_otk_count s data ;;
  t2 <- handle_device_lists s data ;;
  t3 <- handle_top_level s data ;;
  t4 <- handle_rooms s data ;;
  ret (t1 ++ t2 ++ t3 ++ t4).

(** ** The polling loop: [_start] *)

(** The local variables of [_start]. *)
Record LoopState : Type := MkLoop {
  fail_sleep : Z;
  is_first : bool;
  next_batch : JSON;
}.

(** What one [await self.sync(...)] comes back with. *)
Inductive SyncResult : Type :=
| Returned (data : JSON)
| Raised (e : PyExc).

(** The metadata written under ["net.maunium.mautrix"]. *)
Definition sync_metadata (is_initial is_first : bool) : JSON :=
  JObj [("is_initial", JBool is_initial); ("is_first", JBool is_first)].

(** One turn of the [while True] loop, given the outcome of the request. *)
Definition sync_iteration (s : Syncer) (st : LoopState) (resp : SyncResult)
  : M LoopState :=
  emit (ESync (next_batch st)) ;;
  match resp with
  | Raised CancelledError => raise CancelledError
  | Raised MUnknownToken => raise MUnknownToken
  | Raised e =>
      emit (ELogException "Sync request errored") ;;
      run_internal_event s SYNC_ERRORED None
        [("error", VError (Some e)); ("sleep_for", VInt (fail_sleep st))] ;;
      emit (ESleep (fail_sleep st)) ;;
      ret (MkLoop (if fail_sleep st <? 320
                   then fail_sleep st * 2 else fail_sleep st)
                  (is_first st) (next_batch st))
  | Returned data =>
      let is_initial := negb (py_truthy (next_batch st)) in
      data <- lift (py_setitem data "net.maunium.mautrix"
                      (sync_metadata is_initial (is_first st))) ;;
      next_batch <- lift (py_get data "next_batch" JNull) ;;
      put_next_batch next_batch ;;
      run_internal_event s SYNC_SUCCESSFUL None [("data", VJSON data)] ;;
      if (ignore_first_sync s && is_first st)
         || (ignore_initial_sync s && is_initial)
      then ret (MkLoop 5 false next_batch)
      else
        try_except
          (tasks <- handle_sync s data ;; gather tasks)
          (fun _ => emit (ELogException "Sync handling errored")) ;;
        ret (MkLoop 5 false next_batch)
  end.

(** The loop over the outcomes of the successive requests. The Python loop
    has no exit but an exception; the outcomes given are a finite prefix of
    what the server answers, and the state returned is that of the loop when
    it issues the next request. *)
Fixpoint sync_loop (s : Syncer) (resps : list SyncResult) (st : LoopState)
  : M LoopState :=
  match resps with
  | [] => ret st
  | resp :: r =>
      st' <- sync_iteration s st resp ;;
      sync_loop s r st'
  end.

Definition _start (s : Syncer) (resps : list SyncResult) : M LoopState :=
  next_batch <- get_next_batch ;;
  run_internal_event s SYNC_STARTED None [] ;;
  sync_loop s resps (MkLoop 5 true next_batch).

End Engine.

(** ** Vocabulary of the statements *)

Section Vocabulary.

Context `{C : Codec}.

(** The invocations that a dispatch over [handlers] starts when [n] tasks
    exist already: one task per entry, in the order of the list, each paired
    with the wait flag of its entry. *)
Definition invocations (n : nat) (data : Payload)
    (handlers : list HandlerEntry) : list (Task * bool) :=
  imap (fun i entry => (MkTask (n + i) (fst entry) data, snd entry)) handlers.

(** The invocations to wait for. *)
Definition waited (invs : list (Task * bool)) : list Task :=
  fst <$> filter (fun inv => snd inv = true) invs.

(** The world after [invs] were started from [w]. *)
Definition after_invocations (w : World) (invs : list (Task * bool)) : World :=
  MkWorld (w_trace w ++ (ECreateTask <$> (fst <$> invs)))
          (w_tasks w + length invs)
          (w_next_batch w) (w_time_reads w).

(** The sleeps, the cursors of the requests and the created tasks of a
    trace, in order. *)
Definition sleeps (tr : list Effect) : list Z :=
  omap (fun e => match e with ESleep n => Some n | _ => None end) tr.

Definition requests (tr : list Effect) : list JSON :=
  omap (fun e => match e with ESync since => Some since | _ => None end) tr.

Definition created (tr : list Effect) : list Task :=
  omap (fun e => match e with ECreateTask t => Some t | _ => None end) tr.

(** [w'] is [w] after more effects [tr], none of them a write of the
    cursor. *)
Definition extends_by (w : World) (tr : list Effect) (w' : World) : Prop :=
  w_trace w' = w_trace w ++ tr /\ w_next_batch w' = w_next_batch w.

(** The payload with which [_start] emits the sync-successful event for
    the batch [kvs]: the keyword arguments [data] and [source], where [data]
    is the batch with the metadata entry added. *)
Definition augmented (st : LoopState) (kvs : list (string * JSON)) : JSON :=
  JObj (Dict.set "net.maunium.mautrix"
          (sync_metadata (negb (py_truthy (next_batch st))) (is_first st))
          kvs).

Definition sync_successful_payload (st : LoopState)
    (kvs : list (string * JSON)) : Payload :=
  PKwargs [("data", VJSON (augmented st kvs));
           ("source", VSource SyncStream.INTERNAL)].

(** The world once the batch [kvs] was accepted and the sync-successful
    event emitted: the request, the write of the cursor, then the
    invocations of the handlers of [SYNC_SUCCESSFUL] and the wait for those
    among them that are to be waited for. *)
Definition after_accept (s : Syncer) (st : LoopState)
    (kvs : list (string * JSON)) (w : World) : World :=
  let cursor := default JNull (Dict.lookup "next_batch" kvs) in
  let invs :=
    invocations (w_tasks w) (sync_successful_payload st kvs)
      (default [] (event_handlers s !! inr SYNC_SUCCESSFUL)) in
  MkWorld (w_trace w
             ++ [ESync (next_batch st); EPutNextBatch cursor]
             ++ (ECreateTask <$> (fst <$> invs))
             ++ [EGather (waited invs)])
          (w_tasks w + length invs) cursor (w_time_reads w).

(** The world once a request failed with the transient error [e]: the
    request, the log entry, the invocations of the handlers of
    [SYNC_ERRORED] with the wait for those to be waited for, and the
    sleep. *)
Definition after_failure (s : Syncer) (st : LoopState) (e : PyExc)
    (w : World) : World :=
  let invs :=
    invocations (w_tasks w)
      (PKwargs [("error", VError (Some e));
                ("sleep_for", VInt (fail_sleep st));
                ("source", VSource SyncStream.INTERNAL)])
      (default [] (event_handlers s !! inr SYNC_ERRORED)) in
  MkWorld (w_trace w
             ++ [ESync (next_batch st); ELogException "Sync request errored"]
             ++ (ECreateTask <$> (fst <$> invs))
             ++ [EGather (waited invs); ESleep (fail_sleep st)])
          (w_tasks w + length invs) (w_next_batch w) (w_time_reads w).

Definition is_raised (r : SyncResult) : bool :=
  match r with Raised _ => true | Returned _ => false end.

(** The classification step of [_start], with its [try]. *)
Definition classify (s : Syncer) (data : JSON) : M unit :=
  try_except
    (tasks <- handle_sync s data ;; gather tasks)
    (fun _ => emit (ELogException "Sync handling errored")).

(** A raw event that is a dict with the key ["state_key"]. *)
Definition carries_state_key (raw_event : JSON) : bool :=
  match raw_event with
  | JObj kvs => Dict.mem "state_key" kvs
  | _ => false
  end.

(** The world after one more reading of the clock. *)
Definition after_clock_read (w : World) : World :=
  MkWorld (w_trace w) (w_tasks w) (w_next_batch w) (S (w_time_reads w)).

(** [x.get(section, {}).get(key, dflt)] on a batch whose [section] is
    absent or a dict. *)
Definition field_of (section key : string) (dflt : JSON)
    (kvs : list (string * JSON)) : JSON :=
  match Dict.lookup section kvs with
  | Some (JObj o) => default dflt (Dict.lookup key o)
  | _ => dflt
  end.

(** The payloads of the two internal events of a batch. *)
Definition otk_payload (kvs : list (string * JSON)) : Payload :=
  PDeviceOTKCount
    (field_of "device_one_time_keys_count" "curve25519" (JNum 0) kvs)
    (field_of "device_one_time_keys_count" "signed_curve25519" (JNum 0) kvs).

Definition device_lists_payload (kvs : list (string * JSON)) : Payload :=
  PDeviceLists (field_of "device_lists" "changed" (JList []) kvs)
               (field_of "device_lists" "left" (JList []) kvs).

(** A computation that raises from every world. *)
Definition fails {A} (m : M A) : Prop :=
  forall w, exists e, snd (m w) = Raise e.

(** A computation that only adds effects to the trace, leaves the stored
    cursor alone and raises nothing but instances of [Exception]. *)
Definition tame {A} (m : M A) : Prop :=
  forall w,
    (exists tr, extends_by w tr (fst (m w)))
    /\ (forall e, snd (m w) = Raise e -> is_Exception e = true).

(** A result that is no [CancelledError]. *)
Definition mild {A} (r : PyResult A) : Prop :=
  forall e, r = Raise e -> is_Exception e = true.

End Vocabulary.

(** A registration: the arguments of one [add_event_handler] call. *)
Definition Registration : Type := EvKey * Handler * bool.

(** The calls [add_event_handler(event_type, handler, wait_sync)] of [regs],
    made in order on [s]. *)
Definition register (regs : list Registration) (s : Syncer) : Syncer :=
  foldl (fun s r => add_event_handler s (fst (fst r)) (snd (fst r)) (snd r))
        s regs.

(** The entries registered under [key], in the order of registration. *)
Definition entries_for (key : EvKey) (regs : list Registration)
  : list HandlerEntry :=
  (fun r => (snd (fst r), snd r)) <$> filter (fun r => fst (fst r) = key) regs.

(** How many of the tasks are invocations of [handler]. *)
Definition invocations_of `{C : Codec} (handler : Handler)
    (tasks : list Task) : nat :=
  length (filter (fun t => task_handler t = handler) tasks).

(** The errors of a request after which the loop retries. *)
Definition is_transient (e : PyExc) : bool :=
  match e with CancelledError | MUnknownToken => false | _ => true end.

(** The [k]-th sleep of a run of failures. *)
Definition backoff (k : nat) : Z := Z.min (5 * 2 ^ Z.of_nat k) 320.

(** A key that is absent or holds a dict. *)
Definition dict_or_absent (k : string) (kvs : list (string * JSON)) : bool :=
  match Dict.lookup k kvs with
  | None | Some (JObj _) => true
  | Some _ => false
  end.

Definition is_dict (x : JSON) : bool :=
  match x with JObj _ => true | _ => false end.

(** Whether [_start] skips the classification of the batch. *)
Definition suppressed (s : Syncer) (st : LoopState) : bool :=
  (ignore_first_sync s && is_first st)
  || (ignore_initial_sync s && negb (py_truthy (next_batch st))).

(** ** A small codec for the examples

    Contents, stripped events and the untouched attributes are kept as the
    JSON they come from; the reply fallback of a content is its entry
    ["reply_fallback"]; [Event.deserialize] yields a [MessageEvent] for the
    type ["m.room.message"]; only state events carry a state key; an event
    has an [unsigned] when the raw event has the section, and [None]
    otherwise. *)
Module Demo.

Definition trim (content : JSON) : JSON :=
  match content with
  | JObj kvs =>
      JObj (filter (fun kv => negb (String.eqb (fst kv) "reply_fallback")) kvs)
  | _ => content
  end.

Definition decode (d : Decoder) (raw : JSON)
  : option (Event JSON JSON JSON) :=
  match raw with
  | JObj kvs =>
      match Dict.lookup "type" kvs with
      | Some (JStr name) =>
          let is_message :=
            match d with
            | AnyEvent => String.eqb name "m.room.message"
            | _ => false
            end in
          let state_key :=
            match d, Dict.lookup "state_key" kvs with
            | (StateEvent | AnyEvent), Some (JStr k) =>
                if is_message then None else Some k
            | _, _ => None
            end in
          let unsigned :=
            match Dict.lookup "unsigned" kvs with
            | Some (JObj _) => Some (MkUnsigned None)
            | _ => None
            end in
          Some (MkEvent is_message (EventType.Mk name EventType.UNKNOWN)
                        state_key
                        (default (JObj []) (Dict.lookup "content" kvs))
                        unsigned None raw)
      | _ => None
      end
  | _ => None
  end.

Definition codec : Codec :=
  MkCodec JSON JSON JSON trim decode (fun raw => Some raw)
          (fun k => Z.of_nat k + 1600000000000).

Definition world0 : @World codec := MkWorld [] 0 JNull 0.

Definition member_event (user : string) : list (string * JSON) :=
  [("type", JStr "m.room.member"); ("state_key", JStr user);
   ("content", JObj [("membership", JStr "invite")])].

Definition message_event : Event JSON JSON JSON :=
  MkEvent true (EventType.Mk "m.room.message" EventType.MESSAGE) None
          (JObj [("body", JStr "hello");
                 ("reply_fallback", JStr "> quoted")])
          None None JNull.

Definition user : string := "@me:x".

(** A syncer with four handlers: 1 waits for the sync-successful event,
    2 is global, 3 and 4 take the device lists and the one-time-key
    counts. *)
Definition syncer : Syncer :=
  register [(inr SYNC_SUCCESSFUL, 1%nat, true);
            (inl EventType.ALL, 2%nat, false);
            (inr DEVICE_LISTS, 3%nat, false);
            (inr DEVICE_OTK_COUNT, 4%nat, true)]
           (init user).

(** The same with [ignore_first_sync] set. *)
Definition quiet_syncer : Syncer :=
  MkSyncer (mxid syncer) (global_event_handlers syncer)
           (event_handlers syncer) false true.

(** The payload of the scenario of the invite: one invited room whose
    invite state is the membership event of the user. *)
Definition invite_room : JSON :=
  JObj [("invite_state", JObj [("events", JList [JObj (member_event user)])])].

Definition invite_batch : list (string * JSON) :=
  [("next_batch", JStr "T2");
   ("rooms", JObj [("invite", JObj [("!r:x", invite_room)])])].

(** A batch whose invited room holds a membership event of someone else,
    after a joined room with one message and before a left room. *)
Definition other_invite_room : JSON :=
  JObj [("invite_state",
         JObj [("events", JList [JObj (member_event "@other:x")])])].

Definition text_message : JSON :=
  JObj [("type", JStr "m.room.message");
        ("content", JObj [("body", JStr "hi")])].

Definition leave_event : JSON :=
  JObj [("type", JStr "m.room.member"); ("state_key", JStr user);
        ("content", JObj [("membership", JStr "leave")])].

Definition left_room : JSON :=
  JObj [("timeline", JObj [("events", JList [text_message; leave_event])])].

Definition broken_rooms : JSON :=
  JObj [("join",
         JObj [("!j:x",
                JObj [("timeline", JObj [("events", JList [text_message])])])]);
        ("invite", JObj [("!r:x", other_invite_room)]);
        ("leave", JObj [("!l:x", left_room)])].

Definition broken_batch : list (string * JSON) :=
  [("next_batch", JStr "T3");
   ("device_one_time_keys_count", JObj [("signed_curve25519", JNum 50)]);
   ("rooms", broken_rooms)].

(** What the codec makes of the membership event of the scenario once the
    room id and the two defaults are in place. *)
Definition invite_event : Event JSON JSON JSON :=
  MkEvent false (EventType.Mk "m.room.member" EventType.UNKNOWN) (Some user)
          (JObj [("membership", JStr "invite")]) None None
          (JObj (member_event user
                   ++ [("room_id", JStr "!r:x"); ("event_id", JNull);
                       ("origin_server_ts", JNum 1600000000000)])).

(** Eight failures of the request. *)
Definition failures : list PyExc :=
  replicate 8 (OtherException "ClientConnectionError").

End Demo.

(** ** The rest of the class: decorator, dispatchers, start and stop *)

(** [on(var)] with an event type: the decorator it returns registers the
    decorated function under that type, with [wait_sync] at its default. *)
Definition on_type (s : Syncer) (var : EvKey) (func : Handler) : Syncer :=
  add_event_handler s var func false.

(** [on(var)] with a handler: it is registered under [EventType.ALL]. *)
Definition on_handler (s : Syncer) (var : Handler) : Syncer :=
  add_event_handler s (inl EventType.ALL) var false.

(** The debug lines of [add_dispatcher] and [remove_dispatcher]. *)
Inductive DebugLine : Type :=
| Enabling (dispatcher_type : nat)
| Disabling (dispatcher_type : nat).

#[global] Instance DebugLine_eq_dec : EqDecision DebugLine.
Proof. solve_decision. Defined.

(** A syncer with its [dispatchers] and what it wrote to the debug log. A
    dispatcher type is known by its identity; the instance stored under it is
    the one its constructor makes of the syncer. *)
Record Client : Type := MkClient {
  cl_syncer : Syncer;
  cl_dispatchers : gset nat;
  cl_debug : list DebugLine;
}.

(** How often a line stands in the debug log. *)
Definition count_line (x : DebugLine) (log : list DebugLine) : nat :=
  length (filter (fun y => y = x) log).

Section Dispatchers.

(** [Dispatcher.register] and [Dispatcher.unregister] of the instance of a
    dispatcher type, as what they do to the syncer they are bound to (the
    class [Dispatcher] is outside this module). *)
Variables register_of unregister_of : nat -> Syncer -> Syncer.

Definition add_dispatcher (c : Client) (dispatcher_type : nat) : Client :=
  if decide (dispatcher_type ∈ cl_dispatchers c) then c
  else MkClient (register_of dispatcher_type (cl_syncer c))
                ({[dispatcher_type]} ∪ cl_dispatchers c)
                (cl_debug c ++ [Enabling dispatcher_type]).

Definition remove_dispatcher (c : Client) (dispatcher_type : nat) : Client :=
  if decide (dispatcher_type ∉ cl_dispatchers c) then c
  else MkClient (unregister_of dispatcher_type (cl_syncer c))
                (cl_dispatchers c ∖ {[dispatcher_type]})
                (cl_debug c ++ [Disabling dispatcher_type]).

(** A call of one of the two methods, and a sequence of calls. *)
Inductive DispatcherCall : Type :=
| AddDispatcher (dispatcher_type : nat)
| RemoveDispatcher (dispatcher_type : nat).

Definition call_dispatcher (c : Client) (call : DispatcherCall) : Client :=
  match call with
  | AddDispatcher d => add_dispatcher c d
  | RemoveDispatcher d => remove_dispatcher c d
  end.

Definition call_dispatchers (calls : list DispatcherCall) (c : Client)
  : Client :=
  foldl call_dispatcher c calls.

(** What the call behind a debug line does to the syncer. *)
Definition replay_line (s : Syncer) (line : DebugLine) : Syncer :=
  match line with
  | Enabling d => register_of d s
  | Disabling d => unregister_of d s
  end.

(** The syncer of [c] is [s0] after the calls behind the lines of the log,
    and the log accounts for the dispatchers of [c]. *)
Definition log_agrees (s0 : Syncer) (c : Client) : Prop :=
  cl_syncer c = foldl replay_line s0 (cl_debug c)
  /\ forall d,
       count_line (Enabling d) (cl_debug c)
       = (count_line (Disabling d) (cl_debug c)
          + (if decide (d ∈ cl_dispatchers c) then 1 else 0))%nat.

End Dispatchers.

(** The client as [__init__] leaves it: no dispatcher, nothing logged. *)
Definition new_client (s : Syncer) : Client := MkClient s ∅ [].

(** [syncing_task] with the tasks that [start] created and the [cancel]
    calls made, in order. *)
Record Lifecycle : Type := MkLifecycle {
  syncing_task : option nat;
  lc_created : nat;
  lc_cancelled : list nat;
}.

(** [start]: the running task, if any, is cancelled and a new one made. *)
Definition start (lc : Lifecycle) : Lifecycle :=
  MkLifecycle (Some (lc_created lc)) (S (lc_created lc))
              (match syncing_task lc with
               | Some task => lc_cancelled lc ++ [task]
               | None => lc_cancelled lc
               end).

(** [stop]. *)
Definition stop (lc : Lifecycle) : Lifecycle :=
  match syncing_task lc with
  | Some task =>
      MkLifecycle None (lc_created lc) (lc_cancelled lc ++ [task])
  | None => lc
  end.

Inductive LifecycleCall : Type := Start | Stop.

#[global] Instance LifecycleCall_eq_dec : EqDecision LifecycleCall.
Proof. solve_decision. Defined.

(** [syncing_task] as [__init__] leaves it. *)
Definition new_lifecycle : Lifecycle := MkLifecycle None 0 [].

Definition call_lifecycle (lc : Lifecycle) (call : LifecycleCall)
  : Lifecycle :=
  match call with Start => start lc | Stop => stop lc end.

Section TryStart.

Context `{C : Codec}.

(** [_catch_errors], the body of the task of one invocation; [handler data]
    is what awaiting the handler does. *)
Definition _catch_errors (handler : Payload -> M unit) (data : Payload)
  : M unit :=
  try_except (handler data)
    (fun _ => emit (ELogException "Failed to run handler")).

(** [_try_start]. [created_filter] is the outcome of [create_filter] when
    [filter_data] is a [Filter], [None] when it is an id or absent. The
    result is [Some st] while the loop is still polling (the outcomes given
    are used up) and [None] once [_try_start] has returned. The [else]
    branch needs [_start] to return, which its loop never does. *)
Definition _try_start (s : Syncer) (created_filter : option (PyResult unit))
    (resps : list SyncResult) : M (option LoopState) :=
  fun w =>
    match (match created_filter with
           | Some r => lift r
           | None => ret tt
           end ;; _start s resps) w with
    | (w', Ok st) => (w', Ok (Some st))
    | (w', Raise CancelledError) =>
        (run_internal_event s SYNC_STOPPED None [("error", VError None)] ;;
         ret None) w'
    | (w', Raise e) =>
        if is_Exception e then
          (emit (ELogException "Fatal error while syncing") ;;
           run_internal_event s SYNC_STOPPED None
             [("error", VError (Some e))] ;;
           ret None) w'
        else (w', Raise e)
    end.

(** A computation whose effects are task creations [tr], numbered on from
    the tasks that exist, and nothing else; [Q] holds of its result and
    [tr]. *)
Definition emits {A} (Q : A -> list Task -> Prop) (m : M A) : Prop :=
  forall w,
    exists tr : list Task,
      w_trace (fst (m w)) = w_trace w ++ (ECreateTask <$> tr)
      /\ w_next_batch (fst (m w)) = w_next_batch w
      /\ w_tasks (fst (m w)) = (w_tasks w + length tr)%nat
      /\ task_id <$> tr = seq (w_tasks w) (length tr)
      /\ (forall a, snd (m w) = Ok a -> Q a tr).

(** No task is created. *)
Definition silent {A} (m : M A) : Prop := emits (fun _ tr => tr = []) m.

(** The tasks returned are [pre] followed by some of the tasks created, in
    the order of their creation. *)
Definition tracking_from (pre : list Task) (m : M (list Task)) : Prop :=
  emits (fun ts tr => exists rest, ts = pre ++ rest /\ sublist rest tr) m.

(** An effect that is no request, no sleep and no write of the cursor. *)
Definition calm (e : Effect) : bool :=
  match e with
  | ECreateTask _ | EGather _ | ELogException _ => true
  | _ => false
  end.

(** The [error] that the handlers of [SYNC_STOPPED] are given when
    [_try_start] ends with the exception [e]. *)
Definition stop_error (e : PyExc) : option PyExc :=
  if is_Exception e then Some e else None.

(** The world once [_try_start] has ended with [e] in the world [w]: the
    log entry unless [e] is a cancellation, the invocations of the handlers
    of [SYNC_STOPPED] and the wait for those to be waited for. *)
Definition after_stop (s : Syncer) (e : PyExc) (w : World) : World :=
  let invs :=
    invocations (w_tasks w)
      (PKwargs [("error", VError (stop_error e));
                ("source", VSource SyncStream.INTERNAL)])
      (default [] (event_handlers s !! inr SYNC_STOPPED)) in
  MkWorld (w_trace w
             ++ (if is_Exception e
                 then [ELogException "Fatal error while syncing"] else [])
             ++ (ECreateTask <$> (fst <$> invs))
             ++ [EGather (waited invs)])
          (w_tasks w + length invs) (w_next_batch w) (w_time_reads w).

(** The invite with its [unsigned.invite_room_state] set to [l]. *)
Definition invite_with (l : list Stripped)
    (ev : Event Content Stripped Other) : Event Content Stripped Other :=
  MkEvent (ev_is_message ev) (ev_type ev) (ev_state_key ev) (ev_content ev)
          (Some (MkUnsigned (Some l))) (ev_source ev) (ev_other ev).

(** The stripped state events attached to an event, if any. *)
Definition attached_state (ev : Event Content Stripped Other)
  : option (list Stripped) :=
  match ev_unsigned ev with
  | Some u => invite_room_state u
  | None => None
  end.

(** Whatever [m] is run on and however it ends, its effects are task
    creations, and [P] holds of every task created. *)
Definition delivers {A} (P : Task -> Prop) (m : M A) : Prop :=
  forall w,
    exists tr : list Task,
      w_trace (fst (m w)) = w_trace w ++ (ECreateTask <$> tr)
      /\ Forall P tr.

(** The task hands an event to its handler, with the origin [src] and with
    the class of a state event if the event has a state key and the class
    [c] otherwise. *)
Definition delivered_as (src : SyncStream.t) (c : EventType.Class)
    (t : Task) : Prop :=
  exists e,
    task_data t = PEvent e
    /\ ev_source e = Some src
    /\ EventType.t_class (ev_type e)
       = match ev_state_key e with
         | Some _ => EventType.STATE
         | None => c
         end.

(** The task is one of the two internal invocations that open
    [handle_sync], or [P] holds of it. *)
Definition internal_or (P : Task -> Prop) (t : Task) : Prop :=
  match task_data t with
  | PDeviceOTKCount _ _ | PDeviceLists _ _ => True
  | _ => P t
  end.

End TryStart.

(** The exception with which an outcome ends the loop, if it does: a
    cancellation, an invalidated token, or the [TypeError] of the item
    assignment on a response that is no dict. *)
Definition fatal_error (resp : SyncResult) : option PyExc :=
  match resp with
  | Raised CancelledError => Some CancelledError
  | Raised MUnknownToken => Some MUnknownToken
  | Raised _ => None
  | Returned (JObj _) => None
  | Returned _ => Some TypeError
  end.

(** A raw event after [raw_event["room_id"] = room_id], for a raw event
    that is a dict. *)
Definition with_room_id (room_id : string) (raw_event : JSON) : JSON :=
  match raw_event with
  | JObj kvs => JObj (Dict.set "room_id" (JStr room_id) kvs)
  | _ => raw_event
  end.

(** A dict with one key. *)
Definition only (k : string) (v : JSON) : JSON := JObj [(k, v)].

(** A batch with one room [rid], of the membership [membership], that has
    the one section [section]. *)
Definition only_room (membership rid section : string) (sec : JSON) : JSON :=
  only "rooms" (only membership (only rid (only section sec))).

(** The origins with which [handle_sync] dispatches events, each with the
    class that an event without a state key gets there. *)
Definition dispatch_sites : list (SyncStream.t * EventType.Class) :=
  [(SyncStream.ACCOUNT_DATA, EventType.ACCOUNT_DATA);
   (SyncStream.EPHEMERAL, EventType.EPHEMERAL);
   (SyncStream.TO_DEVICE, EventType.TO_DEVICE);
   (Z.lor SyncStream.JOINED_ROOM SyncStream.STATE, EventType.MESSAGE);
   (Z.lor SyncStream.JOINED_ROOM SyncStream.TIMELINE, EventType.MESSAGE);
   (Z.lor SyncStream.INVITED_ROOM SyncStream.STATE, EventType.MESSAGE);
   (Z.lor SyncStream.LEFT_ROOM SyncStream.TIMELINE, EventType.MESSAGE)].

(** An outcome of a request after which the loop goes on: a JSON object, or
    a transient error. *)
Definition harmless (resp : SyncResult) : bool :=
  match resp with
  | Returned (JObj _) => true
  | Returned _ => false
  | Raised e => is_transient e
  end.

(** The cursor of the loop after an outcome. *)
Definition cursor_after (cursor : JSON) (resp : SyncResult) : JSON :=
  match resp with
  | Returned (JObj kvs) => default JNull (Dict.lookup "next_batch" kvs)
  | _ => cursor
  end.

(** The cursors of the successive requests of a run that starts with
    [cursor]. *)
Fixpoint cursors (cursor : JSON) (resps : list SyncResult) : list JSON :=
  match resps with
  | [] => []
  | resp :: r => cursor :: cursors (cursor_after cursor resp) r
  end.

(** The sleeps of a run, when [j] failures in a row came just before. *)
Fixpoint sleep_plan (j : nat) (resps : list SyncResult) : list Z :=
  match resps with
  | [] => []
  | Raised _ :: r => backoff j :: sleep_plan (S j) r
  | Returned _ :: r => sleep_plan 0 r
  end.

(** How many entries of a handler list are the entry [e]. *)
Definition count_entry (e : HandlerEntry) (l : list HandlerEntry) : nat :=
  length (filter (fun e' => e' = e) l).

(** The handler list that [remove_event_handler] works on. *)
Definition handlers_at (s : Syncer) (key : EvKey) : list HandlerEntry :=
  if decide (key = inl EventType.ALL) then global_event_handlers s
  else default [] (event_handlers s !! key).

(** The keys that [handle_sync] reads of a batch, and those that it reads
    of a joined room. *)
Definition sync_sections : list string :=
  ["device_one_time_keys_count"; "device_lists"; "account_data";
   "ephemeral"; "to_device"; "rooms"].

Definition joined_room_sections : list string := ["state"; "timeline"].

(** Two dicts hold the same under each of [keys]. *)
Definition agree_on (keys : list string) (kvs kvs' : list (string * JSON))
  : Prop :=
  Forall (fun k => Dict.lookup k kvs = Dict.lookup k kvs') keys.

(** ** Data of further examples *)

Module Scenario.

(** A run of three requests: a failure, an accepted batch, a failure. *)
Definition mixed_run : list SyncResult :=
  [Raised (OtherException "ClientConnectionError");
   Returned (JObj Demo.invite_batch);
   Raised (OtherException "ServerDisconnectedError")].

(** A batch with a cursor and nothing else. *)
Definition bare_batch : list (string * JSON) := [("next_batch", JStr "T4")].

(** A batch whose count of one-time keys is a list. *)
Definition odd_batch : list (string * JSON) :=
  [("next_batch", JStr "T5"); ("device_one_time_keys_count", JList [])].

(** An invited room whose invite state holds the name of the room before
    the membership event of the user. *)
Definition name_event : JSON :=
  JObj [("type", JStr "m.room.name"); ("state_key", JStr "");
        ("content", JObj [("name", JStr "Room")])].

Definition named_invite_room : JSON :=
  JObj [("invite_state",
         JObj [("events",
                JList [name_event; JObj (Demo.member_event Demo.user)])])].

(** The membership event of the user with an [unsigned] section, the room
    that invites with it, and what the codec makes of it. *)
Definition signed_member_event : list (string * JSON) :=
  Demo.member_event Demo.user ++ [("unsigned", JObj [])].

Definition signed_invite_room : JSON :=
  JObj [("invite_state", JObj [("events", JList [JObj signed_member_event])])].

Definition signed_named_invite_room : JSON :=
  JObj [("invite_state",
         JObj [("events", JList [name_event; JObj signed_member_event])])].

Definition signed_invite_event : Event JSON JSON JSON :=
  MkEvent false (EventType.Mk "m.room.member" EventType.UNKNOWN)
          (Some Demo.user)
          (JObj [("membership", JStr "invite")]) (Some (MkUnsigned None)) None
          (JObj (signed_member_event
                   ++ [("room_id", JStr "!r:x"); ("event_id", JNull);
                       ("origin_server_ts", JNum 1600000000000)])).

(** A joined room with one message, and the same room with a typing
    notice among its ephemeral events. *)
Definition quiet_room : list (string * JSON) :=
  [("timeline", JObj [("events", JList [Demo.text_message])])].

Definition typing_room : list (string * JSON) :=
  ("ephemeral",
   JObj [("events",
          JList [JObj [("type", JStr "m.typing");
                       ("content", JObj [("user_ids", JList [])])]])])
  :: quiet_room.

(** A dispatcher that registers one global handler. *)
Definition register_of (d : nat) (s : Syncer) : Syncer :=
  add_event_handler s (inl EventType.ALL) d true.

Definition unregister_of (d : nat) (s : Syncer) : Syncer :=
  remove_event_handler s (inl EventType.ALL) d.

End Scenario.

(** ** Basic facts *)

Module DictFacts.

Lemma lookup_set_eq {V} k (v : V) d : Dict.lookup k (Dict.set k v d) = Some v.
Proof.
  induction d as [|[k' v'] r IH]; simpl.
  - by rewrite String.eqb_refl.
  - destruct (String.eqb k' k) eqn:E; simpl; rewrite E; auto.
Qed.

Lemma lookup_set_ne {V} k k' (v : V) d :
  k <> k' -> Dict.lookup k' (Dict.set k v d) = Dict.lookup k' d.
Proof.
  intros Hne. induction d as [|[k0 v0] r IH]; simpl.
  - destruct (String.eqb k k') eqn:E; [|done].
    apply String.eqb_eq in E. congruence.
  - destruct (String.eqb k0 k) eqn:E; simpl.
    + apply String.eqb_eq in E. subst k0.
      destruct (String.eqb k k') eqn:E'; [|done].
      apply String.eqb_eq in E'. congruence.
    + by rewrite IH.
Qed.

Lemma lookup_setdefault_absent {V} k (v : V) d :
  Dict.lookup k d = None -> Dict.lookup k (Dict.setdefault k v d) = Some v.
Proof.
  intros H. unfold Dict.setdefault. rewrite H.
  induction d as [|[k' v'] r IH]; simpl in *.
  - by rewrite String.eqb_refl.
  - destruct (String.eqb k' k); [discriminate | by apply IH].
Qed.

Lemma lookup_app {V} k (d d' : list (string * V)) :
  Dict.lookup k (d ++ d')
  = match Dict.lookup k d with
    | Some v => Some v
    | None => Dict.lookup k d'
    end.
Proof.
  induction d as [|[k' v'] r IH]; simpl; [done|].
  by destruct (String.eqb k' k).
Qed.

End DictFacts.

Section Facts.

Context `{C : Codec}.

Lemma invocations_cons n data h wt r :
  invocations n data ((h, wt) :: r)
  = (MkTask n h data, wt) :: invocations (S n) data r.
Proof.
  unfold invocations. rewrite imap_cons. simpl. f_equal.
  - by rewrite Nat.add_0_r.
  - apply imap_ext. intros i x _. simpl. by rewrite Nat.add_succ_r.
Qed.

Lemma invocations_length n data hs :
  length (invocations n data hs) = length hs.
Proof. unfold invocations. apply length_imap. Qed.

Lemma invocations_data n data hs :
  Forall (fun t => task_data t = data) (fst <$> invocations n data hs).
Proof.
  revert n. induction hs as [|[h wt] r IH]; intros n.
  - constructor.
  - rewrite invocations_cons. simpl. constructor; [done | apply IH].
Qed.

Lemma after_invocations_nil w : after_invocations w [] = w.
Proof.
  destruct w. unfold after_invocations. simpl.
  by rewrite app_nil_r, Nat.add_0_r.
Qed.

(** The loop of [dispatch_manual_event] starts one task per entry, in the
    order of the entries, and returns those of the entries to wait for. *)
Lemma run_handlers_run force data hs w :
  run_handlers force data hs w
  = (after_invocations w (invocations (w_tasks w) data hs),
     Ok (fst <$> filter (fun inv => force || snd inv = true)
                        (invocations (w_tasks w) data hs))).
Proof.
  revert w. induction hs as [|[h wt] r IH]; intros w.
  - simpl. unfold ret. by rewrite after_invocations_nil.
  - simpl. unfold bind at 1. unfold create_task at 1. simpl.
    unfold bind at 1. rewrite IH. simpl. unfold ret.
    rewrite invocations_cons. f_equal.
    + unfold after_invocations. simpl. f_equal.
      * by rewrite <- app_assoc.
      * lia.
    + rewrite filter_cons. simpl.
      destruct (force || wt) eqn:E.
      * rewrite decide_True by done. done.
      * rewrite decide_False by (by intros ?). done.
Qed.

Lemma created_app tr tr' : created (tr ++ tr') = created tr ++ created tr'.
Proof. apply omap_app. Qed.

Lemma created_create_tasks l : created (ECreateTask <$> l) = l.
Proof. induction l as [|t l IH]; [done|]. simpl. by f_equal. Qed.

Lemma dispatch_manual_event_run s key data incl w :
  dispatch_manual_event s key data incl false w
  = let hs := (if incl then global_event_handlers s else [])
              ++ default [] (event_handlers s !! key) in
    let invs := invocations (w_tasks w) data hs in
    (after_invocations w invs, Ok (waited invs)).
Proof.
  unfold dispatch_manual_event. rewrite run_handlers_run.
  destruct incl; simpl; reflexivity.
Qed.

End Facts.

(** ** The handler registry *)

Lemma entries_for_cons key (r : Registration) regs :
  entries_for key (r :: regs)
  = if decide (fst (fst r) = key)
    then (snd (fst r), snd r) :: entries_for key regs
    else entries_for key regs.
Proof.
  unfold entries_for. rewrite filter_cons.
  destruct (decide (fst (fst r) = key)); reflexivity.
Qed.

Lemma add_event_handler_global s key h wt :
  global_event_handlers (add_event_handler s key h wt)
  = global_event_handlers s
    ++ (if decide (key = inl EventType.ALL) then [(h, wt)] else []).
Proof.
  unfold add_event_handler.
  destruct (decide (key = inl EventType.ALL)); simpl; [done|].
  by rewrite app_nil_r.
Qed.

Lemma add_event_handler_lookup s key h wt key' :
  key' <> inl EventType.ALL ->
  default [] (event_handlers (add_event_handler s key h wt) !! key')
  = default [] (event_handlers s !! key')
    ++ (if decide (key = key') then [(h, wt)] else []).
Proof.
  intros Hne. unfold add_event_handler.
  destruct (decide (key = inl EventType.ALL)) as [->|Hk]; simpl.
  - rewrite decide_False by congruence. by rewrite app_nil_r.
  - destruct (decide (key = key')) as [->|Hkk].
    + by rewrite lookup_insert_eq.
    + rewrite lookup_insert_ne by done. by rewrite app_nil_r.
Qed.

(** Registrations append: the global list and every list of
    [event_handlers] hold their entries in the order of registration. *)
Lemma register_global regs s :
  global_event_handlers (register regs s)
  = global_event_handlers s ++ entries_for (inl EventType.ALL) regs.
Proof.
  revert s. induction regs as [|[[k h] wt] regs IH]; intros s.
  - simpl. by rewrite app_nil_r.
  - unfold register in *. simpl. rewrite IH, add_event_handler_global.
    rewrite entries_for_cons. simpl.
    destruct (decide (k = inl EventType.ALL)); simpl.
    + by rewrite <- app_assoc.
    + by rewrite app_nil_r.
Qed.

Lemma register_lookup regs s key :
  key <> inl EventType.ALL ->
  default [] (event_handlers (register regs s) !! key)
  = default [] (event_handlers s !! key) ++ entries_for key regs.
Proof.
  intros Hne. revert s. induction regs as [|[[k h] wt] regs IH]; intros s.
  - simpl. by rewrite app_nil_r.
  - unfold register in *. simpl.
    rewrite IH, add_event_handler_lookup by done.
    rewrite entries_for_cons. simpl.
    destruct (decide (k = key)); simpl.
    + by rewrite <- app_assoc.
    + by rewrite app_nil_r.
Qed.

Section Dispatch.

Context `{C : Codec}.

Lemma prepared_type_not_ALL (ev : Event Content Stripped Other) src :
  ev_type (prepared ev src) <> EventType.ALL.
Proof.
  unfold prepared, resolved_class, EventType.with_class, EventType.ALL.
  simpl. intros H. injection H as _ H.
  destruct (ev_state_key ev); [done|].
  repeat match type of H with
         | context [SyncStream.has ?a ?b] => destruct (SyncStream.has a b)
         end; done.
Qed.

(** C7. For every dispatch of an event to the handlers registered by the
    calls [regs]: one invocation is started per entry registered under the
    wildcard and per entry registered under the resolved type of the event,
    the global ones first, each group in the order of registration, all of
    them on the prepared event; the tasks returned are exactly the
    invocations of the entries whose wait flag is set. *)
Theorem dispatch_event_order_and_waiting
    (user : string) (regs : list Registration)
    (ev : Event Content Stripped Other) (src : SyncStream.t) (w : World) :
  let s := register regs (init user) in
  let ev' := prepared ev src in
  let handlers :=
    entries_for (inl EventType.ALL) regs
    ++ entries_for (inl (ev_type ev')) regs in
  let invs := invocations (w_tasks w) (PEvent ev') handlers in
  dispatch_event s ev src w = (after_invocations w invs, Ok (waited invs))
  /\ created (w_trace (after_invocations w invs))
     = created (w_trace w) ++ (fst <$> invs)
  /\ (forall t, t ∈ waited invs <-> (t, true) ∈ invs).
Proof.
  intros s ev' handlers invs. split; [|split].
  - unfold dispatch_event. fold ev'. rewrite dispatch_manual_event_run.
    simpl. subst s. rewrite register_global, register_lookup.
    + simpl. rewrite lookup_empty. reflexivity.
    + intros H. apply (prepared_type_not_ALL ev src).
      simpl. congruence.
  - unfold after_invocations. simpl.
    by rewrite created_app, created_create_tasks.
  - intros t. unfold waited. rewrite list_elem_of_fmap. split.
    + intros [[t' b] [-> Hin]]. apply list_elem_of_filter in Hin as [Hb Hin].
      simpl in *. by subst b.
    + intros Hin. exists (t, true). split; [done|].
      apply list_elem_of_filter. by split.
Qed.

End Dispatch.

Section Removal.

Context `{C : Codec}.

(** C2 (the code departs from the claim). A handler registered with
    [wait_sync=False] only, the default, is not removed: the search for
    [(handler, True)] raises [ValueError], which ends the [try] block before
    [(handler, False)] is looked for. The registry is unchanged and a later
    dispatch still invokes the handler once. *)
Theorem remove_event_handler_keeps_unwaited_handler
    (user : string) (handler : Handler)
    (ev : Event Content Stripped Other) (src : SyncStream.t) (w : World) :
  let ev' := prepared ev src in
  let key : EvKey := inl (ev_type ev') in
  let s := add_event_handler (init user) key handler false in
  let s' := remove_event_handler s key handler in
  s' = s
  /\ remove_event_handler
       (add_event_handler (init user) (inl EventType.ALL) handler false)
       (inl EventType.ALL) handler
     = add_event_handler (init user) (inl EventType.ALL) handler false
  /\ dispatch_event s' ev src w
     = (after_invocations w [(MkTask (w_tasks w) handler (PEvent ev'), false)],
        Ok [])
  /\ invocations_of handler
       (created (w_trace (fst (dispatch_event s' ev src w))))
     = S (invocations_of handler (created (w_trace w))).
Proof.
  intros ev' key s s'.
  assert (Hkey : key <> inl EventType.ALL).
  { intros H. apply (prepared_type_not_ALL ev src). subst key ev'.
    simpl in *. congruence. }
  assert (Hs : s' = s).
  { subst s' s. unfold remove_event_handler, add_event_handler.
    destruct (decide (key = inl EventType.ALL)); [done|]. simpl.
    rewrite lookup_insert_eq, lookup_empty. simpl.
    destruct (decide ((handler, false) = (handler, true))); [|done].
    congruence. }
  assert (Hrun : dispatch_event s' ev src w
    = (after_invocations w [(MkTask (w_tasks w) handler (PEvent ev'), false)],
       Ok [])).
  { rewrite Hs. unfold dispatch_event. fold ev'.
    rewrite dispatch_manual_event_run. simpl.
    subst s. unfold add_event_handler. fold key.
    destruct (decide (key = inl EventType.ALL)); [done|]. simpl.
    rewrite lookup_insert_eq, lookup_empty. simpl.
    rewrite invocations_cons. unfold invocations. simpl.
    unfold waited. rewrite filter_cons. simpl.
    destruct (decide (false = true)); done. }
  split; [done|]. split; [|split; [done|]].
  - unfold remove_event_handler, add_event_handler.
    case_decide; [|done]. simpl.
    destruct (decide ((handler, false) = (handler, true))); [|done].
    congruence.
  - rewrite Hrun. unfold after_invocations. simpl.
    rewrite created_app. simpl. unfold invocations_of.
    rewrite filter_app, length_app. simpl.
    rewrite filter_cons. simpl.
    destruct (decide (handler = handler)); [|done]. simpl. lia.
Qed.

End Removal.

Section Classes.

Context `{C : Codec}.

(** C8 (as amended). For every event passed to [dispatch_event], the class
    of the delivered type is: state if the event has a state key, else
    ephemeral, account-data or to-device after the first of these bits set
    in the stream origin, else message. The reply fallback is trimmed from
    the content exactly when the event is a [MessageEvent], whatever class
    it resolves to, and the content of any other event is delivered as it
    is. Every invocation started by the dispatch is handed the event so
    prepared, with the stream origin attached. *)
Theorem dispatch_event_class_and_trimming
    (s : Syncer) (ev : Event Content Stripped Other) (src : SyncStream.t)
    (w : World) :
  let ev' := prepared ev src in
  EventType.name (ev_type ev') = EventType.name (ev_type ev)
  /\ EventType.t_class (ev_type ev')
     = match ev_state_key ev with
       | Some _ => EventType.STATE
       | None =>
           if negb (Z.land src SyncStream.EPHEMERAL =? 0)
           then EventType.EPHEMERAL
           else if negb (Z.land src SyncStream.ACCOUNT_DATA =? 0)
           then EventType.ACCOUNT_DATA
           else if negb (Z.land src SyncStream.TO_DEVICE =? 0)
           then EventType.TO_DEVICE
           else EventType.MESSAGE
       end
  /\ ev_content ev'
     = (if ev_is_message ev
        then trim_reply_fallback (ev_content ev) else ev_content ev)
  /\ ev_source ev' = Some src
  /\ exists new,
       created (w_trace (fst (dispatch_event s ev src w)))
       = created (w_trace w) ++ new
       /\ Forall (fun t => task_data t = PEvent ev') new.
Proof.
  intros ev'. split; [done|]. split; [|split; [done|split; [done|]]].
  - unfold ev', prepared, resolved_class, SyncStream.has. simpl.
    destruct (ev_state_key ev); reflexivity.
  - unfold dispatch_event. fold ev'. rewrite dispatch_manual_event_run.
    simpl. eexists. split.
    + rewrite created_app, created_create_tasks. reflexivity.
    + apply invocations_data.
Qed.

End Classes.

(** ** Effects of the classifier: what every part of it preserves *)

Section Tame.

Context `{C : Codec}.

Lemma extends_by_refl w : extends_by w [] w.
Proof. split; [by rewrite app_nil_r | done]. Qed.

Lemma extends_by_trans w1 w2 w3 tr tr' :
  extends_by w1 tr w2 -> extends_by w2 tr' w3 -> extends_by w1 (tr ++ tr') w3.
Proof.
  intros [H1 H1'] [H2 H2']. split.
  - by rewrite H2, H1, app_assoc.
  - congruence.
Qed.

Lemma mild_py_get x k d : mild (py_get x k d).
Proof. intros e. destruct x; simpl; intros [= <-]; done. Qed.

Lemma mild_py_setitem x k v : mild (py_setitem x k v).
Proof. intros e. destruct x; simpl; intros [= <-]; done. Qed.

Lemma mild_py_setdefault x k v : mild (py_setdefault x k v).
Proof. intros e. destruct x; simpl; intros [= <-]; done. Qed.

Lemma mild_py_items x : mild (py_items x).
Proof. intros e. destruct x; simpl; intros [= <-]; done. Qed.

Lemma mild_py_iter x : mild (py_iter x).
Proof. intros e. destruct x; simpl; intros [= <-]; done. Qed.

Lemma mild_py_contains k x : mild (py_contains k x).
Proof. intros e. destruct x; simpl; intros [= <-]; done. Qed.

Lemma mild_section_events x k : mild (section_events x k).
Proof.
  intros e. unfold section_events.
  destruct (py_get x k (JObj [])) as [sec|e1] eqn:E1.
  - destruct (py_get sec "events" (JList [])) as [evs|e2] eqn:E2.
    + apply mild_py_iter.
    + intros [= <-]. by apply mild_py_get in E2.
  - intros [= <-]. by apply mild_py_get in E1.
Qed.

Lemma mild_room_items x k : mild (room_items x k).
Proof.
  intros e. unfold room_items.
  destruct (py_get x k (JObj [])) as [rs|e1] eqn:E1.
  - apply mild_py_items.
  - intros [= <-]. by apply mild_py_get in E1.
Qed.

Lemma mild_is_invite_of user x : mild (is_invite_of user x).
Proof. intros e. destruct x; simpl; intros [= <-]; done. Qed.

Lemma mild_find_invite user evs : mild (find_invite user evs).
Proof.
  induction evs as [|x r IH]; intros e; simpl.
  - by intros [= <-].
  - destruct (is_invite_of user x) as [[|]|e1] eqn:E1.
    + done.
    + destruct (find_invite user r) as [[[pre inv] post]|e2] eqn:E2.
      * done.
      * intros [= <-]. by apply IH.
    + intros [= <-]. by apply mild_is_invite_of in E1.
Qed.

Lemma mild_set_invite_room_state l ev : mild (set_invite_room_state l ev).
Proof.
  intros e. unfold set_invite_room_state.
  destruct (ev_unsigned ev); by intros [= <-].
Qed.

Lemma tame_ret {A} (a : A) : tame (ret a).
Proof.
  intros w. split; [exists []; apply extends_by_refl | done].
Qed.

Lemma tame_lift {A} (r : PyResult A) : mild r -> tame (lift r).
Proof.
  intros Hr w. split; [exists []; apply extends_by_refl | apply Hr].
Qed.

Lemma tame_decoded {A} (r : option A) : tame (decoded r).
Proof. apply tame_lift. intros e. destruct r; by intros [= <-]. Qed.

Lemma tame_emit e : (forall c, e <> EPutNextBatch c) -> tame (emit e).
Proof. intros _ w. split; [by exists [e] | done]. Qed.

Lemma tame_create_task h data : tame (create_task h data).
Proof. intros w. split; [by eexists [_] | done]. Qed.

Lemma tame_read_time : tame read_time.
Proof.
  intros w. split; [exists []; split; simpl; by rewrite ?app_nil_r | done].
Qed.

Lemma tame_bind {A B} (m : M A) (f : A -> M B) :
  tame m -> (forall a, tame (f a)) -> tame (bind m f).
Proof.
  intros Hm Hf w. unfold bind.
  destruct (Hm w) as [[tr Htr] He].
  destruct (m w) as [w1 [a|e]]; simpl in *.
  - destruct (Hf a w1) as [[tr' Htr'] He'].
    split; [|exact He']. exists (tr ++ tr'). by eapply extends_by_trans.
  - split; [by exists tr|]. intros e' [= <-]. by apply He.
Qed.

Lemma tame_try_except {A} (m : M A) (h : PyExc -> M A) :
  tame m -> (forall e, tame (h e)) -> tame (try_except m h).
Proof.
  intros Hm Hh w. unfold try_except.
  destruct (Hm w) as [[tr Htr] He].
  destruct (m w) as [w1 [a|e]]; simpl in *.
  - split; [by exists tr | done].
  - rewrite (He e eq_refl).
    destruct (Hh e w1) as [[tr' Htr'] He'].
    split; [|exact He']. exists (tr ++ tr'). by eapply extends_by_trans.
Qed.

Lemma tame_for_tasks {A} (body : A -> M (list Task)) l :
  (forall x, tame (body x)) -> tame (for_tasks body l).
Proof.
  intros Hb. induction l as [|x r IH]; simpl.
  - apply tame_ret.
  - apply tame_bind; [done|]. intros ts.
    apply tame_bind; [done|]. intros ts'. apply tame_ret.
Qed.

Lemma tame_for_each {A B} (body : A -> M B) l :
  (forall x, tame (body x)) -> tame (for_each body l).
Proof.
  intros Hb. induction l as [|x r IH]; simpl.
  - apply tame_ret.
  - apply tame_bind; [done|]. intros y.
    apply tame_bind; [done|]. intros ys. apply tame_ret.
Qed.

Lemma tame_run_handlers force data hs : tame (run_handlers force data hs).
Proof.
  induction hs as [|[h wt] r IH]; simpl.
  - apply tame_ret.
  - apply tame_bind; [apply tame_create_task|]. intros t.
    apply tame_bind; [done|]. intros ts. apply tame_ret.
Qed.

Lemma tame_dispatch_manual_event s key data incl force :
  tame (dispatch_manual_event s key data incl force).
Proof. apply tame_run_handlers. Qed.

Lemma tame_dispatch_event s ev src : tame (dispatch_event s ev src).
Proof. apply tame_dispatch_manual_event. Qed.

Lemma tame_dispatch_internal_event s it custom kwargs :
  tame (dispatch_internal_event s it custom kwargs).
Proof. apply tame_dispatch_manual_event. Qed.

End Tame.

Create HintDb tame.

#[export] Hint Resolve
  mild_py_get mild_py_setitem mild_py_setdefault mild_py_items mild_py_iter
  mild_py_contains mild_section_events mild_room_items mild_find_invite
  mild_set_invite_room_state
  tame_ret tame_lift tame_decoded tame_create_task tame_read_time
  tame_run_handlers tame_dispatch_manual_event tame_dispatch_event
  tame_dispatch_internal_event : tame.

(** Decomposes a goal [tame m] along the structure of [m]. *)
Ltac tame_step :=
  match goal with
  | |- tame (bind _ _) => apply tame_bind; [|intros ?]
  | |- tame (for_tasks _ _) => apply tame_for_tasks; intros ?
  | |- tame (for_each _ _) => apply tame_for_each; intros ?
  | |- tame (try_except _ _) => apply tame_try_except; [|intros ?]
  | |- tame (emit _) => apply tame_emit; intros ?; discriminate
  | |- tame (gather _) => apply tame_emit; intros ?; discriminate
  | |- tame (let (_, _) := ?p in _) => destruct p
  | |- tame (match ?p with _ => _ end) => destruct p
  | |- tame _ => solve [eauto with tame]
  end.

Ltac tame_solve := repeat tame_step.

Section TameClassifier.

Context `{C : Codec}.

Lemma tame_handle_plain_event s d src raw :
  tame (handle_plain_event s d src raw).
Proof. unfold handle_plain_event. tame_solve. Qed.

Lemma tame_handle_room_event s d src rid raw :
  tame (handle_room_event s d src rid raw).
Proof. unfold handle_room_event. tame_solve. Qed.

Lemma tame_handle_joined_room s room : tame (handle_joined_room s room).
Proof.
  unfold handle_joined_room. destruct room.
  tame_solve; apply tame_handle_room_event.
Qed.

Lemma tame_handle_invited_room s room : tame (handle_invited_room s room).
Proof. unfold handle_invited_room. destruct room. tame_solve. Qed.

Lemma tame_handle_left_event s rid raw : tame (handle_left_event s rid raw).
Proof.
  unfold handle_left_event. tame_solve. apply tame_handle_room_event.
Qed.

Lemma tame_handle_left_room s room : tame (handle_left_room s room).
Proof.
  unfold handle_left_room. destruct room.
  tame_solve. apply tame_handle_left_event.
Qed.

Lemma tame_handle_otk_count s data : tame (handle_otk_count s data).
Proof. unfold handle_otk_count. tame_solve. Qed.

Lemma tame_handle_device_lists s data : tame (handle_device_lists s data).
Proof. unfold handle_device_lists. tame_solve. Qed.

Lemma tame_handle_top_level s data : tame (handle_top_level s data).
Proof.
  unfold handle_top_level. tame_solve; apply tame_handle_plain_event.
Qed.

Lemma tame_handle_rooms s data : tame (handle_rooms s data).
Proof.
  unfold handle_rooms.
  tame_solve;
    first [apply tame_handle_joined_room | apply tame_handle_invited_room
          | apply tame_handle_left_room].
Qed.

Lemma tame_handle_sync s data : tame (handle_sync s data).
Proof.
  unfold handle_sync.
  tame_solve;
    first [apply tame_handle_otk_count | apply tame_handle_device_lists
          | apply tame_handle_top_level | apply tame_handle_rooms].
Qed.

Lemma tame_run_internal_event s it custom kwargs :
  tame (run_internal_event s it custom kwargs).
Proof. unfold run_internal_event. tame_solve. Qed.

End TameClassifier.

(** ** The polling loop *)

Section Loop.

Context `{C : Codec}.

(** One turn of the loop on an accepted batch: the cursor is written and
    the sync-successful event emitted, then the batch is classified unless
    it is suppressed. *)
Lemma sync_iteration_returned s st kvs w :
  let cursor := default JNull (Dict.lookup "next_batch" kvs) in
  sync_iteration s st (Returned (JObj kvs)) w
  = if suppressed s st
    then (after_accept s st kvs w, Ok (MkLoop 5 false cursor))
    else (classify s (augmented st kvs) ;; ret (MkLoop 5 false cursor))
           (after_accept s st kvs w).
Proof.
  intros cursor. unfold sync_iteration.
  unfold bind at 1. unfold emit at 1. simpl.
  unfold bind at 1. unfold lift at 1. simpl.
  unfold bind at 1. unfold lift at 1. simpl.
  rewrite DictFacts.lookup_set_ne by done. fold cursor.
  unfold bind at 1. unfold put_next_batch at 1. simpl.
  unfold bind at 1. unfold run_internal_event.
  unfold bind at 1. rewrite dispatch_manual_event_run. simpl.
  unfold gather, emit. simpl.
  assert (Hw : forall invs,
    MkWorld
      ((((w_trace w ++ [ESync (next_batch st)]) ++ [EPutNextBatch cursor])
          ++ (ECreateTask <$> (fst <$> invs))) ++ [EGather (waited invs)])
      (w_tasks w + length invs) cursor (w_time_reads w)
    = MkWorld
        (w_trace w ++ [ESync (next_batch st); EPutNextBatch cursor]
           ++ (ECreateTask <$> (fst <$> invs)) ++ [EGather (waited invs)])
        (w_tasks w + length invs) cursor (w_time_reads w)).
  { intros invs. f_equal. by rewrite <- !app_assoc. }
  unfold internal_payload. simpl. rewrite Hw.
  unfold suppressed, after_accept, sync_successful_payload, augmented.
  fold cursor.
  destruct ((ignore_first_sync s && is_first st)
            || (ignore_initial_sync s && negb (py_truthy (next_batch st))));
    reflexivity.
Qed.


(** The classification step adds effects only and never raises: an error
    of [handle_sync] is caught and logged. *)
Lemma classify_run s data w :
  exists tr, extends_by w tr (fst (classify s data w))
             /\ snd (classify s data w) = Ok tt.
Proof.
  assert (Ht : tame (tasks <- handle_sync s data ;; gather tasks)).
  { apply tame_bind; [apply tame_handle_sync|]. intros ts.
    apply tame_emit. intros ?. discriminate. }
  unfold classify, try_except.
  destruct (Ht w) as [[tr Htr] He].
  destruct ((tasks <- handle_sync s data ;; gather tasks) w)
    as [w1 [[]|e]]; simpl in *.
  - by exists tr.
  - rewrite (He e eq_refl). unfold emit. simpl.
    exists (tr ++ [ELogException "Sync handling errored"]). split; [|done].
    destruct Htr as [Htr Hnb]. split; simpl; [|done].
    by rewrite Htr, app_assoc.
Qed.

(** One turn of the loop on a request that failed with a transient
    error. *)
Lemma sync_iteration_raised s st e w :
  is_transient e = true ->
  sync_iteration s st (Raised e) w
  = (after_failure s st e w,
     Ok (MkLoop (if fail_sleep st <? 320
                 then fail_sleep st * 2 else fail_sleep st)
                (is_first st) (next_batch st))).
Proof.
  intros He. unfold sync_iteration.
  unfold bind at 1. unfold emit at 1. simpl.
  destruct e; try discriminate He;
    (unfold bind at 1; unfold emit at 1; simpl;
     unfold bind at 1; unfold run_internal_event;
     unfold bind at 1; rewrite dispatch_manual_event_run; simpl;
     unfold gather, emit, bind, ret; simpl;
     unfold after_failure, internal_payload; simpl;
     f_equal; f_equal; by rewrite <- !app_assoc).
Qed.

(** A turn on an accepted batch completes and leaves the new cursor in the
    store. *)
Lemma accepted_turn_completes s st kvs w :
  exists w',
    sync_iteration s st (Returned (JObj kvs)) w
    = (w', Ok (MkLoop 5 false (default JNull (Dict.lookup "next_batch" kvs))))
    /\ w_next_batch w' = default JNull (Dict.lookup "next_batch" kvs).
Proof.
  rewrite sync_iteration_returned.
  destruct (suppressed s st).
  - eexists. split; reflexivity.
  - destruct (classify_run s (augmented st kvs) (after_accept s st kvs w))
      as (tr & [Htr Hnb] & Hok).
    unfold bind.
    destruct (classify s (augmented st kvs) (after_accept s st kvs w))
      as [w1 r]. simpl in *. subst r. unfold ret.
    eexists. split; [reflexivity|]. by rewrite Hnb.
Qed.

(** C1. For every sync response accepted by the loop, whatever the
    suppression flags and whatever the outcome of the classification of the
    batch: the turn of the loop completes, its effects after the request
    begin with the write of the new cursor ([next_batch] of the response) to
    the store, every task of the turn is started after that write, and the
    store holds the new cursor when the turn ends. *)
Theorem cursor_persisted_before_handlers
    (s : Syncer) (st : LoopState) (kvs : list (string * JSON)) (w : World) :
  let cursor := default JNull (Dict.lookup "next_batch" kvs) in
  exists w' tr,
    sync_iteration s st (Returned (JObj kvs)) w
    = (w', Ok (MkLoop 5 false cursor))
    /\ w_trace w'
       = w_trace w ++ [ESync (next_batch st); EPutNextBatch cursor] ++ tr
    /\ created (w_trace w') = created (w_trace w) ++ created tr
    /\ w_next_batch w' = cursor.
Proof.
  intros cursor. rewrite sync_iteration_returned. fold cursor.
  assert (Hc : forall w' tr,
    w_trace w'
    = w_trace w ++ [ESync (next_batch st); EPutNextBatch cursor] ++ tr ->
    created (w_trace w') = created (w_trace w) ++ created tr).
  { intros w' tr ->. by rewrite !created_app. }
  destruct (suppressed s st).
  - eexists _, _. split; [reflexivity|].
    split; [|split]; [| |done].
    + unfold after_accept. simpl. reflexivity.
    + apply Hc. reflexivity.
  - destruct (classify_run s (augmented st kvs) (after_accept s st kvs w))
      as (tr & [Htr Hnb] & Hok).
    unfold bind.
    destruct (classify s (augmented st kvs) (after_accept s st kvs w))
      as [w1 r]. simpl in *. subst r. unfold ret.
    eexists _, _. split; [reflexivity|].
    assert (Ht : w_trace w1
      = w_trace w ++ [ESync (next_batch st); EPutNextBatch cursor]
        ++ ((ECreateTask <$> (fst <$> invocations (w_tasks w)
               (sync_successful_payload st kvs)
               (default [] (event_handlers s !! inr SYNC_SUCCESSFUL))))
            ++ [EGather (waited (invocations (w_tasks w)
               (sync_successful_payload st kvs)
               (default [] (event_handlers s !! inr SYNC_SUCCESSFUL))))]
            ++ tr)).
    { rewrite Htr. simpl. rewrite <- !app_assoc. simpl.
      by rewrite <- !app_assoc. }
    split; [exact Ht|]. split; [by apply Hc|]. by rewrite Hnb.
Qed.


(** C6. When the turn is the first successful one and [ignore_first_sync]
    is set, or the cursor of the request was empty and [ignore_initial_sync]
    is set: the sync-successful event is emitted to its handlers, the store
    receives [next_batch] of the response, nothing else happens in the turn
    (no task is handed an event of the batch) and the loop goes on to the
    next request with the new cursor. *)
Theorem suppressed_batch_is_skipped
    (s : Syncer) (st : LoopState) (kvs : list (string * JSON)) (w : World) :
  (ignore_first_sync s = true /\ is_first st = true)
  \/ (ignore_initial_sync s = true /\ py_truthy (next_batch st) = false) ->
  let cursor := default JNull (Dict.lookup "next_batch" kvs) in
  let invs :=
    invocations (w_tasks w) (sync_successful_payload st kvs)
      (default [] (event_handlers s !! inr SYNC_SUCCESSFUL)) in
  let w' :=
    MkWorld (w_trace w
               ++ [ESync (next_batch st); EPutNextBatch cursor]
               ++ (ECreateTask <$> (fst <$> invs))
               ++ [EGather (waited invs)])
            (w_tasks w + length invs) cursor (w_time_reads w) in
  sync_iteration s st (Returned (JObj kvs)) w
  = (w', Ok (MkLoop 5 false cursor))
  /\ created (w_trace w') = created (w_trace w) ++ (fst <$> invs)
  /\ Forall (fun t => forall ev, task_data t <> PEvent ev) (fst <$> invs).
Proof.
  intros Hs cursor invs w'.
  assert (Hsup : suppressed s st = true).
  { unfold suppressed. destruct Hs as [[-> ->]|[-> ->]]; simpl; [done|].
    by rewrite orb_true_r. }
  split; [|split].
  - rewrite sync_iteration_returned, Hsup. reflexivity.
  - unfold w'. cbn [w_trace].
    rewrite !created_app, created_create_tasks. simpl.
    by rewrite app_nil_r.
  - eapply Forall_impl; [apply invocations_data|].
    intros t Ht ev. rewrite Ht. discriminate.
Qed.

Lemma sync_loop_app s l1 l2 st w :
  sync_loop s (l1 ++ l2) st w
  = (st' <- sync_loop s l1 st ;; sync_loop s l2 st') w.
Proof.
  revert st w. induction l1 as [|r l1 IH]; intros st w; simpl.
  - reflexivity.
  - unfold bind in *.
    destruct (sync_iteration s st r w) as [w1 [st1|e]]; [|done].
    apply IH.
Qed.

(** A turn that completes leaves [is_first] set only if it was set and the
    request failed. *)
Lemma sync_iteration_is_first s st resp w w' st' :
  sync_iteration s st resp w = (w', Ok st') ->
  is_first st' = is_first st && is_raised resp.
Proof.
  destruct resp as [data|e].
  - destruct data; try (unfold sync_iteration, bind, emit, lift; simpl;
                        discriminate).
    rewrite sync_iteration_returned.
    destruct (suppressed s st).
    + intros [= <- <-]. simpl. by rewrite andb_false_r.
    + unfold bind.
      destruct (classify s (augmented st kvs) (after_accept s st kvs w))
        as [w1 [[]|e]]; [|done].
      unfold ret. intros [= <- <-]. simpl. by rewrite andb_false_r.
  - destruct (is_transient e) eqn:He.
    + rewrite sync_iteration_raised by done. intros [= <- <-]. simpl.
      by rewrite andb_true_r.
    + destruct e; try discriminate He;
        unfold sync_iteration, bind, emit, raise; simpl; discriminate.
Qed.

Lemma sync_loop_is_first s resps st w w' st' :
  sync_loop s resps st w = (w', Ok st') ->
  is_first st' = is_first st && forallb is_raised resps.
Proof.
  revert st w. induction resps as [|r resps IH]; intros st w; simpl.
  - unfold ret. intros [= <- <-]. by rewrite andb_true_r.
  - unfold bind.
    destruct (sync_iteration s st r w) as [w1 [st1|e]] eqn:E; [|done].
    intros H. apply IH in H. rewrite H.
    rewrite (sync_iteration_is_first _ _ _ _ _ _ E).
    by rewrite andb_assoc.
Qed.

(** C10. In a run of [_start] that has gone through the outcomes [resps]
    and then receives the batch [kvs]: the handlers of the sync-successful
    event are invoked, after the write of the cursor, with the keyword
    argument [data] holding the batch with one entry added under
    ["net.maunium.mautrix"], namely [is_initial], true when the cursor of the
    request was empty, and [is_first], true when no request of the run had
    succeeded before; the other entries of the batch are as received. *)
Theorem sync_successful_carries_metadata
    (s : Syncer) (resps : list SyncResult) (kvs : list (string * JSON))
    (w w1 : World) (st1 : LoopState) :
  _start s resps w = (w1, Ok st1) ->
  let data := augmented st1 kvs in
  let cursor := default JNull (Dict.lookup "next_batch" kvs) in
  let invs :=
    invocations (w_tasks w1)
      (PKwargs [("data", VJSON data); ("source", VSource SyncStream.INTERNAL)])
      (default [] (event_handlers s !! inr SYNC_SUCCESSFUL)) in
  (exists w' tr,
     _start s (resps ++ [Returned (JObj kvs)]) w
     = (w', Ok (MkLoop 5 false cursor))
     /\ w_trace w'
        = w_trace w1
          ++ [ESync (next_batch st1); EPutNextBatch cursor]
          ++ (ECreateTask <$> (fst <$> invs))
          ++ [EGather (waited invs)] ++ tr)
  /\ py_get data "net.maunium.mautrix" JNull
     = Ok (JObj [("is_initial", JBool (negb (py_truthy (next_batch st1))));
                 ("is_first", JBool (forallb is_raised resps))])
  /\ (forall k, k <> "net.maunium.mautrix" ->
       py_get data k JNull = py_get (JObj kvs) k JNull).
Proof.
  intros Hrun data cursor invs.
  assert (Hfirst : is_first st1 = forallb is_raised resps).
  { unfold _start, bind in Hrun. simpl in Hrun.
    destruct (run_internal_event s SYNC_STARTED None [] w)
      as [w0 [[]|e]]; [|done].
    by apply sync_loop_is_first in Hrun. }
  split; [|split].
  - unfold _start in *. unfold bind in *. simpl in *.
    destruct (run_internal_event s SYNC_STARTED None [] w)
      as [w0 [[]|e]]; [|done].
    rewrite sync_loop_app. unfold bind. rewrite Hrun. simpl.
    unfold bind at 1. rewrite sync_iteration_returned. fold cursor.
    destruct (suppressed s st1).
    + unfold ret. exists (after_accept s st1 kvs w1), [].
      split; [done|]. unfold after_accept. simpl.
      by rewrite ?app_nil_r.
    + destruct (classify_run s (augmented st1 kvs) (after_accept s st1 kvs w1))
        as (tr & [Htr Hnb] & Hok).
      unfold bind.
      destruct (classify s (augmented st1 kvs) (after_accept s st1 kvs w1))
        as [w2 r]. simpl in *. subst r. unfold ret.
      exists w2, tr. split; [done|].
      rewrite Htr. rewrite <- !app_assoc. simpl.
      by rewrite <- !app_assoc.
  - unfold data, augmented. simpl.
    rewrite DictFacts.lookup_set_eq. simpl. unfold sync_metadata.
    by rewrite Hfirst.
  - intros k Hk. unfold data, augmented. simpl.
    by rewrite DictFacts.lookup_set_ne.
Qed.


Lemma backoff_pow_small (j : nat) : (j < 6)%nat -> 5 * 2 ^ Z.of_nat j <= 160.
Proof.
  intros H. do 6 (destruct j as [|j]; [by vm_compute|]). lia.
Qed.

Lemma backoff_pow_large (j : nat) : (6 <= j)%nat -> 320 <= 5 * 2 ^ Z.of_nat j.
Proof.
  intros H. replace j with (6 + (j - 6))%nat by lia.
  rewrite Nat2Z.inj_add, Z.pow_add_r by lia.
  assert (0 < 2 ^ Z.of_nat (j - 6)) by (apply Z.pow_pos_nonneg; lia).
  change (2 ^ Z.of_nat 6) with 64. lia.
Qed.

(** The update of [fail_sleep] after a failure goes from one term of the
    sequence to the next. *)
Lemma backoff_step (j : nat) :
  (if backoff j <? 320 then backoff j * 2 else backoff j) = backoff (S j).
Proof.
  unfold backoff. rewrite Nat2Z.inj_succ, Z.pow_succ_r by lia.
  destruct (le_lt_dec 6 j) as [Hj|Hj].
  - pose proof (backoff_pow_large j Hj).
    rewrite (Z.min_r (5 * 2 ^ Z.of_nat j)) by lia.
    rewrite Z.min_r by lia. reflexivity.
  - pose proof (backoff_pow_small j Hj).
    rewrite (Z.min_l (5 * 2 ^ Z.of_nat j)) by lia.
    destruct (5 * 2 ^ Z.of_nat j <? 320) eqn:E; [|apply Z.ltb_ge in E; lia].
    rewrite Z.min_l by lia. lia.
Qed.

Lemma sleeps_create_tasks l : sleeps (ECreateTask <$> l) = [].
Proof. induction l; [done|]. simpl. done. Qed.

Lemma requests_create_tasks l : requests (ECreateTask <$> l) = [].
Proof. induction l; [done|]. simpl. done. Qed.

Lemma after_failure_extends s st e w :
  exists tr,
    extends_by w tr (after_failure s st e w)
    /\ sleeps tr = [fail_sleep st]
    /\ requests tr = [next_batch st].
Proof.
  eexists. split; [split; reflexivity|].
  split.
  - unfold sleeps. rewrite !omap_app.
    fold (sleeps (ECreateTask <$> (fst <$> invocations (w_tasks w)
        (PKwargs [("error", VError (Some e));
                  ("sleep_for", VInt (fail_sleep st));
                  ("source", VSource SyncStream.INTERNAL)])
        (default [] (event_handlers s !! inr SYNC_ERRORED))))).
    rewrite sleeps_create_tasks. reflexivity.
  - unfold requests. rewrite !omap_app.
    fold (requests (ECreateTask <$> (fst <$> invocations (w_tasks w)
        (PKwargs [("error", VError (Some e));
                  ("sleep_for", VInt (fail_sleep st));
                  ("source", VSource SyncStream.INTERNAL)])
        (default [] (event_handlers s !! inr SYNC_ERRORED))))).
    rewrite requests_create_tasks. reflexivity.
Qed.

(** A run of transient failures from a state whose [fail_sleep] is the
    [j]-th term of the sequence. *)
Lemma failures_run s es st w j :
  Forall (fun e => is_transient e = true) es ->
  fail_sleep st = backoff j ->
  exists w' tr,
    sync_loop s (Raised <$> es) st w
    = (w', Ok (MkLoop (backoff (j + length es)) (is_first st) (next_batch st)))
    /\ extends_by w tr w'
    /\ sleeps tr = backoff <$> seq j (length es)
    /\ requests tr = replicate (length es) (next_batch st).
Proof.
  intros Hes. revert st w j.
  induction Hes as [|e es He Hes IH]; intros st w j Hj.
  - exists w, []. cbn [fmap list_fmap sync_loop length].
    unfold ret. rewrite Nat.add_0_r, <- Hj.
    split; [destruct st; reflexivity|].
    split; [apply extends_by_refl|]. split; reflexivity.
  - rewrite fmap_cons. cbn [sync_loop length].
    unfold bind. rewrite sync_iteration_raised by done.
    rewrite Hj, backoff_step.
    destruct (IH (MkLoop (backoff (S j)) (is_first st) (next_batch st))
                 (after_failure s st e w) (S j) eq_refl)
      as (w' & tr & Hrun & [Htr Hnb] & Hsl & Hrq).
    cbn [is_first next_batch] in *. rewrite Hrun.
    replace (j + S (length es))%nat with (S j + length es)%nat by lia.
    destruct (after_failure_extends s st e w) as (tr0 & Hext0 & Hsl0 & Hrq0).
    exists w', (tr0 ++ tr). split; [reflexivity|].
    split; [|split].
    + eapply extends_by_trans; [exact Hext0|]. by split.
    + unfold sleeps in *. rewrite omap_app, Hsl0, Hsl, Hj. reflexivity.
    + unfold requests in *. rewrite omap_app, Hrq0, Hrq. reflexivity.
Qed.

(** C3. On repeated transient failures of the request the sleeps are 5, 10,
    20, 40, 80, 160, 320, 320, ...: the [k]-th is [min (5 * 2^k) 320]. This
    holds from the start of [_start] and after any turn that accepted a
    response, whatever [fail_sleep] was before it; every retry requests with
    the same cursor, which stays in the store and in the loop. *)
Theorem backoff_sequence (s : Syncer) (es : list PyExc) :
  Forall (fun e => is_transient e = true) es ->
  backoff <$> seq 0 8 = [5; 10; 20; 40; 80; 160; 320; 320]
  /\ (forall k, (6 <= k)%nat -> backoff k = 320)
  /\ (forall w, exists w0 w' st' tr,
        run_internal_event s SYNC_STARTED None [] w = (w0, Ok tt)
        /\ _start s (Raised <$> es) w = (w', Ok st')
        /\ extends_by w0 tr w'
        /\ sleeps tr = backoff <$> seq 0 (length es)
        /\ requests tr = replicate (length es) (w_next_batch w)
        /\ next_batch st' = w_next_batch w)
  /\ (forall st kvs w,
        let cursor := default JNull (Dict.lookup "next_batch" kvs) in
        exists w1 w2 st2 tr,
          sync_iteration s st (Returned (JObj kvs)) w
          = (w1, Ok (MkLoop 5 false cursor))
          /\ sync_loop s (Raised <$> es) (MkLoop 5 false cursor) w1
             = (w2, Ok st2)
          /\ extends_by w1 tr w2
          /\ sleeps tr = backoff <$> seq 0 (length es)
          /\ requests tr = replicate (length es) cursor
          /\ next_batch st2 = cursor
          /\ w_next_batch w2 = cursor).
Proof.
  intros Hes. split; [by vm_compute|]. split; [|split].
  - intros k Hk. unfold backoff.
    pose proof (backoff_pow_large k Hk). lia.
  - intros w. unfold _start, bind. simpl.
    unfold run_internal_event at 1 2. unfold bind at 1 2.
    rewrite dispatch_manual_event_run. simpl. unfold gather, emit. simpl.
    match goal with
    | |- context [sync_loop s _ ?st ?w0] =>
        destruct (failures_run s es st w0 0%nat Hes eq_refl)
          as (w' & tr & Hrun & Hext & Hsl & Hrq)
    end.
    eexists _, w', _, tr. split; [reflexivity|].
    split; [exact Hrun|]. split; [exact Hext|].
    split; [exact Hsl|]. split; [exact Hrq|]. reflexivity.
  - intros st kvs w cursor.
    destruct (accepted_turn_completes s st kvs w)
      as (w1 & Hit & Hnb).
    destruct (failures_run s es (MkLoop 5 false cursor) w1 0%nat Hes eq_refl)
      as (w2 & tr & Hrun & Hext & Hsl & Hrq).
    eexists w1, w2, _, tr. split; [exact Hit|]. split; [exact Hrun|].
    split; [exact Hext|]. split; [exact Hsl|]. split; [exact Hrq|].
    split; [reflexivity|]. destruct Hext as [_ ->]. exact Hnb.
Qed.

End Loop.

(** ** The classifier *)

Section Classifier.

Context `{C : Codec}.

Lemma bind_run {A B} (m : M A) (f : A -> M B) w :
  (a <- m ;; f a) w
  = match m w with
    | (w', Ok a) => f a w'
    | (w', Raise e) => (w', Raise e)
    end.
Proof. reflexivity. Qed.

Lemma bind_ret_r {A} (m : M A) w : (a <- m ;; ret a) w = m w.
Proof. unfold bind, ret. by destruct (m w) as [w1 [a|e]]. Qed.

(** The timeline of a left room: the events without a state key are passed
    over. *)
Lemma for_tasks_left_events s rid evs w :
  Forall (fun raw => is_dict raw = true) evs ->
  for_tasks (handle_left_event s rid) evs w
  = for_tasks
      (handle_room_event s StateEvent
         (Z.lor SyncStream.LEFT_ROOM SyncStream.TIMELINE) rid)
      (filter (fun raw => carries_state_key raw = true) evs) w.
Proof.
  intros Hevs. revert w. induction Hevs as [|raw evs Hraw Hevs IH]; intros w.
  - reflexivity.
  - destruct raw as [| | | | |kvs]; try discriminate Hraw.
    rewrite filter_cons. cbn [for_tasks carries_state_key].
    rewrite bind_run.
    assert (Hev : handle_left_event s rid (JObj kvs) w
      = if Dict.mem "state_key" kvs
        then handle_room_event s StateEvent
               (Z.lor SyncStream.LEFT_ROOM SyncStream.TIMELINE) rid
               (JObj kvs) w
        else (w, Ok [])).
    { unfold handle_left_event. rewrite bind_run. unfold lift. simpl.
      by destruct (Dict.mem "state_key" kvs). }
    rewrite Hev. destruct (Dict.mem "state_key" kvs) eqn:E.
    + rewrite decide_True by done. cbn [for_tasks]. rewrite bind_run.
      destruct (handle_room_event s StateEvent
                  (Z.lor SyncStream.LEFT_ROOM SyncStream.TIMELINE) rid
                  (JObj kvs) w) as [w1 [ts|e]]; [|done].
      rewrite !bind_run, IH. reflexivity.
    + rewrite decide_False by done.
      rewrite <- IH. cbn [app]. apply bind_ret_r.
Qed.

(** The events of a room: writing the room id into the raw events first
    and decoding them then gives the same. *)
Lemma for_tasks_room_events s d source rid evs w :
  Forall (fun raw => is_dict raw = true) evs ->
  for_tasks (handle_room_event s d source rid) evs w
  = for_tasks
      (fun raw_event =>
         event <- decoded (deserialize d raw_event) ;;
         dispatch_event s event source)
      (with_room_id rid <$> evs) w.
Proof.
  intros Hevs.
  set (body := fun raw_event =>
         event <- decoded (deserialize d raw_event) ;;
         dispatch_event s event source).
  revert w. induction Hevs as [|raw evs Hraw Hevs IH]; intros w.
  - reflexivity.
  - destruct raw as [| | | | |kvs]; try discriminate Hraw.
    rewrite fmap_cons. cbn [for_tasks with_room_id].
    assert (Hhead : handle_room_event s d source rid (JObj kvs) w
                    = body (JObj (Dict.set "room_id" (JStr rid) kvs)) w)
      by reflexivity.
    rewrite (bind_run (handle_room_event s d source rid (JObj kvs))), Hhead.
    rewrite (bind_run (body (JObj (Dict.set "room_id" (JStr rid) kvs)))).
    destruct (body (JObj (Dict.set "room_id" (JStr rid) kvs)) w)
      as [w1 [ts|e]]; [|done].
    rewrite !(bind_run (for_tasks _ _)), IH. reflexivity.
Qed.

(** ** Which tasks a computation creates *)

Lemma delivers_weaken {A} (P P' : Task -> Prop) (m : M A) :
  (forall t, P t -> P' t) -> delivers P m -> delivers P' m.
Proof.
  intros HP Hm w. destruct (Hm w) as (tr & Htr & Hall).
  exists tr. split; [exact Htr|]. eapply Forall_impl; [exact Hall | exact HP].
Qed.

Lemma delivers_pure {A} (P : Task -> Prop) (m : M A) :
  (forall w, w_trace (fst (m w)) = w_trace w) -> delivers P m.
Proof.
  intros Hm w. exists []. rewrite Hm. simpl. by rewrite app_nil_r.
Qed.

Lemma delivers_ret {A} P (a : A) : delivers P (ret a).
Proof. by apply delivers_pure. Qed.

Lemma delivers_lift {A} P (r : PyResult A) : delivers P (lift r).
Proof. by apply delivers_pure. Qed.

Lemma delivers_decoded {A} P (r : option A) : delivers P (decoded r).
Proof. apply delivers_lift. Qed.

Lemma delivers_read_time P : delivers P read_time.
Proof. by apply delivers_pure. Qed.

Lemma delivers_bind {A B} P (m : M A) (f : A -> M B) :
  delivers P m -> (forall a, delivers P (f a)) -> delivers P (bind m f).
Proof.
  intros Hm Hf w. rewrite bind_run.
  destruct (Hm w) as (tr1 & H1 & Hall1).
  destruct (m w) as [w1 [a|e]]; cbn [fst] in *.
  - destruct (Hf a w1) as (tr2 & H2 & Hall2).
    exists (tr1 ++ tr2). rewrite H2, H1, fmap_app, <- app_assoc.
    split; [reflexivity | by apply Forall_app].
  - by exists tr1.
Qed.

(** After a pure step only its successful outcome matters. *)
Lemma delivers_lift_bind {A B} P (r : PyResult A) (f : A -> M B) :
  (forall a, r = Ok a -> delivers P (f a)) -> delivers P (bind (lift r) f).
Proof.
  intros Hf. destruct r as [a|e].
  - intros w. rewrite bind_run. apply Hf. reflexivity.
  - by apply delivers_pure.
Qed.

Lemma delivers_for_tasks {A} P (body : A -> M (list Task)) l :
  (forall x, x ∈ l -> delivers P (body x)) -> delivers P (for_tasks body l).
Proof.
  induction l as [|x l IH]; intros Hbody; cbn [for_tasks].
  - apply delivers_ret.
  - apply delivers_bind; [apply Hbody; left|]. intros ts.
    apply delivers_bind; [|intros; apply delivers_ret].
    apply IH. intros y Hy. apply Hbody. by right.
Qed.

Lemma delivers_for_each {A B} P (body : A -> M B) l :
  (forall x, delivers P (body x)) -> delivers P (for_each body l).
Proof.
  intros Hbody. induction l as [|x l IH]; cbn [for_each].
  - apply delivers_ret.
  - apply delivers_bind; [apply Hbody|]. intros y.
    apply delivers_bind; [exact IH | intros; apply delivers_ret].
Qed.

Lemma delivers_dispatch_manual_event s key data incl :
  delivers (fun t => task_data t = data)
           (dispatch_manual_event s key data incl false).
Proof.
  intros w. rewrite dispatch_manual_event_run. cbn zeta.
  eexists. split; [reflexivity | apply invocations_data].
Qed.

Lemma delivers_dispatch_event s ev source :
  delivers (fun t => task_data t = PEvent (prepared ev source))
           (dispatch_event s ev source).
Proof. apply delivers_dispatch_manual_event. Qed.

(** An event decoded and dispatched with the origin [source], when the
    origin gives the class [c] to an event without a state key. *)
Lemma delivers_decoded_event s d source c raw :
  (forall ev, resolved_class ev source
              = match ev_state_key ev with
                | Some _ => EventType.STATE
                | None => c
                end) ->
  delivers (delivered_as source c)
    (event <- decoded (deserialize d raw) ;; dispatch_event s event source).
Proof.
  intros Hc. apply delivers_bind; [apply delivers_decoded|]. intros ev.
  eapply delivers_weaken; [|apply delivers_dispatch_event].
  intros t Ht. exists (prepared ev source). split; [exact Ht|].
  split; [reflexivity|]. cbn [prepared ev_type ev_state_key].
  rewrite <- Hc. by destruct (ev_type ev).
Qed.

Lemma delivers_handle_room_event s d source c rid raw :
  (forall ev, resolved_class ev source
              = match ev_state_key ev with
                | Some _ => EventType.STATE
                | None => c
                end) ->
  delivers (delivered_as source c) (handle_room_event s d source rid raw).
Proof.
  intros Hc. unfold handle_room_event.
  apply delivers_lift_bind. intros raw' _.
  by apply delivers_decoded_event.
Qed.

Lemma delivers_handle_left_room s room :
  delivers
    (delivered_as (Z.lor SyncStream.LEFT_ROOM SyncStream.TIMELINE)
                  EventType.MESSAGE)
    (handle_left_room s room).
Proof.
  destruct room as [rid room_data]. unfold handle_left_room.
  apply delivers_lift_bind. intros timeline _.
  apply delivers_for_tasks. intros raw _. unfold handle_left_event.
  apply delivers_lift_bind. intros [|] _; [|apply delivers_ret].
  apply delivers_handle_room_event. intros ev. unfold resolved_class.
  by destruct (ev_state_key ev).
Qed.

(** C9. For every left room whose timeline is a list of JSON objects: the
    events that carry a state key are, in their order, given the room id
    (their other keys unchanged), decoded as state events and dispatched
    with the origin {left, timeline}; every task that the room starts hands
    over an event that bears this origin; and an event without a state key
    starts nothing. *)
Theorem left_room_dispatches_state_events_only
    (s : Syncer) (rid : string) (room_data : JSON) (evs : list JSON)
    (w : World) :
  section_events room_data "timeline" = Ok evs ->
  Forall (fun raw => is_dict raw = true) evs ->
  let source := Z.lor SyncStream.LEFT_ROOM SyncStream.TIMELINE in
  let keyed := filter (fun raw => carries_state_key raw = true) evs in
  let run := handle_left_room s (rid, room_data) w in
  run
  = for_tasks
      (fun raw_event =>
         event <- decoded (deserialize StateEvent raw_event) ;;
         dispatch_event s event source)
      (with_room_id rid <$> keyed) w
  /\ Forall2
       (fun raw raw' =>
          py_get raw' "room_id" JNull = Ok (JStr rid)
          /\ carries_state_key raw' = true
          /\ forall k, k <> "room_id" ->
                       py_get raw' k JNull = py_get raw k JNull)
       keyed (with_room_id rid <$> keyed)
  /\ (exists tr,
        w_trace (fst run) = w_trace w ++ (ECreateTask <$> tr)
        /\ Forall (fun t => exists e, task_data t = PEvent e
                                      /\ ev_source e = Some 24) tr)
  /\ (forall kvs w0,
        Dict.mem "state_key" kvs = false ->
        handle_left_event s rid (JObj kvs) w0 = (w0, Ok [])).
Proof.
  intros Hevs Hdict source keyed run.
  assert (Hkeyed : Forall (fun raw => is_dict raw = true) keyed).
  { unfold keyed. apply Forall_forall. intros raw Hraw.
    apply list_elem_of_filter in Hraw as [_ Hraw].
    by apply (proj1 (Forall_forall _ _) Hdict). }
  split; [|split; [|split]].
  - unfold run, handle_left_room, bind at 1, lift at 1. rewrite Hevs.
    rewrite for_tasks_left_events by done. fold keyed.
    by apply for_tasks_room_events.
  - assert (Hkey : Forall (fun raw => carries_state_key raw = true) keyed).
    { unfold keyed. apply Forall_forall. intros raw Hraw.
      by apply list_elem_of_filter in Hraw as [Hraw _]. }
    clear -Hkeyed Hkey. induction keyed as [|raw l IH]; [constructor|].
    apply Forall_cons in Hkeyed as [Hraw Hl].
    apply Forall_cons in Hkey as [Hk Hkl].
    rewrite fmap_cons. constructor; [|by apply IH].
    destruct raw as [| | | | |kvs]; try discriminate Hraw.
    cbn [with_room_id py_get carries_state_key] in *. split; [|split].
    + by rewrite DictFacts.lookup_set_eq.
    + unfold Dict.mem in *. by rewrite DictFacts.lookup_set_ne.
    + intros k Hne. by rewrite DictFacts.lookup_set_ne.
  - destruct (delivers_handle_left_room s (rid, room_data) w)
      as (tr & Htr & Hall).
    exists tr. split; [exact Htr|].
    eapply Forall_impl; [exact Hall|].
    intros t (e & He & Hsrc & _). by exists e.
  - intros kvs w0 Hk. unfold handle_left_event, bind, lift. simpl.
    by rewrite Hk.
Qed.


(** C5. For an invited room whose invite state holds exactly one event, the
    membership event of the local user, without [event_id] and without
    [origin_server_ts]: the raw event handed to the decoder has the room id,
    [event_id] null and [origin_server_ts] the time read from the clock.
    What follows depends on the decoded event. If it has an [unsigned], the
    room yields exactly one dispatch, of the decoded event with an empty
    list of stripped state events, with the origin {invited, state}. If its
    [unsigned] is [None], the assignment to [unsigned.invite_room_state]
    raises [AttributeError] and the room dispatches nothing; nor does it
    when the decoder rejects the raw event. *)
Theorem invited_room_single_membership_event
    (s : Syncer) (rid : string) (room_data : JSON)
    (kvs : list (string * JSON)) (w : World) :
  section_events room_data "invite_state" = Ok [JObj kvs] ->
  Dict.lookup "type" kvs = Some (JStr "m.room.member") ->
  Dict.lookup "state_key" kvs = Some (JStr (mxid s)) ->
  Dict.lookup "event_id" kvs = None ->
  Dict.lookup "origin_server_ts" kvs = None ->
  let now := time_ms (w_time_reads w) in
  let raw_invite :=
    JObj (Dict.set "room_id" (JStr rid) kvs
            ++ [("event_id", JNull); ("origin_server_ts", JNum now)]) in
  let source := Z.lor SyncStream.INVITED_ROOM SyncStream.STATE in
  handle_invited_room s (rid, room_data) w
  = match deserialize StateEvent raw_invite with
    | None => (after_clock_read w, Raise SerializerError)
    | Some ev =>
        match ev_unsigned ev with
        | None => (after_clock_read w, Raise AttributeError)
        | Some _ =>
            dispatch_event s (invite_with [] ev) source (after_clock_read w)
        end
    end
  /\ py_get raw_invite "room_id" JNull = Ok (JStr rid)
  /\ Dict.lookup "event_id" (Dict.set "room_id" (JStr rid) kvs
            ++ [("event_id", JNull); ("origin_server_ts", JNum now)])
     = Some JNull
  /\ py_get raw_invite "origin_server_ts" JNull = Ok (JNum now)
  /\ (forall ev,
        attached_state (prepared (invite_with [] ev) source) = Some []
        /\ ev_source (prepared (invite_with [] ev) source) = Some 36).
Proof.
  intros Hevs Htype Hkey Hid Hts now raw_invite source.
  set (kvs1 := Dict.set "room_id" (JStr rid) kvs) in *.
  assert (H1 : Dict.lookup "type" kvs1 = Some (JStr "m.room.member")).
  { unfold kvs1. by rewrite DictFacts.lookup_set_ne. }
  assert (H2 : Dict.lookup "state_key" kvs1 = Some (JStr (mxid s))).
  { unfold kvs1. by rewrite DictFacts.lookup_set_ne. }
  assert (H3 : Dict.lookup "event_id" kvs1 = None).
  { unfold kvs1. by rewrite DictFacts.lookup_set_ne. }
  assert (H4 : Dict.lookup "origin_server_ts" kvs1 = None).
  { unfold kvs1. by rewrite DictFacts.lookup_set_ne. }
  assert (Hraw : forall n,
    Dict.setdefault "origin_server_ts" (JNum n)
      (Dict.setdefault "event_id" JNull kvs1)
    = kvs1 ++ [("event_id", JNull); ("origin_server_ts", JNum n)]).
  { intros n. unfold Dict.setdefault at 2. rewrite H3.
    unfold Dict.setdefault. rewrite DictFacts.lookup_app, H4. simpl.
    by rewrite <- app_assoc. }
  split; [|split; [|split; [|split; [|done]]]].
  - unfold handle_invited_room.
    rewrite bind_run. unfold lift at 1. rewrite Hevs.
    rewrite bind_run. cbn [for_each]. rewrite bind_run.
    unfold lift at 1. cbn [py_setitem]. fold kvs1.
    rewrite bind_run. unfold ret at 1. unfold ret at 1.
    rewrite bind_run. unfold lift at 1. cbn [find_invite is_invite_of].
    rewrite H1, H2. simpl default. simpl py_eq.
    rewrite String.eqb_refl. cbn [andb].
    rewrite bind_run. unfold lift at 1. cbn [py_setdefault].
    rewrite bind_run. unfold read_time at 1.
    fold (after_clock_read w). fold now.
    rewrite bind_run. unfold lift at 1. rewrite Hraw. fold raw_invite.
    rewrite bind_run. unfold decoded at 1, lift at 1.
    destruct (deserialize StateEvent raw_invite) as [ev|]; [|reflexivity].
    unfold set_invite_room_state.
    destruct (ev_unsigned ev); reflexivity.
  - simpl. fold kvs1. rewrite DictFacts.lookup_app.
    unfold kvs1 at 1. by rewrite DictFacts.lookup_set_eq.
  - fold kvs1. by rewrite DictFacts.lookup_app, H3.
  - simpl. fold kvs1. by rewrite DictFacts.lookup_app, H4.
Qed.



Lemma fails_bind_l {A B} (m : M A) (f : A -> M B) :
  fails m -> fails (bind m f).
Proof.
  intros Hm w. rewrite bind_run. destruct (Hm w) as [e He].
  destruct (m w) as [w1 [a|e1]]; simpl in *; [done|]. by exists e1.
Qed.

Lemma fails_bind_r {A B} (m : M A) (f : A -> M B) :
  (forall a, fails (f a)) -> fails (bind m f).
Proof.
  intros Hf w. rewrite bind_run.
  destruct (m w) as [w1 [a|e1]]; [apply Hf | by exists e1].
Qed.

Lemma for_tasks_app {A} (body : A -> M (list Task)) l1 l2 w :
  for_tasks body (l1 ++ l2) w
  = (ts <- for_tasks body l1 ;; ts' <- for_tasks body l2 ;; ret (ts ++ ts')) w.
Proof.
  revert w. induction l1 as [|x l1 IH]; intros w.
  - cbn [app for_tasks]. rewrite bind_run. unfold ret at 2.
    symmetry. apply bind_ret_r.
  - cbn [app for_tasks]. rewrite !bind_run.
    destruct (body x w) as [w1 [ts|e]]; [|done].
    rewrite !bind_run, IH, !bind_run.
    destruct (for_tasks body l1 w1) as [w2 [ts1|e]]; [|done].
    unfold ret at 3. rewrite !bind_run.
    destruct (for_tasks body l2 w2) as [w3 [ts2|e]]; [|done].
    unfold ret. by rewrite app_assoc.
Qed.

(** Writing the room id into the events leaves the test of the invite
    search as it was. *)
Lemma for_each_room_id user rid events w :
  Forall (fun raw => is_invite_of user raw = Ok false) events ->
  exists events',
    for_each (fun raw => lift (py_setitem raw "room_id" (JStr rid))) events w
    = (w, Ok events')
    /\ Forall (fun raw => is_invite_of user raw = Ok false) events'.
Proof.
  intros H. induction H as [|raw events Hraw Hevs (events' & Hrun & IH)].
  - by exists [].
  - destruct raw as [| | | | |kvs]; try discriminate Hraw.
    exists (JObj (Dict.set "room_id" (JStr rid) kvs) :: events').
    split.
    + cbn [for_each]. rewrite bind_run. unfold lift at 1. simpl py_setitem.
      cbn iota beta. rewrite bind_run, Hrun. reflexivity.
    + constructor; [|done]. simpl in *.
      by rewrite !DictFacts.lookup_set_ne.
Qed.

Lemma find_invite_none user events :
  Forall (fun raw => is_invite_of user raw = Ok false) events ->
  find_invite user events = Raise StopIteration.
Proof.
  intros H. induction H as [|raw events Hraw Hevs IH]; [done|].
  cbn [find_invite]. by rewrite Hraw, IH.
Qed.

(** An invited room without the membership event of the local user stops
    the classification with [StopIteration] before anything is started. *)
Lemma handle_invited_room_without_invite s rid room_data events w :
  section_events room_data "invite_state" = Ok events ->
  Forall (fun raw => is_invite_of (mxid s) raw = Ok false) events ->
  handle_invited_room s (rid, room_data) w = (w, Raise StopIteration).
Proof.
  intros Hevs Hnone. unfold handle_invited_room.
  rewrite bind_run. unfold lift at 1. rewrite Hevs.
  destruct (for_each_room_id (mxid s) rid events w Hnone)
    as (events' & Hrun & Hnone').
  rewrite bind_run, Hrun. rewrite bind_run. unfold lift at 1.
  by rewrite find_invite_none.
Qed.

Lemma handle_otk_count_run s kvs w :
  dict_or_absent "device_one_time_keys_count" kvs = true ->
  handle_otk_count s (JObj kvs) w
  = let invs :=
      invocations (w_tasks w) (otk_payload kvs)
        (default [] (event_handlers s !! inr DEVICE_OTK_COUNT)) in
    (after_invocations w invs, Ok (waited invs)).
Proof.
  unfold dict_or_absent, handle_otk_count, otk_payload, field_of,
    dispatch_internal_event.
  intros H. rewrite bind_run. unfold lift at 1. cbn [py_get].
  destruct (Dict.lookup "device_one_time_keys_count" kvs)
    as [[| | | | |o]|]; try discriminate H;
    cbn [default from_option id];
    rewrite bind_run; unfold lift at 1; cbn [py_get];
    rewrite bind_run; unfold lift at 1;
    rewrite dispatch_manual_event_run; reflexivity.
Qed.

Lemma handle_device_lists_run s kvs w :
  dict_or_absent "device_lists" kvs = true ->
  handle_device_lists s (JObj kvs) w
  = let invs :=
      invocations (w_tasks w) (device_lists_payload kvs)
        (default [] (event_handlers s !! inr DEVICE_LISTS)) in
    (after_invocations w invs, Ok (waited invs)).
Proof.
  unfold dict_or_absent, handle_device_lists, device_lists_payload, field_of,
    dispatch_internal_event.
  intros H. rewrite bind_run. unfold lift at 1. cbn [py_get].
  destruct (Dict.lookup "device_lists" kvs)
    as [[| | | | |o]|]; try discriminate H;
    cbn [default from_option id];
    rewrite bind_run; unfold lift at 1; cbn [py_get];
    rewrite bind_run; unfold lift at 1;
    rewrite dispatch_manual_event_run; reflexivity.
Qed.

(** The rooms of a batch in which an invited room lacks the membership
    event of the local user: the joined rooms and the invited rooms before
    it are classified, then [StopIteration] is raised; the invited rooms
    after it and the left rooms play no part. *)
Lemma handle_rooms_without_invite s kvs rooms pre rid room_data post events w :
  Dict.lookup "rooms" kvs = Some rooms ->
  room_items rooms "invite" = Ok (pre ++ (rid, room_data) :: post) ->
  section_events room_data "invite_state" = Ok events ->
  Forall (fun raw => is_invite_of (mxid s) raw = Ok false) events ->
  handle_rooms s (JObj kvs) w
  = (join <- lift (room_items rooms "join") ;;
     t1 <- for_tasks (handle_joined_room s) join ;;
     t2 <- for_tasks (handle_invited_room s) pre ;;
     raise StopIteration) w.
Proof.
  intros Hrooms Hinv Hevs Hnone. unfold handle_rooms, lift.
  rewrite !bind_run. cbn [py_get]. rewrite Hrooms.
  cbn [default from_option id]. rewrite !bind_run.
  destruct (room_items rooms "join") as [join|e]; [|done].
  rewrite !bind_run.
  destruct (for_tasks (handle_joined_room s) join w) as [w1 [t1|e]]; [|done].
  rewrite !bind_run, Hinv.
  rewrite bind_run, for_tasks_app, !bind_run.
  destruct (for_tasks (handle_invited_room s) pre w1) as [w2 [t2|e]]; [|done].
  rewrite bind_run. cbn [for_tasks]. rewrite bind_run.
  by rewrite (handle_invited_room_without_invite _ _ _ events).
Qed.

Lemma handle_sync_after_internal s kvs w :
  dict_or_absent "device_one_time_keys_count" kvs = true ->
  dict_or_absent "device_lists" kvs = true ->
  let otk :=
    invocations (w_tasks w) (otk_payload kvs)
      (default [] (event_handlers s !! inr DEVICE_OTK_COUNT)) in
  let dls :=
    invocations (w_tasks w + length otk) (device_lists_payload kvs)
      (default [] (event_handlers s !! inr DEVICE_LISTS)) in
  handle_sync s (JObj kvs) w
  = (t3 <- handle_top_level s (JObj kvs) ;;
     t4 <- handle_rooms s (JObj kvs) ;;
     ret (waited otk ++ waited dls ++ t3 ++ t4))
      (after_invocations (after_invocations w otk) dls).
Proof.
  intros H1 H2 otk dls. unfold handle_sync.
  rewrite bind_run, handle_otk_count_run by done. cbn beta iota zeta.
  rewrite bind_run, handle_device_lists_run by done. reflexivity.
Qed.

Lemma tame_fails_run {A} (m : M A) w :
  tame m -> fails m ->
  exists w' e tr,
    m w = (w', Raise e) /\ extends_by w tr w' /\ is_Exception e = true.
Proof.
  intros Ht Hf. destruct (Ht w) as [[tr Htr] He]. destruct (Hf w) as [e Hr].
  destruct (m w) as [w' r]. simpl in *. subst r.
  exists w', e, tr. split; [done|]. split; [done|]. by apply He.
Qed.

Lemma fails_raise {A} e : fails (@raise _ A e).
Proof. intros w. by exists e. Qed.

(** C4. In a batch that is classified, whose one-time-key and device-list
    sections are well formed and in which an invited room has no membership
    event of the local user in its invite state: that room raises before
    anything is started for it; the classification of the rooms is that of
    the joined rooms and of the invited rooms before it, followed by the
    error, so the later invited rooms and the left rooms are not
    classified; [handle_sync] raises, and by then the invocations of the
    handlers of the one-time-key count and of the device lists have been
    started, first of all and with what the sections before the failure
    started after them; the turn of the loop logs the error and completes
    with the cursor of the batch, ready for the next request. *)
Theorem classification_failure_is_contained
    (s : Syncer) (st : LoopState) (kvs : list (string * JSON))
    (rooms : JSON) (pre post : list (string * JSON)) (rid : string)
    (room_data : JSON) (events : list JSON) (w : World) :
  suppressed s st = false ->
  dict_or_absent "device_one_time_keys_count" kvs = true ->
  dict_or_absent "device_lists" kvs = true ->
  Dict.lookup "rooms" kvs = Some rooms ->
  room_items rooms "invite" = Ok (pre ++ (rid, room_data) :: post) ->
  section_events room_data "invite_state" = Ok events ->
  Forall (fun raw => is_invite_of (mxid s) raw = Ok false) events ->
  let data := augmented st kvs in
  let cursor := default JNull (Dict.lookup "next_batch" kvs) in
  let w0 := after_accept s st kvs w in
  let otk :=
    invocations (w_tasks w0) (otk_payload kvs)
      (default [] (event_handlers s !! inr DEVICE_OTK_COUNT)) in
  let dls :=
    invocations (w_tasks w0 + length otk) (device_lists_payload kvs)
      (default [] (event_handlers s !! inr DEVICE_LISTS)) in
  (forall w1,
     handle_invited_room s (rid, room_data) w1 = (w1, Raise StopIteration))
  /\ (forall w1,
       handle_rooms s data w1
       = (join <- lift (room_items rooms "join") ;;
          t1 <- for_tasks (handle_joined_room s) join ;;
          t2 <- for_tasks (handle_invited_room s) pre ;;
          raise StopIteration) w1)
  /\ (exists w1 e tr w',
       handle_sync s data w0 = (w1, Raise e)
       /\ w_trace w1
          = w_trace w0 ++ (ECreateTask <$> (fst <$> otk))
                       ++ (ECreateTask <$> (fst <$> dls)) ++ tr
       /\ sync_iteration s st (Returned (JObj kvs)) w
          = (w', Ok (MkLoop 5 false cursor))
       /\ w_trace w' = w_trace w1 ++ [ELogException "Sync handling errored"]
       /\ w_next_batch w' = cursor).
Proof.
  intros Hsup Hotk Hdls Hrooms Hinv Hevs Hnone data cursor w0 otk dls.
  set (kvs' := Dict.set "net.maunium.mautrix"
                 (sync_metadata (negb (py_truthy (next_batch st)))
                                (is_first st)) kvs).
  assert (Hlk : forall k, k <> "net.maunium.mautrix" ->
                          Dict.lookup k kvs' = Dict.lookup k kvs).
  { intros k Hk. unfold kvs'. by rewrite DictFacts.lookup_set_ne. }
  assert (Hrooms_eq : forall w1,
    handle_rooms s data w1
    = (join <- lift (room_items rooms "join") ;;
       t1 <- for_tasks (handle_joined_room s) join ;;
       t2 <- for_tasks (handle_invited_room s) pre ;;
       raise StopIteration) w1).
  { intros w1.
    apply (handle_rooms_without_invite s kvs' rooms pre rid room_data post
             events w1); [by rewrite Hlk|done..]. }
  split; [|split; [exact Hrooms_eq|]].
  { intros w1. by apply (handle_invited_room_without_invite _ _ _ events). }
  assert (Hfails : fails (handle_rooms s data)).
  { intros w1. rewrite Hrooms_eq. revert w1.
    apply fails_bind_r. intros join. apply fails_bind_r. intros t1.
    apply fails_bind_r. intros t2. apply fails_raise. }
  assert (Hpay1 : otk_payload kvs' = otk_payload kvs).
  { unfold otk_payload, field_of. by rewrite Hlk. }
  assert (Hpay2 : device_lists_payload kvs' = device_lists_payload kvs).
  { unfold device_lists_payload, field_of. by rewrite Hlk. }
  assert (Hsync : exists w1 e tr,
    handle_sync s data w0 = (w1, Raise e)
    /\ extends_by (after_invocations (after_invocations w0 otk) dls) tr w1
    /\ is_Exception e = true).
  { unfold data, augmented. fold kvs'.
    rewrite handle_sync_after_internal;
      [|unfold dict_or_absent in *; by rewrite Hlk..].
    cbn zeta. rewrite Hpay1, Hpay2. fold otk. fold dls.
    apply tame_fails_run.
    - apply tame_bind; [apply tame_handle_top_level|]. intros t3.
      apply tame_bind; [apply tame_handle_rooms|]. intros t4.
      apply tame_ret.
    - apply fails_bind_r. intros t3. by apply fails_bind_l. }
  destruct Hsync as (w1 & e & tr & Hrun & [Htr Hnb] & He).
  exists w1, e, tr.
  exists (MkWorld (w_trace w1 ++ [ELogException "Sync handling errored"])
                  (w_tasks w1) (w_next_batch w1) (w_time_reads w1)).
  split; [exact Hrun|]. split; [|split; [|split; [reflexivity|]]].
  - rewrite Htr. unfold after_invocations. cbn [w_trace].
    by rewrite <- !app_assoc.
  - rewrite sync_iteration_returned, Hsup. rewrite bind_run.
    unfold classify, try_except. rewrite bind_run.
    unfold data, w0 in Hrun. rewrite Hrun, He. unfold emit, ret. cbn.
    rewrite Hnb. reflexivity.
  - cbn [w_next_batch]. rewrite Hnb. reflexivity.
Qed.

End Classifier.

(** ** The statements at concrete inputs *)

Section Examples.

#[local] Existing Instance Demo.codec.

(** C8, as first stated, fails: a [MessageEvent] dispatched with the origin
    {joined, ephemeral} resolves to the ephemeral class, and its content is
    trimmed all the same. *)
Lemma reply_trimming_follows_type_not_class :
  let source := Z.lor SyncStream.JOINED_ROOM SyncStream.EPHEMERAL in
  let delivered := prepared Demo.message_event source in
  ev_is_message Demo.message_event = true
  /\ EventType.t_class (ev_type delivered) = EventType.EPHEMERAL
  /\ ev_content Demo.message_event
     = JObj [("body", JStr "hello"); ("reply_fallback", JStr "> quoted")]
  /\ ev_content delivered = JObj [("body", JStr "hello")]
  /\ ev_content delivered <> ev_content Demo.message_event.
Proof.
  repeat split; try reflexivity. vm_compute. discriminate.
Qed.

(** C6 at a first batch received with [ignore_first_sync] set. *)
Lemma suppressed_batch_is_skipped_witness :
  let st := MkLoop 5 true JNull in
  let turn :=
    sync_iteration Demo.quiet_syncer st (Returned (JObj Demo.invite_batch))
                   Demo.world0 in
  ((ignore_first_sync Demo.quiet_syncer = true /\ is_first st = true)
   \/ (ignore_initial_sync Demo.quiet_syncer = true
       /\ py_truthy (next_batch st) = false))
  /\ snd turn = Ok (MkLoop 5 false (JStr "T2"))
  /\ w_next_batch (fst turn) = JStr "T2"
  /\ task_handler <$> created (w_trace (fst turn)) = [1%nat].
Proof.
  intros st turn.
  assert (H : (ignore_first_sync Demo.quiet_syncer = true
               /\ is_first st = true)
              \/ (ignore_initial_sync Demo.quiet_syncer = true
                  /\ py_truthy (next_batch st) = false)).
  { left. split; reflexivity. }
  split; [exact H|].
  destruct (suppressed_batch_is_skipped Demo.quiet_syncer st
              Demo.invite_batch Demo.world0 H) as (Hrun & Hc & _).
  unfold turn. rewrite Hrun. cbn [fst snd w_next_batch].
  split; [reflexivity|]. split; [reflexivity|].
  rewrite Hc. vm_compute. reflexivity.
Defined.

(** C10 at the second batch of a run. *)
Lemma sync_successful_carries_metadata_witness :
  let resps := [Returned (JObj Demo.invite_batch)] in
  let w1 := fst (_start Demo.syncer resps Demo.world0) in
  let st1 := MkLoop 5 false (JStr "T2") in
  _start Demo.syncer resps Demo.world0 = (w1, Ok st1)
  /\ py_get (augmented st1 Demo.broken_batch) "net.maunium.mautrix" JNull
     = Ok (JObj [("is_initial", JBool false); ("is_first", JBool false)]).
Proof.
  intros resps w1 st1.
  assert (H : _start Demo.syncer resps Demo.world0 = (w1, Ok st1)).
  { vm_compute. reflexivity. }
  split; [exact H|].
  exact (proj1 (proj2 (sync_successful_carries_metadata Demo.syncer resps
                         Demo.broken_batch Demo.world0 w1 st1 H))).
Defined.

(** C3 at eight failures from the start. *)
Lemma backoff_sequence_witness :
  let run := _start Demo.syncer (Raised <$> Demo.failures) Demo.world0 in
  Forall (fun e => is_transient e = true) Demo.failures
  /\ sleeps (w_trace (fst run)) = [5; 10; 20; 40; 80; 160; 320; 320]
  /\ requests (w_trace (fst run)) = replicate 8 JNull.
Proof.
  intros run.
  assert (H : Forall (fun e => is_transient e = true) Demo.failures).
  { repeat constructor. }
  split; [exact H|].
  destruct (backoff_sequence Demo.syncer Demo.failures H)
    as (Hseq & _ & Hstart & _).
  destruct (Hstart Demo.world0)
    as (w0 & w' & st' & tr & Hw0 & Hrun & [Htr _] & Hsl & Hrq & _).
  unfold run. rewrite Hrun. cbn [fst]. rewrite Htr.
  injection Hw0 as <-.
  unfold sleeps, requests in *. rewrite !omap_app, Hsl, Hrq.
  split; [exact Hseq | reflexivity].
Defined.

(** C9 at a left room with a message and a membership event: the one task
    hands over the membership event, with the origin and the room id. *)
Lemma left_room_dispatches_state_events_only_witness :
  let evs := [Demo.text_message; Demo.leave_event] in
  let run :=
    handle_left_room Demo.syncer ("!l:x", Demo.left_room) Demo.world0 in
  section_events Demo.left_room "timeline" = Ok evs
  /\ Forall (fun raw => is_dict raw = true) evs
  /\ (fun t => match task_data t with
                | PEvent e =>
                    (ev_state_key e, ev_source e,
                     py_get (ev_other e) "room_id" JNull)
                | _ => (None, None, Ok JNull)
                end) <$> created (w_trace (fst run))
     = [(Some Demo.user, Some 24, Ok (JStr "!l:x"))].
Proof.
  intros evs run.
  assert (H1 : section_events Demo.left_room "timeline" = Ok evs)
    by reflexivity.
  assert (H2 : Forall (fun raw => is_dict raw = true) evs)
    by (repeat constructor).
  split; [exact H1|]. split; [exact H2|].
  unfold run.
  rewrite (proj1 (left_room_dispatches_state_events_only Demo.syncer "!l:x"
                    Demo.left_room evs Demo.world0 H1 H2)).
  vm_compute. reflexivity.
Defined.

(** C5 at the scenario of the invite: the decoded event has no [unsigned],
    the room raises and starts no task, and the turn of the loop that
    receives the batch logs the error. The same room with an [unsigned]
    section in the event yields the one dispatch. *)
Lemma invited_room_single_membership_event_witness :
  let kvs := Demo.member_event Demo.user in
  let run :=
    handle_invited_room Demo.syncer ("!r:x", Demo.invite_room) Demo.world0 in
  let turn :=
    sync_iteration Demo.syncer (MkLoop 5 false (JStr "T1"))
      (Returned (JObj Demo.invite_batch)) Demo.world0 in
  let signed :=
    handle_invited_room Demo.syncer ("!r:x", Scenario.signed_invite_room)
      Demo.world0 in
  section_events Demo.invite_room "invite_state" = Ok [JObj kvs]
  /\ Dict.lookup "type" kvs = Some (JStr "m.room.member")
  /\ Dict.lookup "state_key" kvs = Some (JStr (mxid Demo.syncer))
  /\ Dict.lookup "event_id" kvs = None
  /\ Dict.lookup "origin_server_ts" kvs = None
  /\ deserialize StateEvent
       (JObj (Dict.set "room_id" (JStr "!r:x") kvs
                ++ [("event_id", JNull);
                    ("origin_server_ts",
                     JNum (time_ms (w_time_reads Demo.world0)))]))
     = Some Demo.invite_event
  /\ ev_unsigned Demo.invite_event = None
  /\ run = (after_clock_read Demo.world0, Raise AttributeError)
  /\ created (w_trace (fst run)) = []
  /\ task_handler <$> created (w_trace (fst turn)) = [1; 4; 3]%nat
  /\ last (w_trace (fst turn)) = Some (ELogException "Sync handling errored")
  /\ created (w_trace (fst signed))
     = [MkTask 0 2%nat
          (PEvent (MkEvent false
                     (EventType.Mk "m.room.member" EventType.STATE)
                     (Some Demo.user)
                     (JObj [("membership", JStr "invite")])
                     (Some (MkUnsigned (Some [])))
                     (Some 36) (ev_other Scenario.signed_invite_event)))]
  /\ snd signed = Ok [].
Proof.
  intros kvs run turn signed.
  assert (H1 : section_events Demo.invite_room "invite_state" = Ok [JObj kvs])
    by reflexivity.
  assert (H2 : Dict.lookup "type" kvs = Some (JStr "m.room.member"))
    by reflexivity.
  assert (H3 : Dict.lookup "state_key" kvs = Some (JStr (mxid Demo.syncer)))
    by reflexivity.
  assert (H4 : Dict.lookup "event_id" kvs = None) by reflexivity.
  assert (H5 : Dict.lookup "origin_server_ts" kvs = None) by reflexivity.
  repeat (split; [assumption|]).
  split; [reflexivity|]. split; [reflexivity|].
  assert (Hrun : run = (after_clock_read Demo.world0, Raise AttributeError)).
  { unfold run.
    rewrite (proj1 (invited_room_single_membership_event (C := Demo.codec)
                      Demo.syncer "!r:x" Demo.invite_room kvs Demo.world0
                      H1 H2 H3 H4 H5)).
    reflexivity. }
  split; [exact Hrun|]. rewrite Hrun.
  split; [reflexivity|].
  split; [vm_compute; reflexivity|].
  split; [vm_compute; reflexivity|].
  unfold signed.
  rewrite (proj1 (invited_room_single_membership_event (C := Demo.codec)
                    Demo.syncer "!r:x" Scenario.signed_invite_room
                    Scenario.signed_member_event Demo.world0
                    eq_refl eq_refl eq_refl eq_refl eq_refl)).
  split; vm_compute; reflexivity.
Defined.

(** C4 at a batch whose invited room has the membership event of
    another user only. *)
Lemma classification_failure_is_contained_witness :
  let st := MkLoop 5 true JNull in
  let events := [JObj (Demo.member_event "@other:x")] in
  let turn :=
    sync_iteration Demo.syncer st (Returned (JObj Demo.broken_batch))
                   Demo.world0 in
  suppressed Demo.syncer st = false
  /\ dict_or_absent "device_one_time_keys_count" Demo.broken_batch = true
  /\ dict_or_absent "device_lists" Demo.broken_batch = true
  /\ Dict.lookup "rooms" Demo.broken_batch = Some Demo.broken_rooms
  /\ room_items Demo.broken_rooms "invite"
     = Ok ([] ++ ("!r:x", Demo.other_invite_room) :: [])
  /\ section_events Demo.other_invite_room "invite_state" = Ok events
  /\ Forall (fun raw => is_invite_of (mxid Demo.syncer) raw = Ok false) events
  /\ snd turn = Ok (MkLoop 5 false (JStr "T3"))
  /\ task_handler <$> created (w_trace (fst turn)) = [1; 4; 3; 2]%nat
  /\ last (w_trace (fst turn))
     = Some (ELogException "Sync handling errored").
Proof.
  intros st events turn.
  assert (H1 : suppressed Demo.syncer st = false) by reflexivity.
  assert (H2 : dict_or_absent "device_one_time_keys_count" Demo.broken_batch
               = true) by reflexivity.
  assert (H3 : dict_or_absent "device_lists" Demo.broken_batch = true)
    by reflexivity.
  assert (H4 : Dict.lookup "rooms" Demo.broken_batch = Some Demo.broken_rooms)
    by reflexivity.
  assert (H5 : room_items Demo.broken_rooms "invite"
               = Ok ([] ++ ("!r:x", Demo.other_invite_room) :: []))
    by reflexivity.
  assert (H6 : section_events Demo.other_invite_room "invite_state"
               = Ok events) by reflexivity.
  assert (H7 : Forall (fun raw => is_invite_of (mxid Demo.syncer) raw
                                  = Ok false) events)
    by (repeat constructor).
  repeat (split; [assumption|]).
  destruct (classification_failure_is_contained Demo.syncer st
              Demo.broken_batch Demo.broken_rooms [] [] "!r:x"
              Demo.other_invite_room events Demo.world0
              H1 H2 H3 H4 H5 H6 H7)
    as (_ & _ & w1 & e & tr & w' & Hsync & Htr & Hturn & Hlog & Hnb).
  unfold turn. rewrite Hturn. cbn [fst snd].
  split; [reflexivity|]. split.
  - assert (Hw : w' = fst turn) by (unfold turn; by rewrite Hturn).
    rewrite Hw. vm_compute. reflexivity.
  - rewrite Hlog. apply last_snoc.
Defined.

End Examples.

(** ** What the classifier starts and returns *)

Section Emits.

Context `{C : Codec}.

Lemma emits_weaken {A} (Q Q' : A -> list Task -> Prop) (m : M A) :
  (forall a tr, Q a tr -> Q' a tr) -> emits Q m -> emits Q' m.
Proof.
  intros HQ Hm w. destruct (Hm w) as (tr & H1 & H2 & H3 & H4 & H5).
  exists tr. repeat split; try done. intros a Ha. by apply HQ, H5.
Qed.

Lemma emits_pure {A} (Q : A -> list Task -> Prop) (m : M A) :
  (forall w, w_trace (fst (m w)) = w_trace w
             /\ w_next_batch (fst (m w)) = w_next_batch w
             /\ w_tasks (fst (m w)) = w_tasks w) ->
  (forall w a, snd (m w) = Ok a -> Q a []) ->
  emits Q m.
Proof.
  intros Hw HQ w. destruct (Hw w) as (H1 & H2 & H3). exists [].
  simpl. rewrite app_nil_r, Nat.add_0_r. repeat split; try done.
  apply HQ.
Qed.

Lemma silent_ret {A} (a : A) : silent (ret a).
Proof. by apply emits_pure. Qed.

Lemma silent_lift {A} (r : PyResult A) : silent (lift r).
Proof. by apply emits_pure. Qed.

Lemma silent_decoded {A} (r : option A) : silent (decoded r).
Proof. apply silent_lift. Qed.

Lemma silent_read_time : silent read_time.
Proof. by apply emits_pure. Qed.

Lemma emits_ret {A} (Q : A -> list Task -> Prop) (a : A) :
  Q a [] -> emits Q (ret a).
Proof. intros HQ. apply emits_pure; [done|]. by intros w a' [= <-]. Qed.

Lemma emits_create_task h data :
  emits (fun t tr => tr = [t]) (create_task h data).
Proof.
  intros w. exists [MkTask (w_tasks w) h data]. simpl.
  repeat split; try done; [lia|]. by intros a [= <-].
Qed.

Lemma emits_bind {A B} (Q1 : A -> list Task -> Prop)
    (Q2 : A -> B -> list Task -> Prop) (Q : B -> list Task -> Prop)
    (m : M A) (f : A -> M B) :
  emits Q1 m ->
  (forall a, emits (Q2 a) (f a)) ->
  (forall a tr1 b tr2, Q1 a tr1 -> Q2 a b tr2 -> Q b (tr1 ++ tr2)) ->
  emits Q (bind m f).
Proof.
  intros Hm Hf HQ w. unfold bind.
  destruct (Hm w) as (tr1 & H1 & H2 & H3 & H4 & H5).
  destruct (m w) as [w1 [a|e]]; simpl in *.
  - destruct (Hf a w1) as (tr2 & G1 & G2 & G3 & G4 & G5).
    exists (tr1 ++ tr2). rewrite G1, G2, G3, H1, H2, H3.
    rewrite fmap_app, length_app, !fmap_app, <- app_assoc.
    repeat split; try done; [lia| |].
    + rewrite H4, G4, H3. by rewrite seq_app.
    + intros b Hb. apply (HQ a); [by apply H5 | by apply G5].
  - exists tr1. repeat split; try done.
Qed.

Lemma silent_bind {A B} (m : M A) (f : A -> M B) :
  silent m -> (forall a, silent (f a)) -> silent (bind m f).
Proof.
  intros Hm Hf.
  apply (emits_bind (fun _ tr => tr = []) (fun _ _ tr => tr = [])); try done.
  by intros a tr1 b tr2 -> ->.
Qed.

Lemma silent_for_each {A B} (body : A -> M B) l :
  (forall x, silent (body x)) -> silent (for_each body l).
Proof.
  intros Hb. induction l as [|x r IH]; simpl.
  - apply silent_ret.
  - apply silent_bind; [done|]. intros y.
    apply silent_bind; [done|]. intros ys. apply silent_ret.
Qed.

Lemma tracking_from_ret pre l : l = pre -> tracking_from pre (ret l).
Proof.
  intros ->. apply emits_ret. exists []. by rewrite app_nil_r.
Qed.

Lemma tracking_from_bind pre (m : M (list Task)) (f : list Task -> M (list Task)) :
  tracking_from [] m ->
  (forall t, tracking_from (pre ++ t) (f t)) ->
  tracking_from pre (bind m f).
Proof.
  intros Hm Hf.
  apply (emits_bind _ (fun t ts tr =>
           exists rest, ts = (pre ++ t) ++ rest /\ sublist rest tr) _ _ _
           Hm Hf).
  intros t tr1 ts tr2 (r1 & -> & Hr1) (r2 & -> & Hr2). simpl.
  exists (r1 ++ r2). split; [by rewrite app_assoc|]. by apply sublist_app.
Qed.

Lemma tracking_from_silent_bind {A} pre (m : M A) (f : A -> M (list Task)) :
  silent m ->
  (forall a, tracking_from pre (f a)) ->
  tracking_from pre (bind m f).
Proof.
  intros Hm Hf.
  apply (emits_bind _ (fun _ ts tr =>
           exists rest, ts = pre ++ rest /\ sublist rest tr) _ _ _ Hm Hf).
  by intros a tr1 ts tr2 -> H.
Qed.

Lemma invocations_ids n data hs :
  task_id <$> (fst <$> invocations n data hs) = seq n (length hs).
Proof.
  revert n. induction hs as [|[h wt] r IH]; intros n; [done|].
  rewrite invocations_cons. simpl. by rewrite IH.
Qed.

Lemma tracking_run_handlers force data hs :
  tracking_from [] (run_handlers force data hs).
Proof.
  intros w. rewrite run_handlers_run. cbn [fst snd].
  exists (fst <$> invocations (w_tasks w) data hs).
  unfold after_invocations. cbn [w_trace w_next_batch w_tasks].
  rewrite !length_fmap, invocations_length, invocations_ids.
  repeat split; try done.
  intros ts [= <-]. eexists. split; [reflexivity|].
  apply fmap_sublist, sublist_filter.
Qed.

Lemma tracking_dispatch_manual_event s key data incl force :
  tracking_from [] (dispatch_manual_event s key data incl force).
Proof. apply tracking_run_handlers. Qed.

Lemma tracking_dispatch_event s ev src :
  tracking_from [] (dispatch_event s ev src).
Proof. apply tracking_dispatch_manual_event. Qed.

Lemma tracking_for_tasks {A} (body : A -> M (list Task)) l :
  (forall x, tracking_from [] (body x)) ->
  tracking_from [] (for_tasks body l).
Proof.
  intros Hb. induction l as [|x r IH]; simpl.
  - by apply tracking_from_ret.
  - apply tracking_from_bind; [done|]. intros ts.
    apply tracking_from_bind; [done|]. intros ts'.
    by apply tracking_from_ret.
Qed.

Lemma tracking_handle_plain_event s d src raw :
  tracking_from [] (handle_plain_event s d src raw).
Proof.
  unfold handle_plain_event.
  apply tracking_from_silent_bind; [apply silent_decoded|]. intros ev.
  apply tracking_dispatch_event.
Qed.

Lemma tracking_handle_room_event s d src rid raw :
  tracking_from [] (handle_room_event s d src rid raw).
Proof.
  unfold handle_room_event.
  apply tracking_from_silent_bind; [apply silent_lift|]. intros raw'.
  apply tracking_from_silent_bind; [apply silent_decoded|]. intros ev.
  apply tracking_dispatch_event.
Qed.

Lemma tracking_handle_joined_room s room :
  tracking_from [] (handle_joined_room s room).
Proof.
  destruct room as [rid room_data]. unfold handle_joined_room.
  apply tracking_from_silent_bind; [apply silent_lift|]. intros state.
  apply tracking_from_bind.
  { apply tracking_for_tasks. intros x. apply tracking_handle_room_event. }
  intros t1.
  apply tracking_from_silent_bind; [apply silent_lift|]. intros timeline.
  apply tracking_from_bind.
  { apply tracking_for_tasks. intros x. apply tracking_handle_room_event. }
  intros t2. by apply tracking_from_ret.
Qed.

Lemma tracking_handle_invited_room s room :
  tracking_from [] (handle_invited_room s room).
Proof.
  destruct room as [rid room_data]. unfold handle_invited_room.
  apply tracking_from_silent_bind; [apply silent_lift|]. intros events.
  apply tracking_from_silent_bind.
  { apply silent_for_each. intros x. apply silent_lift. }
  intros events'.
  apply tracking_from_silent_bind; [apply silent_lift|].
  intros [[pre raw_invite] post].
  apply tracking_from_silent_bind; [apply silent_lift|]. intros raw1.
  apply tracking_from_silent_bind; [apply silent_read_time|]. intros now.
  apply tracking_from_silent_bind; [apply silent_lift|]. intros raw2.
  apply tracking_from_silent_bind; [apply silent_decoded|]. intros invite.
  apply tracking_from_silent_bind.
  { apply silent_for_each. intros x. apply silent_decoded. }
  intros state.
  apply tracking_from_silent_bind; [apply silent_lift|]. intros invite'.
  apply tracking_dispatch_event.
Qed.

Lemma tracking_handle_left_room s room :
  tracking_from [] (handle_left_room s room).
Proof.
  destruct room as [rid room_data]. unfold handle_left_room.
  apply tracking_from_silent_bind; [apply silent_lift|]. intros timeline.
  apply tracking_for_tasks. intros raw. unfold handle_left_event.
  apply tracking_from_silent_bind; [apply silent_lift|]. intros [|].
  - apply tracking_handle_room_event.
  - by apply tracking_from_ret.
Qed.

Lemma tracking_handle_otk_count s data :
  tracking_from [] (handle_otk_count s data).
Proof.
  unfold handle_otk_count.
  do 3 (apply tracking_from_silent_bind; [apply silent_lift|]; intros ?).
  apply tracking_dispatch_manual_event.
Qed.

Lemma tracking_handle_device_lists s data :
  tracking_from [] (handle_device_lists s data).
Proof.
  unfold handle_device_lists.
  do 3 (apply tracking_from_silent_bind; [apply silent_lift|]; intros ?).
  apply tracking_dispatch_manual_event.
Qed.

Lemma tracking_handle_top_level s data :
  tracking_from [] (handle_top_level s data).
Proof.
  unfold handle_top_level.
  apply tracking_from_silent_bind; [apply silent_lift|]. intros l1.
  apply tracking_from_bind.
  { apply tracking_for_tasks. intros x. apply tracking_handle_plain_event. }
  intros t1.
  apply tracking_from_silent_bind; [apply silent_lift|]. intros l2.
  apply tracking_from_bind.
  { apply tracking_for_tasks. intros x. apply tracking_handle_plain_event. }
  intros t2.
  apply tracking_from_silent_bind; [apply silent_lift|]. intros l3.
  apply tracking_from_bind.
  { apply tracking_for_tasks. intros x. apply tracking_handle_plain_event. }
  intros t3. apply tracking_from_ret. simpl. by rewrite app_assoc.
Qed.

Lemma tracking_handle_rooms s data :
  tracking_from [] (handle_rooms s data).
Proof.
  unfold handle_rooms.
  apply tracking_from_silent_bind; [apply silent_lift|]. intros rooms.
  apply tracking_from_silent_bind; [apply silent_lift|]. intros l1.
  apply tracking_from_bind.
  { apply tracking_for_tasks. intros x. apply tracking_handle_joined_room. }
  intros t1.
  apply tracking_from_silent_bind; [apply silent_lift|]. intros l2.
  apply tracking_from_bind.
  { apply tracking_for_tasks. intros x. apply tracking_handle_invited_room. }
  intros t2.
  apply tracking_from_silent_bind; [apply silent_lift|]. intros l3.
  apply tracking_from_bind.
  { apply tracking_for_tasks. intros x. apply tracking_handle_left_room. }
  intros t3. apply tracking_from_ret. simpl. by rewrite app_assoc.
Qed.

Lemma tracking_handle_sync s data : tracking_from [] (handle_sync s data).
Proof.
  unfold handle_sync.
  apply tracking_from_bind; [apply tracking_handle_otk_count|]. intros t1.
  apply tracking_from_bind; [apply tracking_handle_device_lists|]. intros t2.
  apply tracking_from_bind; [apply tracking_handle_top_level|]. intros t3.
  apply tracking_from_bind; [apply tracking_handle_rooms|]. intros t4.
  apply tracking_from_ret. simpl. by rewrite !app_assoc.
Qed.

(** X1. Whatever the batch, the registry and the codec, and whether it
    returns or raises: [handle_sync] does nothing but create tasks. It makes
    no request, sleeps never, logs nothing and leaves the stored cursor
    alone; the tasks it creates are numbered on from those that exist; and
    the tasks it returns are among those it created in this call, in the
    order of their creation. *)
Theorem handle_sync_only_creates_tasks
    (s : Syncer) (data : JSON) (w : World) :
  exists tr : list Task,
    w_trace (fst (handle_sync s data w)) = w_trace w ++ (ECreateTask <$> tr)
    /\ w_next_batch (fst (handle_sync s data w)) = w_next_batch w
    /\ w_tasks (fst (handle_sync s data w)) = (w_tasks w + length tr)%nat
    /\ task_id <$> tr = seq (w_tasks w) (length tr)
    /\ (forall ts, snd (handle_sync s data w) = Ok ts -> sublist ts tr).
Proof.
  destruct (tracking_handle_sync s data w) as (tr & H1 & H2 & H3 & H4 & H5).
  exists tr. repeat split; try done.
  intros ts Hts. destruct (H5 ts Hts) as (rest & -> & Hs). exact Hs.
Qed.

End Emits.

(** ** Runs of the loop *)

Section Runs.

Context `{C : Codec}.

Lemma calm_projections tr :
  Forall (fun e => calm e = true) tr -> sleeps tr = [] /\ requests tr = [].
Proof.
  induction 1 as [|e tr He Htr [IH1 IH2]]; [done|].
  destruct e; try discriminate He; simpl; by rewrite ?IH1, ?IH2.
Qed.

Lemma requests_app tr tr' : requests (tr ++ tr') = requests tr ++ requests tr'.
Proof. apply omap_app. Qed.

Lemma sleeps_app tr tr' : sleeps (tr ++ tr') = sleeps tr ++ sleeps tr'.
Proof. apply omap_app. Qed.

Lemma calm_create_tasks (l : list Task) :
  Forall (fun e => calm e = true) (ECreateTask <$> l).
Proof. induction l; simpl; by constructor. Qed.

(** The classification step of a turn: tasks, then the wait or the log
    entry; it always completes. *)
Lemma classify_calm s data w :
  exists tr,
    extends_by w tr (fst (classify s data w))
    /\ snd (classify s data w) = Ok tt
    /\ Forall (fun e => calm e = true) tr.
Proof.
  unfold classify, try_except. rewrite bind_run.
  destruct (tracking_handle_sync s data w) as (tl & H1 & H2 & _).
  destruct (tame_handle_sync s data w) as [_ He].
  destruct (handle_sync s data w) as [w1 [ts|e]]; simpl in *.
  - exists ((ECreateTask <$> tl) ++ [EGather ts]). unfold gather, emit. simpl.
    split; [split; simpl; [by rewrite H1, app_assoc | done]|].
    split; [done|]. apply Forall_app. split; [apply calm_create_tasks|].
    by repeat constructor.
  - rewrite (He e eq_refl). unfold emit. simpl.
    exists ((ECreateTask <$> tl) ++ [ELogException "Sync handling errored"]).
    split; [split; simpl; [by rewrite H1, app_assoc | done]|].
    split; [done|]. apply Forall_app. split; [apply calm_create_tasks|].
    by repeat constructor.
Qed.

(** One turn on an outcome after which the loop goes on. *)
Lemma sync_iteration_harmless s st resp w :
  harmless resp = true ->
  exists w' st' tr,
    sync_iteration s st resp w = (w', Ok st')
    /\ w_trace w' = w_trace w ++ tr
    /\ requests tr = [next_batch st]
    /\ sleeps tr = (if is_raised resp then [fail_sleep st] else [])
    /\ next_batch st' = cursor_after (next_batch st) resp
    /\ fail_sleep st'
       = (if is_raised resp
          then (if fail_sleep st <? 320 then fail_sleep st * 2
                else fail_sleep st)
          else 5)
    /\ w_next_batch w'
       = (if is_raised resp then w_next_batch w
          else cursor_after (next_batch st) resp).
Proof.
  intros Hh. destruct resp as [data|e].
  - destruct data as [| | | | |kvs]; try discriminate Hh.
    rewrite sync_iteration_returned. cbn [is_raised cursor_after].
    set (cursor := default JNull (Dict.lookup "next_batch" kvs)).
    set (invs := invocations (w_tasks w) (sync_successful_payload st kvs)
                   (default [] (event_handlers s !! inr SYNC_SUCCESSFUL))).
    assert (Hacc : w_trace (after_accept s st kvs w)
      = w_trace w ++ ([ESync (next_batch st); EPutNextBatch cursor]
                      ++ (ECreateTask <$> (fst <$> invs))
                      ++ [EGather (waited invs)])) by reflexivity.
    assert (Hproj : forall tr', Forall (fun e => calm e = true) tr' ->
      requests (([ESync (next_batch st); EPutNextBatch cursor]
                 ++ (ECreateTask <$> (fst <$> invs))
                 ++ [EGather (waited invs)]) ++ tr') = [next_batch st]
      /\ sleeps (([ESync (next_batch st); EPutNextBatch cursor]
                  ++ (ECreateTask <$> (fst <$> invs))
                  ++ [EGather (waited invs)]) ++ tr') = []).
    { intros tr' Hc. destruct (calm_projections _ Hc) as [Hs Hr].
      rewrite !requests_app, !sleeps_app, Hs, Hr.
      rewrite requests_create_tasks, sleeps_create_tasks. by split. }
    destruct (suppressed s st).
    + eexists (after_accept s st kvs w), (MkLoop 5 false cursor), _.
      split; [reflexivity|]. split; [exact Hacc|].
      destruct (Hproj [] (Forall_nil_2 _)) as [Hr Hs].
      rewrite app_nil_r in Hr, Hs. by repeat split.
    + destruct (classify_calm s (augmented st kvs) (after_accept s st kvs w))
        as (tr' & [Htr Hnb] & Hok & Hcalm).
      rewrite bind_run.
      destruct (classify s (augmented st kvs) (after_accept s st kvs w))
        as [w1 r]. cbn [fst snd] in Htr, Hnb, Hok. subst r. unfold ret.
      eexists w1, (MkLoop 5 false cursor), _.
      split; [reflexivity|]. split.
      { rewrite Htr, Hacc, <- app_assoc. reflexivity. }
      destruct (Hproj tr' Hcalm) as [Hr Hs]. by repeat split.
  - simpl in Hh. rewrite sync_iteration_raised by done.
    destruct (after_failure_extends s st e w) as (tr & [Htr Hnb] & Hsl & Hrq).
    eexists (after_failure s st e w), _, tr.
    split; [reflexivity|]. by repeat split.
Qed.

(** A run over outcomes after which the loop goes on. *)
Lemma harmless_run s resps st w j :
  Forall (fun resp => harmless resp = true) resps ->
  fail_sleep st = backoff j ->
  w_next_batch w = next_batch st ->
  exists w' st' tr,
    sync_loop s resps st w = (w', Ok st')
    /\ w_trace w' = w_trace w ++ tr
    /\ requests tr = cursors (next_batch st) resps
    /\ sleeps tr = sleep_plan j resps
    /\ next_batch st' = foldl cursor_after (next_batch st) resps
    /\ w_next_batch w' = next_batch st'.
Proof.
  intros Hall. revert st w j.
  induction Hall as [|resp resps Hresp Hall IH]; intros st w j Hj Hnb.
  - exists w, st, []. cbn. unfold ret. by rewrite app_nil_r.
  - cbn [sync_loop cursors foldl]. rewrite bind_run.
    destruct (sync_iteration_harmless s st resp w Hresp)
      as (w1 & st1 & tr1 & Hrun & Htr & Hrq & Hsl & Hc & Hf & Hs).
    rewrite Hrun.
    assert (Hj1 : fail_sleep st1
                  = backoff (if is_raised resp then S j else 0%nat)).
    { rewrite Hf. destruct (is_raised resp); [|reflexivity].
      rewrite Hj. apply backoff_step. }
    assert (Hnb1 : w_next_batch w1 = next_batch st1).
    { rewrite Hs, Hc. destruct resp as [data|e]; cbn [is_raised]; [done|].
      cbn [cursor_after]. exact Hnb. }
    destruct (IH st1 w1 _ Hj1 Hnb1)
      as (w' & st' & tr & Hrun' & Htr' & Hrq' & Hsl' & Hc' & Hs').
    exists w', st', (tr1 ++ tr). split; [exact Hrun'|].
    split; [by rewrite Htr', Htr, app_assoc|].
    unfold requests, sleeps in *. rewrite !omap_app, Hrq, Hsl, Hrq', Hsl'.
    rewrite Hc in *. split; [reflexivity|]. split.
    + destruct resp as [data|e]; cbn [is_raised sleep_plan app]; by rewrite ?Hj.
    + by split.
Qed.

Lemma start_prologue s w :
  exists w0,
    run_internal_event s SYNC_STARTED None [] w = (w0, Ok tt)
    /\ w_next_batch w0 = w_next_batch w
    /\ exists tr0, w_trace w0 = w_trace w ++ tr0
                   /\ Forall (fun e => calm e = true) tr0.
Proof.
  unfold run_internal_event. rewrite bind_run, dispatch_manual_event_run.
  cbn zeta. unfold gather, emit. cbn.
  eexists. split; [reflexivity|]. split; [reflexivity|].
  eexists. split; [by rewrite <- app_assoc|].
  apply Forall_app. split; [apply calm_create_tasks | by repeat constructor].
Qed.

Lemma start_goes_on s resps w :
  Forall (fun resp => harmless resp = true) resps ->
  exists w' st' tr,
    _start s resps w = (w', Ok st')
    /\ w_trace w' = w_trace w ++ tr
    /\ requests tr = cursors (w_next_batch w) resps
    /\ next_batch st' = foldl cursor_after (w_next_batch w) resps
    /\ w_next_batch w' = foldl cursor_after (w_next_batch w) resps.
Proof.
  intros Hall. unfold _start. rewrite bind_run. unfold get_next_batch.
  rewrite bind_run.
  destruct (start_prologue s w) as (w0 & Hpro & Hnb0 & tr0 & Htr0 & Hcalm0).
  rewrite Hpro.
  destruct (harmless_run s resps (MkLoop 5 true (w_next_batch w)) w0 0%nat
              Hall eq_refl Hnb0)
    as (w' & st' & tr & Hrun & Htr & Hrq & Hsl & Hc & Hs).
  cbn [next_batch] in *.
  exists w', st', (tr0 ++ tr). split; [exact Hrun|].
  split; [by rewrite Htr, Htr0, app_assoc|].
  destruct (calm_projections _ Hcalm0) as [_ Hr0].
  unfold requests in *. rewrite omap_app, Hr0, Hrq.
  split; [reflexivity|]. split; [exact Hc|]. by rewrite Hs.
Qed.

(** X2. In a run of [_start] whose requests all come back with a JSON
    object or fail with a transient error, the loop is still polling at the
    end, each request was made with the [next_batch] of the latest accepted
    response (null when that response had none, the stored cursor before the
    first one), and the store and the loop hold that same cursor. *)
Theorem run_resumes_from_latest_cursor
    (s : Syncer) (resps : list SyncResult) (w : World) :
  Forall (fun resp => harmless resp = true) resps ->
  exists w' st' tr,
    _start s resps w = (w', Ok st')
    /\ w_trace w' = w_trace w ++ tr
    /\ requests tr = cursors (w_next_batch w) resps
    /\ next_batch st' = foldl cursor_after (w_next_batch w) resps
    /\ w_next_batch w' = foldl cursor_after (w_next_batch w) resps.
Proof. apply start_goes_on. Qed.

Lemma sleep_plan_bounds j resps :
  Forall (fun n => 5 <= n <= 320) (sleep_plan j resps).
Proof.
  revert j. induction resps as [|[data|e] resps IH]; intros j; simpl.
  - constructor.
  - apply IH.
  - constructor; [|apply IH]. unfold backoff.
    assert (0 < 2 ^ Z.of_nat j) by (apply Z.pow_pos_nonneg; lia). lia.
Qed.

Lemma sleep_plan_length j resps :
  length (sleep_plan j resps) = length (filter (fun r => is_raised r = true) resps).
Proof.
  revert j. induction resps as [|[data|e] resps IH]; intros j.
  - done.
  - rewrite filter_cons. cbn [sleep_plan is_raised].
    case_decide; [done|]. apply IH.
  - rewrite filter_cons. cbn [sleep_plan is_raised].
    case_decide; [|done]. cbn [length]. by rewrite IH.
Qed.

(** X3. In such a run the loop sleeps once per failed request and at no
    other time; the sleep after the [k]-th failure in a row is
    [min (5 * 2^k) 320] seconds, counting from 0 at the start and after
    every accepted response; so every sleep lasts between 5 and 320
    seconds. *)
Theorem run_sleeps_follow_backoff
    (s : Syncer) (resps : list SyncResult) (w : World) :
  Forall (fun resp => harmless resp = true) resps ->
  exists w' st' tr,
    _start s resps w = (w', Ok st')
    /\ w_trace w' = w_trace w ++ tr
    /\ sleeps tr = sleep_plan 0 resps
    /\ length (sleeps tr)
       = length (filter (fun r => is_raised r = true) resps)
    /\ Forall (fun n => 5 <= n <= 320) (sleeps tr).
Proof.
  intros Hall. unfold _start. rewrite bind_run. unfold get_next_batch.
  rewrite bind_run.
  destruct (start_prologue s w) as (w0 & Hpro & Hnb0 & tr0 & Htr0 & Hcalm0).
  rewrite Hpro.
  destruct (harmless_run s resps (MkLoop 5 true (w_next_batch w)) w0 0%nat
              Hall eq_refl Hnb0)
    as (w' & st' & tr & Hrun & Htr & Hrq & Hsl & Hc & Hs).
  exists w', st', (tr0 ++ tr). split; [exact Hrun|].
  split; [by rewrite Htr, Htr0, app_assoc|].
  destruct (calm_projections _ Hcalm0) as [Hs0 _].
  assert (Heq : sleeps (tr0 ++ tr) = sleep_plan 0 resps).
  { unfold sleeps in *. by rewrite omap_app, Hs0, Hsl. }
  rewrite Heq. split; [reflexivity|].
  split; [apply sleep_plan_length | apply sleep_plan_bounds].
Qed.

End Runs.

(** ** The end of a run *)

Section Stops.

Context `{C : Codec}.

Lemma sync_iteration_fatal s st resp e w :
  fatal_error resp = Some e ->
  sync_iteration s st resp w
  = (MkWorld (w_trace w ++ [ESync (next_batch st)]) (w_tasks w)
             (w_next_batch w) (w_time_reads w), Raise e).
Proof.
  intros Hf. destruct resp as [data|e'].
  - destruct data; try discriminate Hf; injection Hf as <-; reflexivity.
  - destruct e'; try discriminate Hf; injection Hf as <-; reflexivity.
Qed.

Lemma start_fatal s pre f rest e w :
  Forall (fun resp => harmless resp = true) pre ->
  fatal_error f = Some e ->
  exists w1 st1 tr,
    _start s pre w = (w1, Ok st1)
    /\ w_trace w1 = w_trace w ++ tr
    /\ requests tr = cursors (w_next_batch w) pre
    /\ next_batch st1 = foldl cursor_after (w_next_batch w) pre
    /\ w_next_batch w1 = foldl cursor_after (w_next_batch w) pre
    /\ _start s (pre ++ f :: rest) w
       = (MkWorld (w_trace w1 ++ [ESync (next_batch st1)]) (w_tasks w1)
                  (w_next_batch w1) (w_time_reads w1), Raise e).
Proof.
  intros Hpre Hf.
  destruct (start_goes_on s pre w Hpre)
    as (w1 & st1 & tr & Hrun & Htr & Hrq & Hc & Hs).
  exists w1, st1, tr. repeat (split; [assumption|]).
  unfold _start in *. rewrite bind_run in *. unfold get_next_batch in *.
  rewrite bind_run in *.
  destruct (run_internal_event s SYNC_STARTED None [] w) as [w0 [[]|e0]];
    [|discriminate Hrun].
  rewrite sync_loop_app, bind_run, Hrun. cbn [sync_loop].
  rewrite bind_run. by rewrite (sync_iteration_fatal _ _ _ e).
Qed.

(** X4. A cancellation, an invalidated token or a response that is no JSON
    object ends [_start]: after any number of turns that let it go on, the
    request that comes back so is the last effect of the loop, the exception
    leaves [_start] (a [TypeError] for the response that is no object),
    nothing of that response reaches the store or a handler, and what would
    have come after plays no part. *)
Theorem fatal_outcome_ends_the_loop
    (s : Syncer) (pre rest : list SyncResult) (f : SyncResult) (e : PyExc)
    (w : World) :
  Forall (fun resp => harmless resp = true) pre ->
  fatal_error f = Some e ->
  exists w1 st1 w',
    _start s pre w = (w1, Ok st1)
    /\ _start s (pre ++ f :: rest) w = (w', Raise e)
    /\ _start s (pre ++ [f]) w = (w', Raise e)
    /\ w_trace w' = w_trace w1 ++ [ESync (next_batch st1)]
    /\ w_tasks w' = w_tasks w1
    /\ w_next_batch w' = foldl cursor_after (w_next_batch w) pre.
Proof.
  intros Hpre Hf.
  destruct (start_fatal s pre f rest e w Hpre Hf)
    as (w1 & st1 & tr & Hrun & Htr & Hrq & Hc & Hs & Hend).
  destruct (start_fatal s pre f [] e w Hpre Hf)
    as (w1' & st1' & tr' & Hrun' & _ & _ & _ & _ & Hend').
  rewrite Hrun in Hrun'. injection Hrun' as <- <-.
  eexists w1, st1, _. split; [exact Hrun|]. split; [exact Hend|].
  split; [exact Hend'|]. by repeat split.
Qed.

(** X5. When such an outcome ends the loop, [_try_start] returns after
    telling the handlers of [SYNC_STOPPED]: they are invoked once each with
    [error] set to the exception, or to [None] for a cancellation, which is
    not logged; those to be waited for are awaited; nothing else follows. *)
Theorem try_start_reports_the_stop
    (s : Syncer) (pre rest : list SyncResult) (f : SyncResult) (e : PyExc)
    (w : World) :
  Forall (fun resp => harmless resp = true) pre ->
  fatal_error f = Some e ->
  exists w1,
    _start s (pre ++ f :: rest) w = (w1, Raise e)
    /\ _try_start s None (pre ++ f :: rest) w = (after_stop s e w1, Ok None)
    /\ stop_error e = match f with
                       | Raised CancelledError => None
                       | _ => Some e
                       end.
Proof.
  intros Hpre Hf.
  destruct (start_fatal s pre f rest e w Hpre Hf)
    as (w1 & st1 & tr & Hrun & Htr & Hrq & Hc & Hs & Hend).
  eexists. split; [exact Hend|]. split.
  - unfold _try_start. rewrite bind_run. unfold ret at 1.
    rewrite Hend.
    assert (He : e = CancelledError \/ e = MUnknownToken \/ e = TypeError).
    { destruct f as [[]|[]]; simpl in Hf; try discriminate Hf;
        injection Hf as <-; auto. }
    destruct He as [->|[->| ->]];
      (rewrite ?bind_run; cbn [is_Exception];
       unfold emit; rewrite ?bind_run;
       unfold run_internal_event; rewrite bind_run;
       rewrite dispatch_manual_event_run; cbn zeta;
       unfold gather, emit, ret, after_stop, stop_error, internal_payload;
       cbn; rewrite <- ?app_assoc; reflexivity).
  - destruct f as [[]|[]]; simpl in Hf; try discriminate Hf;
      injection Hf as <-; reflexivity.
Qed.

(** X6. When [create_filter] fails, the loop is never entered: there is no
    request and no [SYNC_STARTED]; the handlers of [SYNC_STOPPED] are told
    the error (or [None] for a cancellation) and [_try_start] returns. When
    it succeeds, the run is that of a filter given by its id. *)
Theorem try_start_without_filter
    (s : Syncer) (e : PyExc) (resps : list SyncResult) (w : World) :
  _try_start s (Some (Raise e)) resps w = (after_stop s e w, Ok None)
  /\ requests (w_trace (after_stop s e w)) = requests (w_trace w)
  /\ _try_start s (Some (Ok tt)) resps w = _try_start s None resps w.
Proof.
  split; [|split].
  - unfold _try_start. rewrite bind_run. unfold lift at 1.
    destruct e;
      (rewrite ?bind_run; cbn [is_Exception];
       unfold emit; rewrite ?bind_run;
       unfold run_internal_event; rewrite bind_run;
       rewrite dispatch_manual_event_run; cbn zeta;
       unfold gather, emit, ret, after_stop, stop_error, internal_payload;
       cbn; rewrite <- ?app_assoc; reflexivity).
  - unfold after_stop. cbn [w_trace].
    rewrite !requests_app, requests_create_tasks.
    destruct (is_Exception e); cbn; by rewrite app_nil_r.
  - reflexivity.
Qed.

(** X7. A turn whose request fails with a transient error: the error is
    logged, the handlers of [SYNC_ERRORED] are invoked with the error and
    with [sleep_for], those to be waited for are awaited, and the loop then
    sleeps for exactly [sleep_for] seconds; the store, the cursor and
    [is_first] are untouched, and [fail_sleep] doubles unless it has reached
    320. *)
Theorem transient_failure_turn
    (s : Syncer) (st : LoopState) (e : PyExc) (w : World) :
  is_transient e = true ->
  let n := fail_sleep st in
  let invs :=
    invocations (w_tasks w)
      (PKwargs [("error", VError (Some e)); ("sleep_for", VInt n);
                ("source", VSource SyncStream.INTERNAL)])
      (default [] (event_handlers s !! inr SYNC_ERRORED)) in
  sync_iteration s st (Raised e) w
  = (MkWorld (w_trace w
                ++ [ESync (next_batch st);
                    ELogException "Sync request errored"]
                ++ (ECreateTask <$> (fst <$> invs))
                ++ [EGather (waited invs); ESleep n])
             (w_tasks w + length invs) (w_next_batch w) (w_time_reads w),
     Ok (MkLoop (if n <? 320 then n * 2 else n) (is_first st)
                (next_batch st))).
Proof. intros He n invs. by rewrite sync_iteration_raised. Qed.

End Stops.

(** ** More of the classifier *)

Section Sections.

Context `{C : Codec}.

Lemma section_events_absent kvs k :
  Dict.lookup k kvs = None -> section_events (JObj kvs) k = Ok [].
Proof. intros H. unfold section_events. simpl. by rewrite H. Qed.

(** X8. A batch that has none of the six sections ([device_one_time_keys_count],
    [device_lists], [account_data], [ephemeral], [to_device], [rooms]) is
    classified without error: the handlers of the one-time-key count are
    invoked with both counts 0, then those of the device lists with two
    empty lists, and nothing else is started. *)
Theorem handle_sync_without_sections
    (s : Syncer) (kvs : list (string * JSON)) (w : World) :
  Dict.lookup "device_one_time_keys_count" kvs = None ->
  Dict.lookup "device_lists" kvs = None ->
  Dict.lookup "account_data" kvs = None ->
  Dict.lookup "ephemeral" kvs = None ->
  Dict.lookup "to_device" kvs = None ->
  Dict.lookup "rooms" kvs = None ->
  let otk :=
    invocations (w_tasks w) (PDeviceOTKCount (JNum 0) (JNum 0))
      (default [] (event_handlers s !! inr DEVICE_OTK_COUNT)) in
  let dls :=
    invocations (w_tasks w + length otk) (PDeviceLists (JList []) (JList []))
      (default [] (event_handlers s !! inr DEVICE_LISTS)) in
  handle_sync s (JObj kvs) w
  = (after_invocations (after_invocations w otk) dls,
     Ok (waited otk ++ waited dls)).
Proof.
  intros H1 H2 H3 H4 H5 H6 otk dls.
  rewrite handle_sync_after_internal;
    [|unfold dict_or_absent; by rewrite ?H1, ?H2..].
  cbn zeta.
  assert (Hp1 : otk_payload kvs = PDeviceOTKCount (JNum 0) (JNum 0)).
  { unfold otk_payload, field_of. by rewrite H1. }
  assert (Hp2 : device_lists_payload kvs = PDeviceLists (JList []) (JList [])).
  { unfold device_lists_payload, field_of. by rewrite H2. }
  rewrite Hp1, Hp2. fold otk. fold dls.
  unfold handle_top_level, handle_rooms, lift.
  rewrite (section_events_absent kvs "account_data") by done.
  rewrite (section_events_absent kvs "ephemeral") by done.
  rewrite (section_events_absent kvs "to_device") by done.
  cbn [py_get]. rewrite H6. cbn.
  unfold ret. by rewrite !app_nil_r.
Qed.

(** X9. A batch whose [device_one_time_keys_count] is present but is no
    JSON object fails at the first step of the classification: [handle_sync]
    raises [AttributeError] before any handler is invoked, so the batch
    reaches no handler but those of the sync-successful event; the turn of
    the loop logs the error and goes on with the cursor of the batch. *)
Theorem malformed_otk_section_drops_the_batch
    (s : Syncer) (st : LoopState) (kvs : list (string * JSON)) (x : JSON)
    (w : World) :
  Dict.lookup "device_one_time_keys_count" kvs = Some x ->
  is_dict x = false ->
  suppressed s st = false ->
  let w0 := after_accept s st kvs w in
  handle_sync s (JObj kvs) w = (w, Raise AttributeError)
  /\ sync_iteration s st (Returned (JObj kvs)) w
     = (MkWorld (w_trace w0 ++ [ELogException "Sync handling errored"])
                (w_tasks w0) (w_next_batch w0) (w_time_reads w0),
        Ok (MkLoop 5 false (default JNull (Dict.lookup "next_batch" kvs)))).
Proof.
  intros Hx Hd Hsup w0.
  assert (Hfail : forall kvs' w',
    Dict.lookup "device_one_time_keys_count" kvs' = Some x ->
    handle_sync s (JObj kvs') w' = (w', Raise AttributeError)).
  { intros kvs' w' Hx'. unfold handle_sync, handle_otk_count, lift.
    rewrite !bind_run. cbn [py_get]. rewrite Hx'. cbn [default from_option id].
    rewrite bind_run. by destruct x. }
  split; [by apply Hfail|].
  rewrite sync_iteration_returned, Hsup. rewrite bind_run.
  unfold classify, try_except. rewrite bind_run.
  unfold augmented. rewrite Hfail; [reflexivity|].
  by rewrite DictFacts.lookup_set_ne.
Qed.

(** The class that [dispatch_event] resolves at the origins of
    [handle_sync]. *)
Lemma resolved_class_at_site (ev : Event Content Stripped Other) src c :
  (src, c) ∈ dispatch_sites ->
  resolved_class ev src
  = match ev_state_key ev with Some _ => EventType.STATE | None => c end.
Proof.
  intros Hin. unfold dispatch_sites in Hin. unfold resolved_class.
  repeat (apply elem_of_cons in Hin as [[= -> ->]|Hin];
          [by destruct (ev_state_key ev)|]).
  by apply elem_of_nil in Hin.
Qed.

Lemma internal_or_intro (P : Task -> Prop) t : P t -> internal_or P t.
Proof. unfold internal_or. by destruct (task_data t). Qed.

Lemma delivers_handle_otk_count P s data :
  delivers (internal_or P) (handle_otk_count s data).
Proof.
  unfold handle_otk_count.
  apply delivers_lift_bind. intros otk _.
  apply delivers_lift_bind. intros c _.
  apply delivers_lift_bind. intros sc _.
  eapply delivers_weaken; [|apply delivers_dispatch_manual_event].
  intros t Ht. unfold internal_or. by rewrite Ht.
Qed.

Lemma delivers_handle_device_lists P s data :
  delivers (internal_or P) (handle_device_lists s data).
Proof.
  unfold handle_device_lists.
  apply delivers_lift_bind. intros dl _.
  apply delivers_lift_bind. intros ch _.
  apply delivers_lift_bind. intros lf _.
  eapply delivers_weaken; [|apply delivers_dispatch_manual_event].
  intros t Ht. unfold internal_or. by rewrite Ht.
Qed.

(** A loop over the events of a section, when [P] holds of what the body
    starts for each of them. *)
Lemma delivers_section P data section (body : JSON -> M (list Task))
    (k : list Task -> M (list Task)) :
  (forall evs x, section_events data section = Ok evs -> x ∈ evs ->
                 delivers P (body x)) ->
  (forall ts, delivers P (k ts)) ->
  delivers P (evs <- lift (section_events data section) ;;
              ts <- for_tasks body evs ;; k ts).
Proof.
  intros Hbody Hk. apply delivers_lift_bind. intros evs Hevs.
  apply delivers_bind; [|exact Hk].
  apply delivers_for_tasks. intros x Hx. by apply (Hbody evs).
Qed.

(** The same over the rooms of one membership. *)
Lemma delivers_rooms P rooms membership
    (body : string * JSON -> M (list Task))
    (k : list Task -> M (list Task)) :
  (forall items room, room_items rooms membership = Ok items ->
                      room ∈ items -> delivers P (body room)) ->
  (forall ts, delivers P (k ts)) ->
  delivers P (items <- lift (room_items rooms membership) ;;
              ts <- for_tasks body items ;; k ts).
Proof.
  intros Hbody Hk. apply delivers_lift_bind. intros items Hitems.
  apply delivers_bind; [|exact Hk].
  apply delivers_for_tasks. intros x Hx. by apply (Hbody items).
Qed.

Lemma delivers_handle_top_level P s data :
  (forall evs x, section_events data "account_data" = Ok evs -> x ∈ evs ->
     delivers P (handle_plain_event s AccountDataEvent
                   SyncStream.ACCOUNT_DATA x)) ->
  (forall evs x, section_events data "ephemeral" = Ok evs -> x ∈ evs ->
     delivers P (handle_plain_event s EphemeralEvent
                   SyncStream.EPHEMERAL x)) ->
  (forall evs x, section_events data "to_device" = Ok evs -> x ∈ evs ->
     delivers P (handle_plain_event s ToDeviceEvent
                   SyncStream.TO_DEVICE x)) ->
  delivers P (handle_top_level s data).
Proof.
  intros H1 H2 H3. unfold handle_top_level.
  apply delivers_section; [exact H1|]. intros t1.
  apply delivers_section; [exact H2|]. intros t2.
  apply delivers_section; [exact H3|]. intros t3.
  apply delivers_ret.
Qed.

Lemma delivers_handle_joined_room P s rid room_data :
  (forall evs x, section_events room_data "state" = Ok evs -> x ∈ evs ->
     delivers P (handle_room_event s StateEvent
                   (Z.lor SyncStream.JOINED_ROOM SyncStream.STATE) rid x)) ->
  (forall evs x, section_events room_data "timeline" = Ok evs -> x ∈ evs ->
     delivers P (handle_room_event s AnyEvent
                   (Z.lor SyncStream.JOINED_ROOM SyncStream.TIMELINE)
                   rid x)) ->
  delivers P (handle_joined_room s (rid, room_data)).
Proof.
  intros H1 H2. unfold handle_joined_room.
  apply delivers_section; [exact H1|]. intros t1.
  apply delivers_section; [exact H2|]. intros t2.
  apply delivers_ret.
Qed.

Lemma delivers_handle_invited_room s room :
  delivers
    (delivered_as (Z.lor SyncStream.INVITED_ROOM SyncStream.STATE)
                  EventType.MESSAGE)
    (handle_invited_room s room).
Proof.
  destruct room as [rid room_data]. unfold handle_invited_room.
  apply delivers_lift_bind. intros events _.
  apply delivers_bind.
  { apply delivers_for_each. intros x. apply delivers_lift. }
  intros events'.
  apply delivers_lift_bind. intros [[pre raw_invite] post] _.
  apply delivers_lift_bind. intros raw1 _.
  apply delivers_bind; [apply delivers_read_time|]. intros now.
  apply delivers_lift_bind. intros raw2 _.
  apply delivers_bind; [apply delivers_decoded|]. intros invite.
  apply delivers_bind.
  { apply delivers_for_each. intros x. apply delivers_decoded. }
  intros state.
  apply delivers_lift_bind. intros invite' _.
  eapply delivers_weaken; [|apply delivers_dispatch_event].
  intros t Ht. exists (prepared invite' (Z.lor SyncStream.INVITED_ROOM
                                               SyncStream.STATE)).
  split; [exact Ht|]. split; [reflexivity|].
  cbn [prepared ev_type ev_state_key EventType.with_class EventType.t_class].
  unfold resolved_class. by destruct (ev_state_key invite').
Qed.

Lemma delivers_handle_rooms P s data :
  (forall rooms items room,
     py_get data "rooms" (JObj []) = Ok rooms ->
     room_items rooms "join" = Ok items -> room ∈ items ->
     delivers P (handle_joined_room s room)) ->
  (forall rooms items room,
     py_get data "rooms" (JObj []) = Ok rooms ->
     room_items rooms "invite" = Ok items -> room ∈ items ->
     delivers P (handle_invited_room s room)) ->
  (forall rooms items room,
     py_get data "rooms" (JObj []) = Ok rooms ->
     room_items rooms "leave" = Ok items -> room ∈ items ->
     delivers P (handle_left_room s room)) ->
  delivers P (handle_rooms s data).
Proof.
  intros H1 H2 H3. unfold handle_rooms.
  apply delivers_lift_bind. intros rooms Hrooms.
  apply delivers_rooms;
    [intros items room Hi Hx; by apply (H1 rooms items)|].
  intros t1.
  apply delivers_rooms;
    [intros items room Hi Hx; by apply (H2 rooms items)|].
  intros t2.
  apply delivers_rooms;
    [intros items room Hi Hx; by apply (H3 rooms items)|].
  intros t3.
  apply delivers_ret.
Qed.

Lemma delivers_handle_sync P s data :
  delivers (internal_or P) (handle_top_level s data) ->
  delivers (internal_or P) (handle_rooms s data) ->
  delivers (internal_or P) (handle_sync s data).
Proof.
  intros H1 H2. unfold handle_sync.
  apply delivers_bind; [apply delivers_handle_otk_count|]. intros t1.
  apply delivers_bind; [apply delivers_handle_device_lists|]. intros t2.
  apply delivers_bind; [exact H1|]. intros t3.
  apply delivers_bind; [exact H2|]. intros t4.
  apply delivers_ret.
Qed.

(** An event of a dispatch site, among the tasks of [handle_sync]. *)
Lemma site_event P s d src c raw :
  (src, c) ∈ dispatch_sites ->
  (forall t, delivered_as src c t -> P t) ->
  delivers (internal_or P) (handle_plain_event s d src raw).
Proof.
  intros Hin HP. unfold handle_plain_event.
  eapply delivers_weaken; [|apply (delivers_decoded_event s d src c)].
  - intros t Ht. by apply internal_or_intro, HP.
  - intros ev. by apply resolved_class_at_site.
Qed.

Lemma site_room_event P s d src c rid raw :
  (src, c) ∈ dispatch_sites ->
  (forall t, delivered_as src c t -> P t) ->
  delivers (internal_or P) (handle_room_event s d src rid raw).
Proof.
  intros Hin HP.
  eapply delivers_weaken; [|apply (delivers_handle_room_event s d src c)].
  - intros t Ht. by apply internal_or_intro, HP.
  - intros ev. by apply resolved_class_at_site.
Qed.

(** A section that the batch does not have holds no event, a membership
    that it does not have no room. *)
Ltac no_such_section :=
  let H := fresh "H" in
  let Hx := fresh "Hx" in
  intros ? ? H Hx; vm_compute in H; injection H as <-;
  by apply elem_of_nil in Hx.

Ltac no_such_room :=
  let Hr := fresh "Hr" in
  let H := fresh "H" in
  let Hx := fresh "Hx" in
  intros ? ? ? Hr H Hx; vm_compute in Hr; injection Hr as <-;
  vm_compute in H; injection H as <-;
  by apply elem_of_nil in Hx.

(** The one room of [only_room]. *)
Ltac the_one_room :=
  let Hr := fresh "Hr" in
  let H := fresh "H" in
  let Hx := fresh "Hx" in
  intros ? ? ? Hr H Hx; vm_compute in Hr; injection Hr as <-;
  vm_compute in H; injection H as <-;
  apply list_elem_of_singleton in Hx as ->.

(** X10. The origin and the class of what [handle_sync] dispatches, site by
    site. Of a batch that has one section only, every task that
    [handle_sync] starts is one of its two internal invocations or hands
    over an event with the origin of that section: account data, ephemeral
    or to-device for the three sections of the batch, {joined, state} and
    {joined, timeline} for the two sections of a joined room, {invited,
    state} for an invited room and {left, timeline} for a left one. Such an
    event is of the state class if it has a state key; without one it is of
    the class of its section for the first three, and of the message class
    in a room. Of any batch, every task is an internal invocation or hands
    over an event with one of these seven origins and the class that goes
    with it. *)
Theorem classes_of_the_sections (s : Syncer) (sec : JSON) (rid : string) :
  delivers
    (internal_or (delivered_as SyncStream.ACCOUNT_DATA
                               EventType.ACCOUNT_DATA))
    (handle_sync s (only "account_data" sec))
  /\ delivers
       (internal_or (delivered_as SyncStream.EPHEMERAL EventType.EPHEMERAL))
       (handle_sync s (only "ephemeral" sec))
  /\ delivers
       (internal_or (delivered_as SyncStream.TO_DEVICE EventType.TO_DEVICE))
       (handle_sync s (only "to_device" sec))
  /\ delivers
       (internal_or
          (delivered_as (Z.lor SyncStream.JOINED_ROOM SyncStream.STATE)
                        EventType.MESSAGE))
       (handle_sync s (only_room "join" rid "state" sec))
  /\ delivers
       (internal_or
          (delivered_as (Z.lor SyncStream.JOINED_ROOM SyncStream.TIMELINE)
                        EventType.MESSAGE))
       (handle_sync s (only_room "join" rid "timeline" sec))
  /\ delivers
       (internal_or
          (delivered_as (Z.lor SyncStream.INVITED_ROOM SyncStream.STATE)
                        EventType.MESSAGE))
       (handle_sync s (only_room "invite" rid "invite_state" sec))
  /\ delivers
       (internal_or
          (delivered_as (Z.lor SyncStream.LEFT_ROOM SyncStream.TIMELINE)
                        EventType.MESSAGE))
       (handle_sync s (only_room "leave" rid "timeline" sec))
  /\ (forall data,
        delivers
          (internal_or
             (fun t => exists src c,
                         (src, c) ∈ dispatch_sites /\ delivered_as src c t))
          (handle_sync s data)).
Proof.
  assert (Hsite : forall n src c,
            dispatch_sites !! n = Some (src, c) ->
            (src, c) ∈ dispatch_sites).
  { intros n src c Hn. by apply list_elem_of_lookup_2 in Hn. }
  repeat split.
  - apply delivers_handle_sync.
    + apply delivers_handle_top_level; [|no_such_section..].
      intros evs x _ _.
      by apply (site_event _ _ _ _ _ _ (Hsite 0%nat _ _ eq_refl)).
    + apply delivers_handle_rooms; no_such_room.
  - apply delivers_handle_sync.
    + apply delivers_handle_top_level; [no_such_section| |no_such_section].
      intros evs x _ _.
      by apply (site_event _ _ _ _ _ _ (Hsite 1%nat _ _ eq_refl)).
    + apply delivers_handle_rooms; no_such_room.
  - apply delivers_handle_sync.
    + apply delivers_handle_top_level; [no_such_section..|].
      intros evs x _ _.
      by apply (site_event _ _ _ _ _ _ (Hsite 2%nat _ _ eq_refl)).
    + apply delivers_handle_rooms; no_such_room.
  - apply delivers_handle_sync.
    + apply delivers_handle_top_level; no_such_section.
    + apply delivers_handle_rooms; [|no_such_room..].
      the_one_room. apply delivers_handle_joined_room; [|no_such_section].
      intros evs x _ _.
      by apply (site_room_event _ _ _ _ _ _ _ (Hsite 3%nat _ _ eq_refl)).
  - apply delivers_handle_sync.
    + apply delivers_handle_top_level; no_such_section.
    + apply delivers_handle_rooms; [|no_such_room..].
      the_one_room. apply delivers_handle_joined_room; [no_such_section|].
      intros evs x _ _.
      by apply (site_room_event _ _ _ _ _ _ _ (Hsite 4%nat _ _ eq_refl)).
  - apply delivers_handle_sync.
    + apply delivers_handle_top_level; no_such_section.
    + apply delivers_handle_rooms; [no_such_room| |no_such_room].
      intros rooms items room _ _ _.
      eapply delivers_weaken; [|apply delivers_handle_invited_room].
      apply internal_or_intro.
  - apply delivers_handle_sync.
    + apply delivers_handle_top_level; no_such_section.
    + apply delivers_handle_rooms; [no_such_room..|].
      intros rooms items room _ _ _.
      eapply delivers_weaken; [|apply delivers_handle_left_room].
      apply internal_or_intro.
  - intros data.
    assert (Hany : forall n src c,
              dispatch_sites !! n = Some (src, c) ->
              forall t, delivered_as src c t ->
                        exists src' c', (src', c') ∈ dispatch_sites
                                        /\ delivered_as src' c' t).
    { intros n src c Hn t Ht. exists src, c. split; [by eapply Hsite|done]. }
    apply delivers_handle_sync.
    + apply delivers_handle_top_level; intros evs x _ _.
      * apply (site_event _ _ _ _ _ _ (Hsite 0%nat _ _ eq_refl)).
        apply (Hany 0%nat). reflexivity.
      * apply (site_event _ _ _ _ _ _ (Hsite 1%nat _ _ eq_refl)).
        apply (Hany 1%nat). reflexivity.
      * apply (site_event _ _ _ _ _ _ (Hsite 2%nat _ _ eq_refl)).
        apply (Hany 2%nat). reflexivity.
    + apply delivers_handle_rooms; intros rooms items room _ _ _.
      * destruct room as [r room_data].
        apply delivers_handle_joined_room; intros evs x _ _.
        -- apply (site_room_event _ _ _ _ _ _ _ (Hsite 3%nat _ _ eq_refl)).
           apply (Hany 3%nat). reflexivity.
        -- apply (site_room_event _ _ _ _ _ _ _ (Hsite 4%nat _ _ eq_refl)).
           apply (Hany 4%nat). reflexivity.
      * eapply delivers_weaken; [|apply delivers_handle_invited_room].
        intros t Ht. apply internal_or_intro.
        by apply (Hany 5%nat _ _ eq_refl).
      * eapply delivers_weaken; [|apply delivers_handle_left_room].
        intros t Ht. apply internal_or_intro.
        by apply (Hany 6%nat _ _ eq_refl).
Qed.

Lemma for_each_with_room_id rid events w :
  Forall (fun raw => is_dict raw = true) events ->
  for_each (fun raw => lift (py_setitem raw "room_id" (JStr rid))) events w
  = (w, Ok (with_room_id rid <$> events)).
Proof.
  intros H. induction H as [|raw events Hraw Hevs IH]; [done|].
  destruct raw as [| | | | |kvs]; try discriminate Hraw.
  cbn [for_each]. rewrite bind_run. unfold lift at 1. cbn [py_setitem].
  rewrite bind_run, IH. reflexivity.
Qed.

Lemma is_invite_of_with_room_id user rid raw :
  is_invite_of user (with_room_id rid raw) = is_invite_of user raw.
Proof.
  destruct raw; try reflexivity. simpl.
  by rewrite !DictFacts.lookup_set_ne.
Qed.

Lemma find_invite_split user pre inv post :
  Forall (fun raw => is_invite_of user raw = Ok false) pre ->
  is_invite_of user inv = Ok true ->
  find_invite user (pre ++ inv :: post) = Ok (pre, inv, post).
Proof.
  intros Hpre Hinv. induction Hpre as [|raw pre Hraw Hpre IH]; simpl.
  - by rewrite Hinv.
  - by rewrite Hraw, IH.
Qed.

Lemma for_each_decoded {A B} (f : A -> option B) l w :
  for_each (fun x => decoded (f x)) l w
  = (w, match mapM f l with
        | Some l' => Ok l'
        | None => Raise SerializerError
        end).
Proof.
  induction l as [|x l IH]; [done|].
  cbn [for_each]. rewrite bind_run. unfold decoded at 1, lift at 1.
  cbn [mapM]. destruct (f x) as [y|]; [|done].
  rewrite bind_run, IH. cbn. by destruct (mapM f l).
Qed.

(** X11. An invited room whose invite state holds the membership event of
    the local user among other events: the first such event is the invite;
    it is decoded with the room id, with its own [event_id] and
    [origin_server_ts] when it has them and with null and the time of the
    clock otherwise; the other events, given the room id and decoded as
    stripped state events in their order, become its [invite_room_state],
    but for those equal to the invite as it is decoded; the room yields one
    dispatch, with the origin {invited, state}. All this if the decoded
    invite has an [unsigned]: if that is [None], the room raises
    [AttributeError] once the other events are decoded, and dispatches
    nothing. *)
Theorem invited_room_with_stripped_state
    (s : Syncer) (rid : string) (room_data : JSON) (pre post : list JSON)
    (kvs : list (string * JSON)) (ev : Event Content Stripped Other)
    (stripped : list Stripped) (w : World) :
  section_events room_data "invite_state" = Ok (pre ++ JObj kvs :: post) ->
  Forall (fun raw => is_invite_of (mxid s) raw = Ok false) pre ->
  is_invite_of (mxid s) (JObj kvs) = Ok true ->
  Forall (fun raw => is_dict raw = true) post ->
  let now := time_ms (w_time_reads w) in
  let invite_kvs :=
    Dict.setdefault "origin_server_ts" (JNum now)
      (Dict.setdefault "event_id" JNull
         (Dict.set "room_id" (JStr rid) kvs)) in
  let others :=
    filter (fun raw => negb (py_eq raw (JObj invite_kvs)))
           (with_room_id rid <$> (pre ++ post)) in
  deserialize StateEvent (JObj invite_kvs) = Some ev ->
  mapM deserialize_stripped others = Some stripped ->
  handle_invited_room s (rid, room_data) w
  = match ev_unsigned ev with
    | None => (after_clock_read w, Raise AttributeError)
    | Some _ =>
        dispatch_event s (invite_with stripped ev)
          (Z.lor SyncStream.INVITED_ROOM SyncStream.STATE)
          (after_clock_read w)
    end
  /\ Dict.lookup "room_id" invite_kvs = Some (JStr rid)
  /\ Dict.lookup "event_id" invite_kvs
     = Some (default JNull (Dict.lookup "event_id" kvs))
  /\ Dict.lookup "origin_server_ts" invite_kvs
     = Some (default (JNum now) (Dict.lookup "origin_server_ts" kvs)).
Proof.
  intros Hevs Hpre Hinv Hpost now invite_kvs others Hdec Hstr.
  set (kvs1 := Dict.set "room_id" (JStr rid) kvs) in *.
  assert (Hdicts : Forall (fun raw => is_dict raw = true)
                     (pre ++ JObj kvs :: post)).
  { apply Forall_app. split.
    - eapply Forall_impl; [exact Hpre|]. intros [] H; by try discriminate H.
    - by constructor. }
  split; [|split; [|split]].
  - unfold handle_invited_room. rewrite bind_run. unfold lift at 1.
    rewrite Hevs. rewrite bind_run, for_each_with_room_id by done.
    rewrite fmap_app, fmap_cons. cbn [with_room_id]. fold kvs1.
    rewrite bind_run. unfold lift at 1.
    rewrite find_invite_split.
    2:{ apply Forall_fmap. eapply Forall_impl; [exact Hpre|].
        intros raw Hraw. simpl. by rewrite is_invite_of_with_room_id. }
    2:{ rewrite <- Hinv. apply (is_invite_of_with_room_id _ rid (JObj kvs)). }
    cbn beta iota zeta.
    rewrite bind_run. unfold lift at 1. cbn [py_setdefault].
    rewrite bind_run. unfold read_time at 1.
    fold (after_clock_read w). fold now.
    rewrite bind_run. unfold lift at 1. cbn [py_setdefault].
    fold invite_kvs.
    rewrite bind_run. unfold decoded at 1, lift at 1. rewrite Hdec.
    rewrite bind_run, for_each_decoded.
    rewrite <- fmap_app. fold others. rewrite Hstr.
    rewrite bind_run. unfold lift at 1, set_invite_room_state.
    destruct (ev_unsigned ev); reflexivity.
  - unfold invite_kvs, Dict.setdefault.
    assert (Hr : Dict.lookup "room_id" kvs1 = Some (JStr rid))
      by apply DictFacts.lookup_set_eq.
    destruct (Dict.lookup "event_id" kvs1) eqn:E1;
      [|rewrite !DictFacts.lookup_app, ?Hr, ?E1; cbn];
      (destruct (Dict.lookup "origin_server_ts" _) eqn:E2;
       rewrite ?DictFacts.lookup_app, ?Hr; done).
  - unfold invite_kvs.
    assert (He : Dict.lookup "event_id" kvs1 = Dict.lookup "event_id" kvs)
      by (unfold kvs1; by rewrite DictFacts.lookup_set_ne).
    assert (H1 : Dict.lookup "event_id" (Dict.setdefault "event_id" JNull kvs1)
                 = Some (default JNull (Dict.lookup "event_id" kvs))).
    { rewrite <- He. destruct (Dict.lookup "event_id" kvs1) eqn:E1.
      - unfold Dict.setdefault. by rewrite E1, E1.
      - by rewrite DictFacts.lookup_setdefault_absent. }
    unfold Dict.setdefault at 1.
    destruct (Dict.lookup "origin_server_ts" _); [done|].
    by rewrite DictFacts.lookup_app, H1.
  - unfold invite_kvs.
    set (d := Dict.setdefault "event_id" JNull kvs1).
    assert (Ht : Dict.lookup "origin_server_ts" d
                 = Dict.lookup "origin_server_ts" kvs).
    { unfold d, Dict.setdefault.
      destruct (Dict.lookup "event_id" kvs1);
        rewrite ?DictFacts.lookup_app; unfold kvs1;
        rewrite DictFacts.lookup_set_ne by done;
        by destruct (Dict.lookup "origin_server_ts" kvs). }
    rewrite <- Ht. destruct (Dict.lookup "origin_server_ts" d) eqn:E1.
    + unfold Dict.setdefault. by rewrite E1, E1.
    + by rewrite DictFacts.lookup_setdefault_absent.
Qed.

End Sections.

(** ** More of the registry *)

Section Registry.

Lemma list_remove_None `{EqDecision A} (x : A) l :
  list_remove x l = None <-> x ∉ l.
Proof.
  induction l as [|y l IH]; simpl.
  - split; [intros _; apply not_elem_of_nil | done].
  - destruct (decide (y = x)) as [->|Hne].
    + split; [done|]. intros Hx. exfalso. apply Hx. left.
    + rewrite not_elem_of_cons. destruct (list_remove x l); simpl.
      * split; [done|]. intros [_ Hx]. by apply IH in Hx.
      * split; [|done]. intros _. split; [done|]. by apply IH.
Qed.

Lemma list_remove_filter `{EqDecision A} (P : A -> Prop)
    `{!forall y, Decision (P y)} (x : A) l l' :
  list_remove x l = Some l' -> ~ P x -> filter P l' = filter P l.
Proof.
  revert l'. induction l as [|y l IH]; intros l' Hr Hx; [done|].
  simpl in Hr. destruct (decide (y = x)) as [->|Hne].
  - injection Hr as <-. rewrite filter_cons. by rewrite decide_False.
  - destruct (list_remove x l) as [l0|]; [|done]. injection Hr as <-.
    rewrite !filter_cons, (IH l0 eq_refl Hx). done.
Qed.

Lemma list_remove_count (e x : HandlerEntry) l l' :
  list_remove x l = Some l' ->
  (count_entry e l' + (if decide (e = x) then 1 else 0))%nat = count_entry e l.
Proof.
  unfold count_entry. revert l'.
  induction l as [|y l IH]; intros l' H; [done|].
  simpl in H. destruct (decide (y = x)) as [->|Hne].
  - injection H as <-. rewrite filter_cons.
    destruct (decide (e = x)) as [->|He].
    + rewrite decide_True by done. simpl. lia.
    + rewrite decide_False by done. lia.
  - destruct (list_remove x l) as [l0|]; [|done]. injection H as <-.
    rewrite !filter_cons. specialize (IH l0 eq_refl).
    destruct (decide (y = e)); simpl; lia.
Qed.

Lemma count_entry_absent (e : HandlerEntry) l :
  e ∉ l -> count_entry e l = 0%nat.
Proof.
  unfold count_entry. induction l as [|y l IH]; intros He; [done|].
  apply not_elem_of_cons in He as [Hne Hl]. rewrite filter_cons.
  rewrite decide_False by congruence. by apply IH.
Qed.

Lemma list_remove_snoc `{EqDecision A} (x : A) l :
  x ∉ l -> list_remove x (l ++ [x]) = Some l.
Proof.
  induction l as [|y l IH]; intros Hx; simpl.
  - by rewrite decide_True.
  - apply not_elem_of_cons in Hx as [Hne Hl].
    rewrite decide_False by done. by rewrite IH.
Qed.

(** The handler list under [key] after a removal, from the list before. *)
Lemma handlers_at_remove s key h :
  handlers_at (remove_event_handler s key h) key
  = match list_remove (h, true) (handlers_at s key) with
    | None => handlers_at s key
    | Some l1 => default l1 (list_remove (h, false) l1)
    end.
Proof.
  unfold handlers_at, remove_event_handler, HandlerEntry.
  destruct (decide (key = inl EventType.ALL)) as [Hk|Hk].
  - destruct (list_remove (h, true) (global_event_handlers s)) as [l1|];
      [|done].
    by destruct (list_remove (h, false) l1).
  - match goal with
    | |- context [@lookup ?K ?V ?M ?I key (event_handlers s)] =>
        destruct (@lookup K V M I key (event_handlers s)) as [l|] eqn:El
    end; [|by rewrite ?El].
    cbn [default from_option id].
    destruct (list_remove (h, true) l) as [l1|]; [|by rewrite ?El].
    destruct (list_remove (h, false) l1) as [l2|] eqn:E2;
      cbn [default from_option id].
    + destruct l2; cbn [length Nat.eqb set_handlers event_handlers].
      * by rewrite lookup_delete_eq.
      * by rewrite lookup_insert_eq.
    + cbn [set_handlers event_handlers]. by rewrite lookup_insert_eq.
Qed.

Lemma handlers_at_remove_ne s key h key' :
  key' <> key ->
  handlers_at (remove_event_handler s key h) key' = handlers_at s key'.
Proof.
  intros Hne. unfold handlers_at, remove_event_handler, HandlerEntry.
  destruct (decide (key = inl EventType.ALL)) as [Hk|Hk].
  - subst key. repeat case_decide; try done.
    destruct (list_remove (h, true) (global_event_handlers s)) as [l1|];
      [|done].
    by destruct (list_remove (h, false) l1).
  - match goal with
    | |- context [@lookup ?K ?V ?M ?I key (event_handlers s)] =>
        destruct (@lookup K V M I key (event_handlers s)) as [l|] eqn:El
    end; [|done].
    destruct (list_remove (h, true) l) as [l1|]; [|done].
    destruct (list_remove (h, false) l1) as [l2|] eqn:E2; simpl.
    + destruct l2; simpl; repeat case_decide; try done;
        by rewrite ?lookup_delete_ne, ?lookup_insert_ne.
    + repeat case_decide; try done; by rewrite ?lookup_insert_ne.
Qed.

(** X12. [remove_event_handler] touches nothing but entries of the handler
    it is given, under the type it is given: the lists of the other types
    are unchanged, and under that type the entries of every other handler
    stay, in their order. *)
Theorem remove_event_handler_spares_the_others
    (s : Syncer) (key key' : EvKey) (h : Handler) :
  filter (fun e => fst e <> h)
         (handlers_at (remove_event_handler s key h) key')
  = filter (fun e => fst e <> h) (handlers_at s key')
  /\ (key' <> key ->
      handlers_at (remove_event_handler s key h) key' = handlers_at s key').
Proof.
  split; [|apply handlers_at_remove_ne].
  destruct (decide (key' = key)) as [->|Hne];
    [|by rewrite handlers_at_remove_ne].
  rewrite handlers_at_remove.
  destruct (list_remove (h, true) (handlers_at s key)) as [l1|] eqn:E1;
    [|done].
  rewrite <- (list_remove_filter _ _ _ _ E1) by (simpl; tauto).
  destruct (list_remove (h, false) l1) as [l2|] eqn:E2; simpl; [|done].
  apply (list_remove_filter _ _ _ _ E2). simpl. tauto.
Qed.

(** X13. What [remove_event_handler] removes: nothing at all when the
    handler has no entry with the wait flag under the type; otherwise one
    entry with the wait flag and, if there is one, one entry without it;
    further entries of the handler stay registered. *)
Theorem remove_event_handler_removes_one_per_flag
    (s : Syncer) (key : EvKey) (h : Handler) :
  let before := handlers_at s key in
  let after := handlers_at (remove_event_handler s key h) key in
  if decide ((h, true) ∈ before)
  then S (count_entry (h, true) after) = count_entry (h, true) before
       /\ count_entry (h, false) after
          = Nat.pred (count_entry (h, false) before)
  else after = before.
Proof.
  intros before after. unfold after. rewrite handlers_at_remove.
  fold before.
  destruct (list_remove (h, true) before) as [l1|] eqn:E1.
  - rewrite decide_True.
    2:{ destruct (decide ((h, true) ∈ before)) as [|Hn]; [done|].
        apply list_remove_None in Hn. congruence. }
    pose proof (list_remove_count (h, true) _ _ _ E1) as Ht.
    pose proof (list_remove_count (h, false) _ _ _ E1) as Hf.
    rewrite decide_True in Ht by done.
    rewrite decide_False in Hf by congruence.
    destruct (list_remove (h, false) l1) as [l2|] eqn:E2; simpl.
    + pose proof (list_remove_count (h, true) _ _ _ E2) as Ht2.
      pose proof (list_remove_count (h, false) _ _ _ E2) as Hf2.
      rewrite decide_False in Ht2 by congruence.
      rewrite decide_True in Hf2 by done. lia.
    + split; [lia|].
      apply list_remove_None in E2.
      pose proof (count_entry_absent _ _ E2) as Hz. lia.
  - rewrite decide_False; [done|]. by apply list_remove_None.
Qed.

Lemma handlers_at_add s key h wt key' :
  handlers_at (add_event_handler s key h wt) key'
  = handlers_at s key' ++ (if decide (key = key') then [(h, wt)] else []).
Proof.
  unfold handlers_at.
  destruct (decide (key' = inl EventType.ALL)) as [->|Hk'].
  - rewrite add_event_handler_global.
    destruct (decide (key = inl EventType.ALL)); done.
  - by rewrite add_event_handler_lookup.
Qed.

(** The syncer after a handler that was not registered under [key] was
    added there with the wait flag and removed again. *)
Lemma add_then_remove_state s key h :
  (forall wt, (h, wt) ∉ handlers_at s key) ->
  remove_event_handler (add_event_handler s key h true) key h
  = if decide (key = inl EventType.ALL) then s
    else set_handlers
           (<[key := default [] (event_handlers s !! key)]>
              (event_handlers s)) s.
Proof.
  intros Hfresh. unfold handlers_at in Hfresh.
  unfold add_event_handler, remove_event_handler.
  destruct (decide (key = inl EventType.ALL)) as [Hk|Hk].
  - cbn [set_global global_event_handlers].
    rewrite list_remove_snoc by apply Hfresh.
    rewrite (proj2 (list_remove_None (h, false) (global_event_handlers s)))
      by apply Hfresh.
    by destruct s.
  - cbn [set_handlers event_handlers]. rewrite lookup_insert_eq.
    rewrite list_remove_snoc by apply Hfresh.
    rewrite (proj2 (list_remove_None (h, false)
                      (default [] (event_handlers s !! key))))
      by apply Hfresh.
    unfold set_handlers. cbn [mxid global_event_handlers event_handlers
                              ignore_initial_sync ignore_first_sync].
    by rewrite insert_insert_eq.
Qed.

(** X14. A handler that has no entry under a type, registered there with
    [wait_sync=True] and then removed, leaves every handler list as it was
    before the registration, as far as a dispatch reads it: the global list
    is restored as it was; under an event type the second [remove] raises
    before the [del] is reached, so the type keeps its list, which is empty
    if the type had none before. *)
Theorem add_waiting_then_remove_restores
    (s : Syncer) (key key' : EvKey) (h : Handler) :
  (forall wt, (h, wt) ∉ handlers_at s key) ->
  let s' := remove_event_handler (add_event_handler s key h true) key h in
  handlers_at s' key' = handlers_at s key'
  /\ s' = (if decide (key = inl EventType.ALL) then s
           else set_handlers
                  (<[key := default [] (event_handlers s !! key)]>
                     (event_handlers s)) s)
  /\ (key <> inl EventType.ALL ->
      event_handlers s' !! key = Some (default [] (event_handlers s !! key))).
Proof.
  intros Hfresh s'. split; [|split].
  - unfold s'. destruct (decide (key' = key)) as [->|Hne].
    + rewrite handlers_at_remove, handlers_at_add.
      rewrite decide_True by done.
      rewrite list_remove_snoc by apply Hfresh.
      destruct (list_remove (h, false) (handlers_at s key)) eqn:E; [|done].
      assert (Hn : list_remove (h, false) (handlers_at s key) = None)
        by (apply list_remove_None, Hfresh).
      congruence.
    + rewrite handlers_at_remove_ne by done. rewrite handlers_at_add.
      rewrite decide_False by done. by rewrite app_nil_r.
  - by apply add_then_remove_state.
  - intros Hk. unfold s'. rewrite add_then_remove_state by done.
    rewrite decide_False by done. cbn [set_handlers event_handlers].
    by rewrite lookup_insert_eq.
Qed.

End Registry.

Section InternalEvents.

Context `{C : Codec}.

(** X15. An internal event reaches the handlers registered under its
    internal type and no other: [run_internal_event] invokes them once each
    in the order of their registration, on the custom payload if one is
    given and is true as a condition (an empty dict is not, no more than
    [None]) and on the keyword arguments with [source] = INTERNAL otherwise,
    then waits for those registered with the wait flag; the handlers
    registered under [EventType.ALL] or under an event type are not
    invoked. *)
Theorem internal_events_skip_global_handlers
    (user : string) (regs : list Registration) (it : InternalEventType)
    (custom : option Payload) (kwargs : list (string * KwVal)) (w : World) :
  let s := register regs (init user) in
  let data :=
    match custom with
    | Some (PKwargs []) | None =>
        PKwargs (Dict.set "source" (VSource SyncStream.INTERNAL) kwargs)
    | Some p => p
    end in
  let invs := invocations (w_tasks w) data (entries_for (inr it) regs) in
  run_internal_event s it custom kwargs w
  = (MkWorld (w_trace w ++ (ECreateTask <$> (fst <$> invs))
                       ++ [EGather (waited invs)])
             (w_tasks w + length invs) (w_next_batch w) (w_time_reads w),
     Ok tt)
  /\ dispatch_internal_event s it custom kwargs w
     = (after_invocations w invs, Ok (waited invs)).
Proof.
  intros s data invs.
  assert (Hp : internal_payload custom kwargs = data).
  { unfold internal_payload, data.
    by destruct custom as [[e|c sc|ch lf|[|kv l]]|]. }
  assert (Hd : dispatch_internal_event s it custom kwargs w
               = (after_invocations w invs, Ok (waited invs))).
  { unfold dispatch_internal_event. rewrite dispatch_manual_event_run.
    cbn zeta. unfold s. rewrite register_lookup by done.
    cbn [init event_handlers]. rewrite lookup_empty, Hp. reflexivity. }
  split; [|exact Hd].
  unfold run_internal_event. rewrite bind_run.
  unfold dispatch_internal_event in Hd. rewrite Hd.
  unfold gather, emit, after_invocations. cbn.
  by rewrite <- app_assoc.
Qed.

(** X16. [dispatch_manual_event] with [force_synchronous] returns every
    task it creates, whatever the wait flags; without
    [include_global_handlers] it invokes the handlers of the type only. *)
Theorem forced_dispatch_returns_every_task
    (s : Syncer) (key : EvKey) (data : Payload) (incl : bool) (w : World) :
  let handlers :=
    (if incl then global_event_handlers s else [])
    ++ default [] (event_handlers s !! key) in
  let invs := invocations (w_tasks w) data handlers in
  dispatch_manual_event s key data incl true w
  = (after_invocations w invs, Ok (fst <$> invs))
  /\ created (w_trace (after_invocations w invs))
     = created (w_trace w) ++ (fst <$> invs).
Proof.
  intros handlers invs. split.
  - unfold dispatch_manual_event. rewrite run_handlers_run.
    assert (Hf : forall l : list (Task * bool),
              filter (fun inv => true || snd inv = true) l = l).
    { induction l as [|x l IH]; [done|].
      rewrite filter_cons, decide_True by done. by rewrite IH. }
    rewrite Hf. unfold invs, handlers. by destruct incl.
  - unfold after_invocations. cbn [w_trace].
    by rewrite created_app, created_create_tasks.
Qed.

(** X17. The decorator [on]: a handler given to it directly is appended to
    the global handlers without the wait flag, so every later dispatch of
    an event invokes it after the handlers that were global before and
    before those of the type of the event, and never returns its task; a
    handler decorated with a type is appended to the handlers of that type,
    likewise without the wait flag. *)
Theorem on_registers_without_waiting
    (s : Syncer) (h : Handler) (key : EvKey)
    (ev : Event Content Stripped Other) (src : SyncStream.t) (w : World) :
  let ev' := prepared ev src in
  let typed := default [] (event_handlers s !! inl (ev_type ev')) in
  let invs :=
    invocations (w_tasks w) (PEvent ev')
      (global_event_handlers s ++ (h, false) :: typed) in
  dispatch_event (on_handler s h) ev src w
  = (after_invocations w invs, Ok (waited invs))
  /\ task_handler <$> waited invs
     = fst <$> filter (fun e => snd e = true)
                      (global_event_handlers s ++ typed)
  /\ (forall key', handlers_at (on_type s key h) key'
                   = handlers_at s key'
                     ++ (if decide (key = key') then [(h, false)] else [])).
Proof.
  intros ev' typed invs. split; [|split].
  - unfold dispatch_event. fold ev'. rewrite dispatch_manual_event_run.
    cbn zeta. unfold on_handler. rewrite add_event_handler_global.
    rewrite decide_True by done.
    rewrite add_event_handler_lookup.
    2:{ intros H. apply (prepared_type_not_ALL ev src). fold ev'. congruence. }
    rewrite decide_False.
    2:{ intros H. apply (prepared_type_not_ALL ev src). fold ev'. congruence. }
    rewrite app_nil_r, <- app_assoc. reflexivity.
  - unfold invs. generalize (w_tasks w) as n.
    generalize (PEvent ev') as data.
    assert (Hgen : forall data (l : list HandlerEntry) n,
      task_handler <$> waited (invocations n data l)
      = fst <$> filter (fun e => snd e = true) l).
    { intros data l. induction l as [|[h' wt] l IH]; intros n; [done|].
      rewrite invocations_cons. unfold waited in *.
      rewrite !filter_cons. cbn [snd].
      destruct (decide (wt = true)); cbn; by rewrite IH. }
    intros data n. rewrite !Hgen, !filter_app, filter_cons. cbn [snd].
    by rewrite decide_False.
  - intros key'. apply handlers_at_add.
Qed.

End InternalEvents.

(** ** The task of an invocation *)

Section Handlers.

Context `{C : Codec}.

(** X18. Whatever a handler does, the task that runs it ends normally or by
    a cancellation, never with an [Exception]: an [Exception] of the handler
    is replaced by one entry in the log, after the effects of the handler; a
    cancellation passes through as it is; a handler that returns leaves the
    task without any trace of its own. *)
Theorem catch_errors_contains_the_handler
    (handler : Payload -> M unit) (data : Payload) (w : World) :
  let run := handler data w in
  let task := _catch_errors handler data w in
  (forall e, snd task = Raise e ->
             is_Exception e = false /\ task = run)
  /\ (forall e, snd run = Raise e -> is_Exception e = true ->
        snd task = Ok tt
        /\ w_trace (fst task)
           = w_trace (fst run) ++ [ELogException "Failed to run handler"]
        /\ w_tasks (fst task) = w_tasks (fst run)
        /\ w_next_batch (fst task) = w_next_batch (fst run))
  /\ (forall u, snd run = Ok u -> task = run).
Proof.
  intros run task. unfold task, _catch_errors, try_except. fold run.
  destruct run as [w' [u|e]]; cbn [fst snd].
  - split; [done|]. split; [done|]. done.
  - destruct (is_Exception e) eqn:He.
    + split; [intros e' H'; discriminate H'|].
      split; [|done]. intros e' _ _. by unfold emit.
    + split; [intros e' H'; injection H' as <-; done|].
      split; [|done]. intros e' H'. injection H' as <-. congruence.
Qed.

End Handlers.

(** ** What the classifier reads *)

Section Reads.

Context `{C : Codec}.

(** X19. [handle_sync] reads six keys of a batch and nothing else: two
    batches that hold the same under [device_one_time_keys_count],
    [device_lists], [account_data], [ephemeral], [to_device] and [rooms] are
    classified alike, same invocations, same tasks returned, same error if
    any. So [presence] and whatever else a response holds reach no
    handler through [handle_sync]. *)
Theorem handle_sync_reads_six_sections
    (s : Syncer) (kvs kvs' : list (string * JSON)) (w : World) :
  agree_on sync_sections kvs kvs' ->
  handle_sync s (JObj kvs) w = handle_sync s (JObj kvs') w.
Proof.
  intros H. unfold agree_on, sync_sections in H.
  repeat (apply Forall_cons in H as [? H]).
  unfold handle_sync, handle_otk_count, handle_device_lists,
    handle_top_level, handle_rooms, section_events.
  cbn [py_get].
  by repeat match goal with E : _ = _ |- _ => rewrite E; clear E end.
Qed.

(** X20. Of a joined room, [handle_sync] reads [state] and [timeline] and
    nothing else: two rooms that hold the same under these two keys are
    handled alike. So the [ephemeral] events of a joined room (typing
    notices, receipts) and its [account_data] are not dispatched. *)
Theorem joined_room_reads_state_and_timeline
    (s : Syncer) (room_id : string) (kvs kvs' : list (string * JSON))
    (w : World) :
  agree_on joined_room_sections kvs kvs' ->
  handle_joined_room s (room_id, JObj kvs) w
  = handle_joined_room s (room_id, JObj kvs') w.
Proof.
  intros H. unfold agree_on, joined_room_sections in H.
  repeat (apply Forall_cons in H as [? H]).
  unfold handle_joined_room, section_events.
  cbn [py_get].
  by repeat match goal with E : _ = _ |- _ => rewrite E; clear E end.
Qed.

End Reads.

(** ** The dispatchers *)

Section DispatcherFacts.

Variables register_of unregister_of : nat -> Syncer -> Syncer.

Lemma count_line_snoc x log y :
  count_line x (log ++ [y])
  = (count_line x log + (if decide (y = x) then 1 else 0))%nat.
Proof.
  unfold count_line.
  rewrite filter_app, length_app, filter_cons, filter_nil.
  by case_decide.
Qed.

(** The state of a client agrees with its debug log. *)
Lemma log_agrees_step (s0 : Syncer) (c : Client) (call : DispatcherCall) :
  log_agrees register_of unregister_of s0 c ->
  log_agrees register_of unregister_of s0
    (call_dispatcher register_of unregister_of c call).
Proof.
  intros [Hs Hc]. destruct call as [d0|d0]; cbn [call_dispatcher].
  - unfold add_dispatcher.
    destruct (decide (d0 ∈ cl_dispatchers c)) as [Hin|Hin]; [by split|].
    split; cbn [cl_syncer cl_debug cl_dispatchers].
    + by rewrite foldl_app, <- Hs.
    + intros d. rewrite !count_line_snoc, Hc.
      rewrite (decide_False (P := Enabling d0 = Disabling d)) by done.
      destruct (decide (d0 = d)) as [->|Hne].
      * rewrite (decide_True (P := Enabling d = Enabling d)) by done.
        rewrite (decide_False (P := d ∈ cl_dispatchers c)) by done.
        rewrite decide_True by (set_unfold; intuition congruence). lia.
      * rewrite (decide_False (P := Enabling d0 = Enabling d)) by congruence.
        destruct (decide (d ∈ cl_dispatchers c)).
        -- rewrite decide_True by (set_unfold; intuition congruence). lia.
        -- rewrite decide_False by (set_unfold; intuition congruence). lia.
  - unfold remove_dispatcher.
    destruct (decide (d0 ∉ cl_dispatchers c)) as [Hin|Hin]; [by split|].
    apply dec_stable in Hin.
    split; cbn [cl_syncer cl_debug cl_dispatchers].
    + by rewrite foldl_app, <- Hs.
    + intros d. rewrite !count_line_snoc, Hc.
      rewrite (decide_False (P := Disabling d0 = Enabling d)) by done.
      destruct (decide (d0 = d)) as [->|Hne].
      * rewrite (decide_True (P := Disabling d = Disabling d)) by done.
        rewrite (decide_True (P := d ∈ cl_dispatchers c)) by done.
        rewrite decide_False by (set_unfold; intuition congruence). lia.
      * rewrite (decide_False (P := Disabling d0 = Disabling d))
          by congruence.
        destruct (decide (d ∈ cl_dispatchers c)).
        -- rewrite decide_True by (set_unfold; intuition congruence). lia.
        -- rewrite decide_False by (set_unfold; intuition congruence). lia.
Qed.

Lemma log_agrees_calls (s0 : Syncer) (calls : list DispatcherCall) c :
  log_agrees register_of unregister_of s0 c ->
  log_agrees register_of unregister_of s0
    (call_dispatchers register_of unregister_of calls c).
Proof.
  revert c. induction calls as [|call calls IH]; intros c Hc; [done|].
  apply IH. by apply log_agrees_step.
Qed.

Lemma debug_length_calls (calls : list DispatcherCall) c0 :
  (length (cl_debug (call_dispatchers register_of unregister_of calls c0))
   <= length (cl_debug c0) + length calls)%nat.
Proof.
  revert c0. induction calls as [|call calls IH]; intros c0; cbn [length].
  - simpl. lia.
  - unfold call_dispatchers in *. cbn [foldl].
    etransitivity; [apply IH|].
    destruct call as [d|d]; cbn [call_dispatcher];
      unfold add_dispatcher, remove_dispatcher; case_decide;
      cbn [cl_debug]; rewrite ?length_app; simpl; lia.
Qed.

(** X21. After any sequence of calls of [add_dispatcher] and
    [remove_dispatcher] on a new client: [register] and [unregister] were
    called once per line of the debug log, in the order of the log, and at
    no other time; for every dispatcher type the log holds as many
    [Enabling] lines as [Disabling] lines, and one more exactly when the
    type is among the dispatchers. So a type is never registered twice
    without being unregistered in between, and never unregistered unless it
    is registered. *)
Theorem dispatcher_calls_follow_the_log
    (s0 : Syncer) (calls : list DispatcherCall) :
  let c := call_dispatchers register_of unregister_of calls (new_client s0) in
  cl_syncer c = foldl (replay_line register_of unregister_of) s0 (cl_debug c)
  /\ (forall d,
        count_line (Enabling d) (cl_debug c)
        = (count_line (Disabling d) (cl_debug c)
           + (if decide (d ∈ cl_dispatchers c) then 1 else 0))%nat)
  /\ (length (cl_debug c) <= length calls)%nat.
Proof.
  intros c.
  destruct (log_agrees_calls s0 calls (new_client s0)) as [Hs Hc].
  { split; [done|]. intros d.
    by rewrite decide_False by (set_unfold; intuition congruence). }
  split; [exact Hs|]. split; [exact Hc|].
  apply (debug_length_calls calls (new_client s0)).
Qed.

(** X22. Both calls are idempotent: enabling a dispatcher type that has
    just been enabled, or disabling one that has just been disabled, changes
    nothing, neither the syncer nor the log. *)
Theorem dispatcher_calls_are_idempotent (c : Client) (d : nat) :
  add_dispatcher register_of (add_dispatcher register_of c d) d
  = add_dispatcher register_of c d
  /\ remove_dispatcher unregister_of (remove_dispatcher unregister_of c d) d
     = remove_dispatcher unregister_of c d.
Proof.
  split.
  - unfold add_dispatcher at 2 3. case_decide as Hin.
    + unfold add_dispatcher. by rewrite decide_True.
    + unfold add_dispatcher. cbn [cl_dispatchers].
      by rewrite decide_True by (set_unfold; intuition congruence).
  - unfold remove_dispatcher at 2 3. case_decide as Hin.
    + unfold remove_dispatcher. by rewrite decide_True.
    + unfold remove_dispatcher. cbn [cl_dispatchers].
      by rewrite decide_True by (set_unfold; intuition congruence).
Qed.

(** X23. Enabling a dispatcher type that is not enabled and disabling it
    again leaves the dispatchers as they were; the syncer went through
    [register] and then [unregister] of that type, and the log has the two
    lines. *)
Theorem dispatcher_round_trip (c : Client) (d : nat) :
  d ∉ cl_dispatchers c ->
  let c' :=
    remove_dispatcher unregister_of (add_dispatcher register_of c d) d in
  cl_dispatchers c' = cl_dispatchers c
  /\ cl_syncer c' = unregister_of d (register_of d (cl_syncer c))
  /\ cl_debug c' = cl_debug c ++ [Enabling d; Disabling d].
Proof.
  intros Hd c'. unfold c', add_dispatcher.
  rewrite decide_False by done.
  unfold remove_dispatcher. cbn [cl_dispatchers cl_syncer cl_debug].
  rewrite decide_False by (set_unfold; intuition congruence).
  cbn [cl_dispatchers cl_syncer cl_debug].
  split; [set_unfold; intuition congruence|]. split; [done|].
  by rewrite <- app_assoc.
Qed.

End DispatcherFacts.

(** ** Start and stop *)

Section LifecycleFacts.

Lemma lifecycle_step (lc : Lifecycle) (call : LifecycleCall) :
  lc_cancelled lc ++ option_list (syncing_task lc) = seq 0 (lc_created lc) ->
  let lc' := call_lifecycle lc call in
  lc_cancelled lc' ++ option_list (syncing_task lc') = seq 0 (lc_created lc')
  /\ lc_created lc'
     = (lc_created lc + (if decide (call = Start) then 1 else 0))%nat
  /\ syncing_task lc'
     = match call with
       | Start => Some (Nat.pred (lc_created lc'))
       | Stop => None
       end.
Proof.
  intros Hinv lc'. unfold lc'.
  destruct lc as [[t|] n cancelled]; destruct call;
    cbn [call_lifecycle start stop syncing_task lc_created lc_cancelled
         option_list Nat.pred] in *;
    rewrite ?seq_S, ?app_nil_r in *; cbn [Nat.add];
    repeat split; try (simpl; lia); try done; by rewrite <- ?Hinv.
Qed.

(** X24. After any sequence of calls of [start] and [stop] on a new syncer,
    the tasks that [start] created are, in the order of their creation, the
    cancelled ones followed by [syncing_task], if there is one: every sync
    task but the current one has been cancelled, each once, and the current
    one has not. [start] made one task per call, and [syncing_task] is the
    latest of them if the last call was [start] and [None] otherwise. *)
Theorem sync_tasks_are_cancelled_but_the_last (calls : list LifecycleCall) :
  let lc := foldl call_lifecycle new_lifecycle calls in
  lc_cancelled lc ++ option_list (syncing_task lc) = seq 0 (lc_created lc)
  /\ NoDup (lc_cancelled lc)
  /\ lc_created lc = length (filter (fun call => call = Start) calls)
  /\ syncing_task lc
     = match last calls with
       | Some Start => Some (Nat.pred (lc_created lc))
       | _ => None
       end.
Proof.
  assert (H : let lc := foldl call_lifecycle new_lifecycle calls in
    lc_cancelled lc ++ option_list (syncing_task lc) = seq 0 (lc_created lc)
    /\ lc_created lc = length (filter (fun call => call = Start) calls)
    /\ syncing_task lc
       = match last calls with
         | Some Start => Some (Nat.pred (lc_created lc))
         | _ => None
         end).
  { induction calls as [|call calls IH] using rev_ind; [done|].
    cbn zeta in *. rewrite foldl_app. cbn [foldl].
    destruct IH as (Hinv & Hn & _).
    destruct (lifecycle_step _ call Hinv) as (Hinv' & Hn' & Ht').
    split; [exact Hinv'|]. rewrite last_snoc.
    split; [|by destruct call].
    rewrite Hn', Hn, filter_app, length_app, filter_cons, filter_nil.
    by case_decide. }
  cbn zeta in *. destruct H as (Hinv & Hn & Ht).
  split; [exact Hinv|]. split; [|by split].
  pose proof (NoDup_seq 0 (lc_created
    (foldl call_lifecycle new_lifecycle calls))) as Hnd.
  rewrite <- Hinv in Hnd. by apply NoDup_app in Hnd as [? _].
Qed.

End LifecycleFacts.

(** ** Further examples *)

Section MoreExamples.

#[local] Existing Instance Demo.codec.

(** X2 at a failure, an accepted batch and a failure. *)
Lemma run_resumes_from_latest_cursor_witness :
  exists w' st' tr,
    _start Demo.syncer Scenario.mixed_run Demo.world0 = (w', Ok st')
    /\ w_trace w' = w_trace Demo.world0 ++ tr
    /\ requests tr = [JNull; JNull; JStr "T2"]
    /\ next_batch st' = JStr "T2"
    /\ w_next_batch w' = JStr "T2".
Proof.
  apply (run_resumes_from_latest_cursor (C := Demo.codec)
           Demo.syncer Scenario.mixed_run Demo.world0).
  repeat constructor.
Defined.

(** X3 at the same run. *)
Lemma run_sleeps_follow_backoff_witness :
  exists w' st' tr,
    _start Demo.syncer Scenario.mixed_run Demo.world0 = (w', Ok st')
    /\ w_trace w' = w_trace Demo.world0 ++ tr
    /\ sleeps tr = [5; 5]
    /\ length (sleeps tr) = 2%nat
    /\ Forall (fun n => 5 <= n <= 320) (sleeps tr).
Proof.
  apply (run_sleeps_follow_backoff (C := Demo.codec)
           Demo.syncer Scenario.mixed_run Demo.world0).
  repeat constructor.
Defined.

(** X4 at an invalidated token after that run. *)
Lemma fatal_outcome_ends_the_loop_witness :
  exists w1 st1 w',
    _start Demo.syncer Scenario.mixed_run Demo.world0 = (w1, Ok st1)
    /\ _start Demo.syncer
         (Scenario.mixed_run
            ++ Raised MUnknownToken :: [Returned (JObj Demo.broken_batch)])
         Demo.world0
       = (w', Raise MUnknownToken)
    /\ _start Demo.syncer (Scenario.mixed_run ++ [Raised MUnknownToken])
         Demo.world0
       = (w', Raise MUnknownToken)
    /\ w_trace w' = w_trace w1 ++ [ESync (next_batch st1)]
    /\ w_tasks w' = w_tasks w1
    /\ w_next_batch w' = JStr "T2".
Proof.
  apply (fatal_outcome_ends_the_loop (C := Demo.codec) Demo.syncer
           Scenario.mixed_run [Returned (JObj Demo.broken_batch)]
           (Raised MUnknownToken) MUnknownToken Demo.world0).
  - repeat constructor.
  - reflexivity.
Defined.

(** X5 at a cancellation after that run. *)
Lemma try_start_reports_the_stop_witness :
  exists w1,
    _start Demo.syncer (Scenario.mixed_run ++ Raised CancelledError :: [])
      Demo.world0
    = (w1, Raise CancelledError)
    /\ _try_start Demo.syncer None
         (Scenario.mixed_run ++ Raised CancelledError :: []) Demo.world0
       = (after_stop Demo.syncer CancelledError w1, Ok None)
    /\ stop_error CancelledError = None.
Proof.
  apply (try_start_reports_the_stop (C := Demo.codec) Demo.syncer
           Scenario.mixed_run [] (Raised CancelledError) CancelledError
           Demo.world0).
  - repeat constructor.
  - reflexivity.
Defined.

(** X7 at the first failure of a run. *)
Lemma transient_failure_turn_witness :
  let e := OtherException "ClientConnectionError" in
  is_transient e = true
  /\ snd (sync_iteration Demo.syncer (MkLoop 5 true JNull) (Raised e)
            Demo.world0)
     = Ok (MkLoop 10 true JNull).
Proof.
  intros e. split; [reflexivity|].
  rewrite (transient_failure_turn (C := Demo.codec) Demo.syncer
             (MkLoop 5 true JNull) e Demo.world0 eq_refl).
  reflexivity.
Defined.

(** X8 at a batch that holds a cursor and nothing else. *)
Lemma handle_sync_without_sections_witness :
  (task_handler <$>
     created (w_trace (fst (handle_sync Demo.syncer
                              (JObj Scenario.bare_batch) Demo.world0))))
  = [4%nat; 3%nat].
Proof.
  rewrite (handle_sync_without_sections (C := Demo.codec) Demo.syncer
             Scenario.bare_batch Demo.world0
             eq_refl eq_refl eq_refl eq_refl eq_refl eq_refl).
  vm_compute. reflexivity.
Defined.

(** X9 at a batch whose count of one-time keys is a list. *)
Lemma malformed_otk_section_drops_the_batch_witness :
  let st := MkLoop 5 true JNull in
  handle_sync Demo.syncer (JObj Scenario.odd_batch) Demo.world0
  = (Demo.world0, Raise AttributeError)
  /\ snd (sync_iteration Demo.syncer st
            (Returned (JObj Scenario.odd_batch)) Demo.world0)
     = Ok (MkLoop 5 false (JStr "T5")).
Proof.
  intros st.
  destruct (malformed_otk_section_drops_the_batch (C := Demo.codec)
              Demo.syncer st Scenario.odd_batch (JList []) Demo.world0
              eq_refl eq_refl eq_refl) as [H1 H2].
  split; [exact H1|]. rewrite H2. reflexivity.
Defined.

(** X11 at an invited room whose invite state holds the name of the room
    and then the membership event of the user, with an [unsigned] section
    and without. *)
Lemma invited_room_with_stripped_state_witness :
  let named :=
    JObj [("type", JStr "m.room.name"); ("state_key", JStr "");
          ("content", JObj [("name", JStr "Room")]);
          ("room_id", JStr "!r:x")] in
  handle_invited_room Demo.syncer ("!r:x", Scenario.signed_named_invite_room)
    Demo.world0
  = dispatch_event Demo.syncer
      (invite_with [named] Scenario.signed_invite_event)
      (Z.lor SyncStream.INVITED_ROOM SyncStream.STATE)
      (after_clock_read Demo.world0)
  /\ handle_invited_room Demo.syncer ("!r:x", Scenario.named_invite_room)
       Demo.world0
     = (after_clock_read Demo.world0, Raise AttributeError).
Proof.
  intros named. split.
  - refine (proj1 (invited_room_with_stripped_state (C := Demo.codec)
                     Demo.syncer "!r:x" Scenario.signed_named_invite_room
                     [Scenario.name_event] [] Scenario.signed_member_event
                     Scenario.signed_invite_event [named] Demo.world0
                     _ _ _ _ _ _)).
    + reflexivity.
    + repeat constructor.
    + reflexivity.
    + constructor.
    + vm_compute. reflexivity.
    + vm_compute. reflexivity.
  - refine (proj1 (invited_room_with_stripped_state (C := Demo.codec)
                     Demo.syncer "!r:x" Scenario.named_invite_room
                     [Scenario.name_event] [] (Demo.member_event Demo.user)
                     Demo.invite_event [named] Demo.world0 _ _ _ _ _ _)).
    + reflexivity.
    + repeat constructor.
    + reflexivity.
    + constructor.
    + vm_compute. reflexivity.
    + vm_compute. reflexivity.
Defined.

(** X14 at a handler that is new to the messages of rooms, a type without
    handlers: the type is left with an empty list. *)
Lemma add_waiting_then_remove_restores_witness :
  let key : EvKey :=
    inl (EventType.Mk "m.room.message" EventType.MESSAGE) in
  let s' :=
    remove_event_handler (add_event_handler Demo.syncer key 7%nat true)
      key 7%nat in
  handlers_at s' (inl EventType.ALL) = [(2%nat, false)]
  /\ event_handlers Demo.syncer !! key = None
  /\ event_handlers s' !! key = Some [].
Proof.
  intros key s'.
  assert (Hfresh : forall wt, (7%nat, wt) ∉ handlers_at Demo.syncer key).
  { intros wt Hin. by apply elem_of_nil in Hin. }
  destruct (add_waiting_then_remove_restores Demo.syncer key
              (inl EventType.ALL) 7%nat Hfresh) as (H1 & _ & H3).
  unfold s'. split; [by rewrite H1|]. split; [reflexivity|].
  by rewrite H3.
Defined.

(** X23 at a dispatcher that registers a global handler, on a new client:
    the handler is gone again, too. *)
Lemma dispatcher_round_trip_witness :
  let c := new_client Demo.syncer in
  let c' :=
    remove_dispatcher Scenario.unregister_of
      (add_dispatcher Scenario.register_of c 7%nat) 7%nat in
  cl_dispatchers c' = cl_dispatchers c
  /\ cl_syncer c'
     = Scenario.unregister_of 7%nat
         (Scenario.register_of 7%nat (cl_syncer c))
  /\ cl_debug c' = cl_debug c ++ [Enabling 7%nat; Disabling 7%nat].
Proof.
  intros c.
  apply (dispatcher_round_trip Scenario.register_of Scenario.unregister_of
           c 7%nat).
  apply not_elem_of_empty.
Defined.

(** X19 at a batch with and without the presence of other users. *)
Lemma handle_sync_reads_six_sections_witness :
  let presence := ("presence", JObj [("events", JList [JObj []])]) in
  handle_sync Demo.syncer (JObj (presence :: Demo.invite_batch)) Demo.world0
  = handle_sync Demo.syncer (JObj Demo.invite_batch) Demo.world0.
Proof.
  intros presence.
  apply (handle_sync_reads_six_sections (C := Demo.codec)).
  repeat constructor.
Defined.

(** X20 at a joined room with and without a typing notice. *)
Lemma joined_room_reads_state_and_timeline_witness :
  handle_joined_room Demo.syncer ("!j:x", JObj Scenario.typing_room)
    Demo.world0
  = handle_joined_room Demo.syncer ("!j:x", JObj Scenario.quiet_room)
      Demo.world0.
Proof.
  apply (joined_room_reads_state_and_timeline (C := Demo.codec)).
  repeat constructor.
Defined.

End MoreExamples.
